(** * The xsp-fs virtual filesystem of core-3nweb-client-lib

    A shallow embedding of the path-rooted filesystem object [XspFS] and its
    versioned interface [V], of [FileNode] with its [FilePersistance], of the
    file exceptions of [lib-common/exceptions/file.ts], and of the
    [ObjIdToPathMap] that [watchTree] keeps, followed by the properties of
    these that the specification of the library states.

    Conventions of the embedding:
    - a JS [number] is a [Z]; a [string] is a [string]; [Uint8Array] is a
      list of bytes; [undefined] in an optional position is [None];
    - an [async] function that is awaited at once is a function in a monad
      of state and exceptions, the state being the objects it mutates;
    - [throw] is the [Throw] result; state changes made before it stay. *)

From Stdlib Require Import ZArith Lia Ascii String.
From stdpp Require Import base option list strings pretty gmap.

Open Scope string_scope.
Open Scope list_scope.
Open Scope Z_scope.

(** ** lib-common/exceptions/file.ts *)

Module FileExc.

(** The [cause] of an exception is [any] in the source; a message stands
    for it. *)
Definition Cause : Type := string.

(** The keys of the [Code] table. *)
Inductive CodeKey : Type :=
| k_notFound | k_alreadyExists | k_notDirectory | k_notFile | k_notLink
| k_isDirectory | k_notEmpty | k_endOfFile | k_opNotPermitted | k_busy
| k_ioError | k_concurrentUpdate | k_parsingError | k_notImplemented
| k_isEndless.

#[global] Instance CodeKey_eq_dec : EqDecision CodeKey.
Proof. solve_decision. Defined.

Definition allCodeKeys : list CodeKey :=
  [ k_notFound; k_alreadyExists; k_notDirectory; k_notFile; k_notLink;
    k_isDirectory; k_notEmpty; k_endOfFile; k_opNotPermitted; k_busy;
    k_ioError; k_concurrentUpdate; k_parsingError; k_notImplemented;
    k_isEndless ].

(** [export const Code] *)
Definition Code (k : CodeKey) : string :=
  match k with
  | k_notFound => "ENOENT"
  | k_alreadyExists => "EEXIST"
  | k_notDirectory => "ENOTDIR"
  | k_notFile => "ENOTFILE"
  | k_notLink => "not-link"
  | k_isDirectory => "EISDIR"
  | k_notEmpty => "ENOTEMPTY"
  | k_endOfFile => "EEOF"
  | k_opNotPermitted => "EPERM"
  | k_busy => "EBUSY"
  | k_ioError => "EIO"
  | k_concurrentUpdate => "concurrent-update"
  | k_parsingError => "parsing-error"
  | k_notImplemented => "ENOSYS"
  | k_isEndless => "is-endless"
  end.

(** Reading a property of the frozen [Code] object by its name: a name
    that is not a key of the table reads as [undefined]. *)
Definition Code_prop (name : string) : option string :=
  Code <$> List.find (fun k =>
    bool_decide (name =
      match k with
      | k_notFound => "notFound"
      | k_alreadyExists => "alreadyExists"
      | k_notDirectory => "notDirectory"
      | k_notFile => "notFile"
      | k_notLink => "notLink"
      | k_isDirectory => "isDirectory"
      | k_notEmpty => "notEmpty"
      | k_endOfFile => "endOfFile"
      | k_opNotPermitted => "opNotPermitted"
      | k_busy => "busy"
      | k_ioError => "ioError"
      | k_concurrentUpdate => "concurrentUpdate"
      | k_parsingError => "parsingError"
      | k_notImplemented => "notImplemented"
      | k_isEndless => "isEndless"
      end)) allCodeKeys.

(** [web3n.files.FileException]: an optional boolean flag that is absent
    is [false]. *)
Record FileException : Type := mkFileException {
  runtimeException : bool;
  exc_type : string;
  exc_code : option string;
  exc_path : string;
  exc_cause : option Cause;
  alreadyExists : bool;
  notFound : bool;
  isDirectory : bool;
  notDirectory : bool;
  notFile : bool;
  notLink : bool;
  endOfFile : bool;
  busy : bool;
  ioError : bool;
  notEmpty : bool;
  opNotPermitted : bool;
  concurrentUpdate : bool;
  parsingError : bool;
  notImplemented : bool;
  isEndless : bool;
  attrsNotEnabledInFS : bool;
  versionMismatch : bool
}.

#[global] Instance FileException_eq_dec : EqDecision FileException.
Proof. solve_decision. Defined.

(** The flag of an exception that carries the name of a key of [Code]. *)
Definition flag (k : CodeKey) (err : FileException) : bool :=
  match k with
  | k_notFound => notFound err
  | k_alreadyExists => alreadyExists err
  | k_notDirectory => notDirectory err
  | k_notFile => notFile err
  | k_notLink => notLink err
  | k_isDirectory => isDirectory err
  | k_notEmpty => notEmpty err
  | k_endOfFile => endOfFile err
  | k_opNotPermitted => opNotPermitted err
  | k_busy => busy err
  | k_ioError => ioError err
  | k_concurrentUpdate => concurrentUpdate err
  | k_parsingError => parsingError err
  | k_notImplemented => notImplemented err
  | k_isEndless => isEndless err
  end.

(** [err.<key> = true] *)
Definition setFlag (k : CodeKey) (err : FileException) : FileException :=
  let on (k' : CodeKey) (old : bool) : bool :=
    if decide (k = k') then true else old in
  {| runtimeException := runtimeException err;
     exc_type := exc_type err;
     exc_code := exc_code err;
     exc_path := exc_path err;
     exc_cause := exc_cause err;
     alreadyExists := on k_alreadyExists (alreadyExists err);
     notFound := on k_notFound (notFound err);
     isDirectory := on k_isDirectory (isDirectory err);
     notDirectory := on k_notDirectory (notDirectory err);
     notFile := on k_notFile (notFile err);
     notLink := on k_notLink (notLink err);
     endOfFile := on k_endOfFile (endOfFile err);
     busy := on k_busy (busy err);
     ioError := on k_ioError (ioError err);
     notEmpty := on k_notEmpty (notEmpty err);
     opNotPermitted := on k_opNotPermitted (opNotPermitted err);
     concurrentUpdate := on k_concurrentUpdate (concurrentUpdate err);
     parsingError := on k_parsingError (parsingError err);
     notImplemented := on k_notImplemented (notImplemented err);
     isEndless := on k_isEndless (isEndless err);
     attrsNotEnabledInFS := attrsNotEnabledInFS err;
     versionMismatch := versionMismatch err |}.

(** [exc.path = path] *)
Definition setPath (path : string) (err : FileException) : FileException :=
  {| runtimeException := runtimeException err;
     exc_type := exc_type err;
     exc_code := exc_code err;
     exc_path := path;
     exc_cause := exc_cause err;
     alreadyExists := alreadyExists err;
     notFound := notFound err;
     isDirectory := isDirectory err;
     notDirectory := notDirectory err;
     notFile := notFile err;
     notLink := notLink err;
     endOfFile := endOfFile err;
     busy := busy err;
     ioError := ioError err;
     notEmpty := notEmpty err;
     opNotPermitted := opNotPermitted err;
     concurrentUpdate := concurrentUpdate err;
     parsingError := parsingError err;
     notImplemented := notImplemented err;
     isEndless := isEndless err;
     attrsNotEnabledInFS := attrsNotEnabledInFS err;
     versionMismatch := versionMismatch err |}.

(** The object literal that [makeFileException] starts from. *)
Definition bareException
    (code : option string) (path : string) (cause : option Cause)
    : FileException :=
  {| runtimeException := true;
     exc_type := "file";
     exc_code := code;
     exc_path := path;
     exc_cause := cause;
     alreadyExists := false; notFound := false; isDirectory := false;
     notDirectory := false; notFile := false; notLink := false;
     endOfFile := false; busy := false; ioError := false;
     notEmpty := false; opNotPermitted := false;
     concurrentUpdate := false; parsingError := false;
     notImplemented := false; isEndless := false;
     attrsNotEnabledInFS := false; versionMismatch := false |}.

(** [code === Code.<key>], on [string|undefined] *)
Definition codeIs (code : option string) (k : CodeKey) : bool :=
  bool_decide (code = Some (Code k)).

Definition makeFileException
    (code : option string) (path : string) (cause : option Cause)
    : FileException :=
  let err := bareException code path cause in
  if codeIs code k_alreadyExists then setFlag k_alreadyExists err
  else if codeIs code k_notFound then setFlag k_notFound err
  else if codeIs code k_isDirectory then setFlag k_isDirectory err
  else if codeIs code k_notDirectory then setFlag k_notDirectory err
  else if codeIs code k_notFile then setFlag k_notFile err
  else if codeIs code k_notLink then setFlag k_notLink err
  else if codeIs code k_endOfFile then setFlag k_endOfFile err
  else if codeIs code k_busy then setFlag k_busy err
  else if codeIs code k_ioError then setFlag k_ioError err
  else if codeIs code k_notEmpty then setFlag k_notEmpty err
  else if codeIs code k_opNotPermitted then setFlag k_opNotPermitted err
  else if codeIs code k_concurrentUpdate then setFlag k_concurrentUpdate err
  else if codeIs code k_parsingError then setFlag k_parsingError err
  else if codeIs code k_notImplemented then setFlag k_notImplemented err
  else if codeIs code k_isEndless then setFlag k_isEndless err
  else err.

Definition makeNoAttrsExc (path : string) : FileException :=
  {| runtimeException := true;
     exc_type := "file";
     exc_code := None;
     exc_path := path;
     exc_cause := None;
     alreadyExists := false; notFound := false; isDirectory := false;
     notDirectory := false; notFile := false; notLink := false;
     endOfFile := false; busy := false; ioError := false;
     notEmpty := false; opNotPermitted := false;
     concurrentUpdate := false; parsingError := false;
     notImplemented := false; isEndless := false;
     attrsNotEnabledInFS := true; versionMismatch := false |}.

Definition makeVersionMismatchExc (path : string) : FileException :=
  {| runtimeException := true;
     exc_type := "file";
     exc_code := None;
     exc_path := path;
     exc_cause := None;
     alreadyExists := false; notFound := false; isDirectory := false;
     notDirectory := false; notFile := false; notLink := false;
     endOfFile := false; busy := false; ioError := false;
     notEmpty := false; opNotPermitted := false;
     concurrentUpdate := false; parsingError := false;
     notImplemented := false; isEndless := false;
     attrsNotEnabledInFS := false; versionMismatch := true |}.

End FileExc.

Import FileExc.

(** ** Exceptions and results *)

(** What a [throw] carries: a plain [Error] with its message, or a file
    exception. *)
Inductive Exn : Type :=
| JsError (msg : string)
| FileExn (exc : FileException).

#[global] Instance Exn_eq_dec : EqDecision Exn.
Proof. solve_decision. Defined.

Inductive Result (A : Type) : Type :=
| Ok (a : A)
| Throw (e : Exn).

Arguments Ok {A} a.
Arguments Throw {A} e.

Definition isThrow {A} (r : Result A) : bool :=
  match r with Throw _ => true | Ok _ => false end.

#[global] Instance Result_ret : MRet Result := fun A (a : A) => Ok a.

#[global] Instance Result_bind : MBind Result :=
  fun A B (k : A -> Result B) (r : Result A) =>
    match r with
    | Ok a => k a
    | Throw e => Throw e
    end.

(** ** Paths *)

(** [path.posix] of Node.js, which the source imports and which is no part
    of the repository: [posix.resolve], as Node documents it and as its
    [normalizeString] works with [allowAboveRoot] false, segment by
    segment. *)
Module posix.

(** [String.prototype.split] with a separator of one character. *)
Fixpoint splitOn (sep : ascii) (s : string) : list string :=
  match s with
  | EmptyString => [ "" ]
  | String c s' =>
      if decide (c = sep) then "" :: splitOn sep s'
      else match splitOn sep s' with
           | seg :: rest => String c seg :: rest
           | [] => [ String c "" ]
           end
  end.

(** [Array.prototype.join] *)
Fixpoint join (sep : string) (parts : list string) : string :=
  match parts with
  | [] => ""
  | [ p ] => p
  | p :: rest => p +:+ sep +:+ join sep rest
  end.

(** One step of [normalizeString] with [allowAboveRoot] false, at the end
    of a segment: an empty segment and ["."] change nothing, [".."] takes
    the last segment of the result away when there is one, any other
    segment is added. *)
Definition normalizeStep (res : list string) (seg : string) : list string :=
  if decide (seg = "") then res
  else if decide (seg = ".") then res
  else if decide (seg = "..") then removelast res
  else res ++ [ seg ].

Definition normalizeString (path : string) : string :=
  join "/" (foldl normalizeStep [] (splitOn "/" path)).

(** [posix.resolve('/', path)]: the arguments are taken from the right
    until the path built is absolute; an empty argument is skipped. *)
Definition resolve_from_root (path : string) : string :=
  let resolvedPath :=
    match path with
    | EmptyString => "/" +:+ "/" +:+ ""
    | String c _ =>
        if decide (c = "/"%char) then path +:+ "/" +:+ ""
        else "/" +:+ "/" +:+ (path +:+ "/" +:+ "")
    end in
  "/" +:+ normalizeString resolvedPath.

(** [posix.basename(path)]: the slashes at the end are left out, and what
    stands after the last slash before them is taken; the empty string
    when there is nothing but slashes. *)
Definition basename (path : string) : string :=
  default "" (last (List.filter (fun seg => negb (bool_decide (seg = "")))
                                (splitOn "/" path))).

End posix.

(** [part => !!part] on strings *)
Definition truthy (part : string) : bool :=
  negb (bool_decide (part = "")).

Definition splitPathIntoParts (path : string) : list string :=
  List.filter truthy (posix.splitOn "/" (posix.resolve_from_root path)).

(** [split]: the last part, [undefined] when there is none, and the parts
    before it. *)
Definition split (path : string) : list string * option string :=
  let folderPath := splitPathIntoParts path in
  (removelast folderPath, last folderPath).


(** ** State and exceptions

    An [async] method of an object is a function from the state of the
    objects it reads and writes to a result and the state after. *)

Definition M (S A : Type) : Type := S -> Result A * S.

#[global] Instance M_ret {S} : MRet (M S) :=
  fun A (a : A) (s : S) => (Ok a, s).

#[global] Instance M_bind {S} : MBind (M S) :=
  fun A B (k : A -> M S B) (m : M S A) (s : S) =>
    match m s with
    | (Ok a, s') => k a s'
    | (Throw e, s') => (Throw e, s')
    end.

Definition throw {S A} (e : Exn) : M S A := fun s => (Throw e, s).

(** [m.catch(h)] *)
Definition catch {S A} (m : M S A) (h : Exn -> M S A) : M S A :=
  fun s =>
    match m s with
    | (Ok a, s') => (Ok a, s')
    | (Throw e, s') => h e s'
    end.

Definition gets {S A} (f : S -> A) : M S A := fun s => (Ok (f s), s).

Definition modify {S} (f : S -> S) : M S unit := fun s => (Ok tt, f s).

(** A result that needs no state. *)
Definition liftR {S A} (r : Result A) : M S A := fun s => (r, s).

(** ** Attributes, payloads and the storage *)

Definition byte : Type := Byte.byte.

(** [CommonAttrs]: times in milliseconds. *)
Record CommonAttrs : Type := mkCommonAttrs {
  ctime : Z;
  mtime : Z
}.

(** [XAttrs]: values of extended attributes are JSON in the source; a
    string stands for one. *)
Definition XAttrs : Type := list (string * string).

Record XAttrsChanges : Type := mkXAttrsChanges {
  xa_set : list (string * string);
  xa_remove : list string
}.

(** [FileAttrs] of file-node.ts *)
Record FileAttrs : Type := mkFileAttrs {
  fa_attrs : CommonAttrs;
  fa_size : Z;
  fa_xattrs : option XAttrs
}.

(** [ObjId]: a string, or [null] for the root object. *)
Definition ObjId : Type := option string.

(** Modelled from the spec: node-persistence.ts and the xsp-files library
    are not among the sources. The Cryptor port is out of the spec's scope,
    so the bytes of an object stand as the payload they decrypt to:
    attributes, extended attributes and the content bytes; the size that
    the payload's attributes carry is the length of the content. *)
Record ReadonlyPayload : Type := mkPayload {
  p_attrs : CommonAttrs;
  p_xattrs : option XAttrs;
  p_content : list byte
}.

(** Modelled from the spec: [ObjSource {version, read_header(), seg_src}]
    of the Storage port. *)
Record ObjSource : Type := mkObjSource {
  os_version : Z;
  os_payload : ReadonlyPayload
}.

(** Modelled from the spec: [Subscribe], the writer-push handle that
    surfaces the bytes of an object to the store. It stands as what the
    store gets from it in the end: the whole object, or the error that the
    writer finished with. *)
Definition Subscribe : Type := Result ReadonlyPayload.

Inductive FSType : Type := local | synced | share.

#[global] Instance FSType_eq_dec : EqDecision FSType.
Proof. solve_decision. Defined.

Module Storage.

(** Modelled from the spec: the Storage port (common.ts is not among the
    sources): its type, the objects it keeps, and the count of the object
    ids it has generated. Closing it is not a part of the port that the
    filesystem calls; [closed] records that nothing has closed it. *)
Record t : Type := mk {
  type : FSType;
  objs : gmap string ObjSource;
  rootObj : option ObjSource;
  generated : N;
  closed : bool
}.

Definition exc_objNotFound (objId : ObjId) : Exn :=
  JsError ("Object not found: " +:+ default "null" objId).

(** [get_obj(objId)]; the root object is addressed with [null]. *)
Definition getObj (objId : ObjId) : M t ObjSource :=
  fun st =>
    match objId with
    | Some id =>
        match objs st !! id with
        | Some src => (Ok src, st)
        | None => (Throw (exc_objNotFound objId), st)
        end
    | None =>
        match rootObj st with
        | Some src => (Ok src, st)
        | None => (Throw (exc_objNotFound objId), st)
        end
    end.

(** [save_obj(objId, new_version, Subscribe)]: the store draws the bytes
    from the writer; when the writer ends with an error the save fails with
    it and nothing is kept (spec, 9: sink errors cancel the save). *)
Definition saveObj (objId : ObjId) (newVersion : Z) (sub : Subscribe)
    : M t unit :=
  fun st =>
    match sub with
    | Throw e => (Throw e, st)
    | Ok payload =>
        let src := mkObjSource newVersion payload in
        (Ok tt,
         match objId with
         | Some id =>
             mk (type st) (<[ id := src ]> (objs st)) (rootObj st)
                (generated st) (closed st)
         | None =>
             mk (type st) (objs st) (Some src) (generated st) (closed st)
         end)
    end.

(** The alphabet of [base64urlSafe]. *)
Definition base64url : string :=
  "ABCDEFGHIJKLMNOPQRSTUVWXYZabcdefghijklmnopqrstuvwxyz0123456789-_".

Definition b64digit (d : N) : ascii :=
  nth (N.to_nat d) (list_ascii_of_string base64url) "A"%char.

(** The [width] lowest digits of [n] in the base 64, the lowest first. *)
Fixpoint digits (width : nat) (n : N) : string :=
  match width with
  | O => ""
  | S w => String (b64digit (n mod 64)) (digits w (n / 64))
  end.

(** Modelled from the spec: the object id of the count [n]. An object id
    is the URL-safe base64 form of the [NONCE_LENGTH], 24, bytes of a header
    nonce, as the code makes one elsewhere
    ([base64urlSafe.pack(random.bytesSync(sbox.NONCE_LENGTH))]): 32
    characters; the bytes of the count stand for the random ones, and a
    count that does not fit into 24 bytes takes more characters. *)
Definition newId (n : N) : string :=
  digits (Nat.max 32 (S (N.to_nat (N.log2 n / 6)))) n.

(** [generate_new_obj_id()]: an id that was not given out before. *)
Definition generateNewObjId : M t string :=
  fun st =>
    (Ok (newId (generated st)),
     mk (type st) (objs st) (rootObj st) (N.succ (generated st))
        (closed st)).

End Storage.

Module NodePersistance.

(** Modelled from the spec: [read_payload(source)]. *)
Definition readonlyPayload (objSrc : ObjSource) : ReadonlyPayload :=
  os_payload objSrc.

(** [payload.getAttrs().size] *)
Definition size (payload : ReadonlyPayload) : Z :=
  Z.of_nat (length (p_content payload)).

(** [payload.readSomeContentBytes(start, end)] *)
Definition readSomeContentBytes (payload : ReadonlyPayload) (start end_ : Z)
    : list byte :=
  take (Z.to_nat (end_ - start)) (drop (Z.to_nat start) (p_content payload)).

(** Modelled from the spec: [write_whole(bytes, version, attrs, xattrs)]. *)
Definition writeWhole (bytes : list byte) (version : Z)
    (attrs : CommonAttrs) (xattrs : option XAttrs) : Subscribe :=
  Ok (mkPayload attrs xattrs bytes).

(** Modelled from the spec: the [FileByteSink] of [write_sink]: the bytes
    of the new version as written so far, and the calls of its [done], each
    with the error it was given, in order. *)
Record FileByteSink : Type := mkSink {
  sinkBytes : list byte;
  doneCalls : list (option Exn)
}.

(** Modelled from the spec: [write_sink(version, attrs, xattrs, base?)]:
    with a base the new version starts from the content of the base, else
    from nothing. *)
Definition writableSink (version : Z) (attrs : CommonAttrs)
    (xattrs : option XAttrs) (base : option ObjSource) : FileByteSink :=
  mkSink (from_option (fun src => p_content (os_payload src)) [] base) [].

(** The [Subscribe] that comes with the sink, once the sink is done: the
    first call of [done] ends it, with the object or with the error. *)
Definition subOfSink (attrs : CommonAttrs) (xattrs : option XAttrs)
    (sink : FileByteSink) : option Subscribe :=
  match doneCalls sink with
  | [] => None
  | None :: _ => Some (Ok (mkPayload attrs xattrs (sinkBytes sink)))
  | Some err :: _ => Some (Throw err)
  end.

(** [sink.getSize()] *)
Definition getSize (sink : FileByteSink) : Z :=
  Z.of_nat (length (sinkBytes sink)).

(** [sink.splice(pos, del, bytes)] *)
Definition splice (pos del : Z) (bytes : list byte) (sink : FileByteSink)
    : FileByteSink :=
  mkSink (take (Z.to_nat pos) (sinkBytes sink) ++ bytes
          ++ drop (Z.to_nat (pos + del)) (sinkBytes sink))
         (doneCalls sink).

(** [sink.truncate(size)] *)
Definition truncate (size : Z) (sink : FileByteSink) : FileByteSink :=
  mkSink (take (Z.to_nat size) (sinkBytes sink)) (doneCalls sink).

(** The sink's own [done(err?)]. *)
Definition done (err : option Exn) (sink : FileByteSink) : FileByteSink :=
  mkSink (sinkBytes sink) (doneCalls sink ++ [ err ]).

End NodePersistance.

(** ** lib-client/3nstorage/xsp-fs/file-node.ts *)

Definition fileAttrsFrom (payload : ReadonlyPayload) : FileAttrs :=
  mkFileAttrs (p_attrs payload) (NodePersistance.size payload)
              (p_xattrs payload).

Module FilePersistance.

(** What [readBytes] resolves to: [{ bytes?; fileAttrs? }]. *)
Record BytesAndAttrs : Type := mkBytesAndAttrs {
  bytes : option (list byte);
  fileAttrs : option FileAttrs
}.

Definition getAttrs (objSrc : ObjSource) : FileAttrs :=
  fileAttrsFrom (NodePersistance.readonlyPayload objSrc).

(** [if ((typeof x === 'number') && (x < 0)) throw new Error(...)] *)
Definition checkBound (name : string) (x : option Z) : Result unit :=
  match x with
  | Some n =>
      if bool_decide (n < 0) then
        Throw (JsError ("Parameter " +:+ name +:+ " has bad value: "
                        +:+ pretty n))
      else Ok tt
  | None => Ok tt
  end.

Definition readBytes (objSrc : ObjSource) (start end_ : option Z)
    (getAttrs : bool) : Result BytesAndAttrs :=
  _ ← checkBound "start" start;
  _ ← checkBound "end" end_;
  let payload := NodePersistance.readonlyPayload objSrc in
  let size := NodePersistance.size payload in
  let attrsIfAsked :=
    if getAttrs then Some (fileAttrsFrom payload) else None in
  (* from [if (typeof end === 'number')] on *)
  let rest (start : Z) (end_ : option Z) : Result BytesAndAttrs :=
    match end_ with
    | Some e =>
        let e' := Z.min size e in
        if bool_decide (e' <= start) then
          Ok (mkBytesAndAttrs None attrsIfAsked)
        else
          Ok (mkBytesAndAttrs
                (Some (NodePersistance.readSomeContentBytes payload start e'))
                attrsIfAsked)
    | None =>
        Ok (mkBytesAndAttrs
              (Some (NodePersistance.readSomeContentBytes payload start size))
              attrsIfAsked)
    end in
  match start with
  | None => rest 0 (Some size)
  | Some start' =>
      if bool_decide (start' >= size) then
        Ok (mkBytesAndAttrs None attrsIfAsked)
      else rest start' end_
  end.

Definition saveBytes (bytes : list byte) (version : Z)
    (attrs : CommonAttrs) (xattrs : option XAttrs) : Subscribe :=
  NodePersistance.writeWhole bytes version attrs xattrs.

End FilePersistance.


(** [web3n.files.ListingEntry] *)
Record ListingEntry : Type := mkListingEntry {
  le_name : string;
  isFile : bool;
  isFolder : bool;
  isLink : bool
}.

(** The events of nodes: [web3n.files.FolderEvent] and [FileEvent], each
    with its [path]. *)
Inductive EventBody : Type :=
| Removed
| EntryRenaming (oldName newName : string)
| EntryRemoval (name : string) (moveLabel : option Z)
| EntryAddition (entry : ListingEntry) (moveLabel : option Z)
| FileChange (newVersion : Z)
| OtherEvent.

Definition isRemoved (b : EventBody) : bool :=
  match b with Removed => true | _ => false end.

Record Event : Type := mkEvent {
  body : EventBody;
  e_path : string
}.

(** [NodeEvent] of common.ts: [{ event, objId, parentObjId? }] *)
Record NodeEvent : Type := mkNodeEvent {
  event : Event;
  ne_objId : ObjId;
  parentObjId : option ObjId
}.

(** [!s] on [string|undefined] *)
Definition falsy (s : option string) : bool :=
  match s with
  | None => true
  | Some str => bool_decide (str = "")
  end.

(** Modelled from the spec: [idToHeaderNonce(objId)] of the library
    xsp-files: the header nonce is a pure function of the object id. The
    id is opened as URL-safe base64 and has to give the [NONCE_LENGTH], 24,
    bytes of a nonce, which 32 characters of the alphabet do; an id of
    another form is refused. The nonce itself has no part in the embedding,
    where objects stand decrypted. *)
Definition isBase64url (c : ascii) : bool :=
  bool_decide (c ∈ list_ascii_of_string Storage.base64url).

Definition idToHeaderNonce (objId : string) : Result unit :=
  if bool_decide (String.length objId = 32%nat)
     && forallb isBase64url (list_ascii_of_string objId)
  then Ok tt
  else Throw (JsError ("Given object id " +:+ objId
                       +:+ " doesn't have expected length"))%string.

Module FileNode.

(** The fields of a [FileNode]: its own [fileSize] and those of
    [NodeInFS]; [events] is what the node has broadcast, oldest first. *)
Record t : Type := mk {
  name : string;
  objId : string;
  version : Z;
  parentId : option string;
  attrs : CommonAttrs;
  xattrs : option XAttrs;
  fileSize : Z;
  events : list Event
}.

(** What a method of a file node works on: the node, its storage, and the
    time that [Date.now()] reads. *)
Record Ctx : Type := mkCtx {
  this : t;
  storage : Storage.t;
  now : Z
}.

Definition onStorage {A} (m : M Storage.t A) : M Ctx A :=
  fun c =>
    let '(r, st) := m (storage c) in
    (r, mkCtx (this c) st (now c)).

(** The constructor; the attributes, which the two callers set right after
    it, come as an argument. Of [new FilePersistance(...)] there is the
    call of [idToHeaderNonce] with the object id, which throws for an id of
    another form than that of a nonce. *)
Definition construct (fileName : option string) (objId : string)
    (version : Z) (parentId : option string) (attrs : CommonAttrs)
    : Result t :=
  if falsy fileName || falsy (Some objId) then
    Throw (JsError "Bad file parameter(s) given")
  else
    _ ← idToHeaderNonce objId;
    Ok (mk (default "" fileName) objId version parentId attrs None 0 []).

(** [makeForNew]; [CommonAttrs.makeForTimeNow()] puts the time read into
    both attributes. *)
Definition makeForNew (now : Z) (parentId : option string)
    (name : option string) : M Storage.t t :=
  if falsy parentId then throw (JsError "Bad parent id")
  else
    objId ← Storage.generateNewObjId;
    liftR (construct name objId 0 parentId (mkCommonAttrs now now)).

(** [setUpdatedState]; the three fields of the node are what
    [setUpdatedParams] of [NodeInFS] writes. *)
Definition setUpdatedState (version : Z) (fileAttrs : FileAttrs) : M Ctx unit :=
  modify (fun c =>
    let f := this c in
    mkCtx (mk (name f) (objId f) version (parentId f)
              (fa_attrs fileAttrs) (fa_xattrs fileAttrs)
              (fa_size fileAttrs) (events f))
          (storage c) (now c)).

(** [initWithAttrs] *)
Definition initWithAttrs (parentId : option string) (fileName : string)
    (objId : string) : M Storage.t t :=
  src ← Storage.getObj (Some objId);
  let fileAttrs := FilePersistance.getAttrs src in
  file ← liftR (construct (Some fileName) objId (os_version src) parentId
                          (fa_attrs fileAttrs));
  mret (mk (name file) (FileNode.objId file) (os_version src)
           (FileNode.parentId file) (fa_attrs fileAttrs)
           (fa_xattrs fileAttrs) (fa_size fileAttrs) (events file)).

Definition makeForExisting (parentId : option string) (fileName : string)
    (objId : string) : M Storage.t t :=
  if falsy parentId then throw (JsError "Bad parent id")
  else initWithAttrs parentId fileName objId.

(** Modelled from the spec: [broadcastEvent] of node-in-fs.ts, which is
    not among the sources: the event goes to the observers of the node. *)
Definition broadcastEvent (ev : Event) : M Ctx unit :=
  modify (fun c =>
    let f := this c in
    mkCtx (mk (name f) (objId f) (version f) (parentId f) (attrs f)
              (xattrs f) (fileSize f) (events f ++ [ ev ]))
          (storage c) (now c)).

(** Modelled from the spec: [update(changes)] of extended attributes,
    removals then sets. *)
Definition applyXAttrsChanges (xattrs : option XAttrs)
    (changes : option XAttrsChanges) : option XAttrs :=
  match changes with
  | None => xattrs
  | Some ch =>
      let kept :=
        List.filter (fun kv => negb (bool_decide (kv.1 ∈ xa_remove ch)))
                    (default [] xattrs) in
      let untouched :=
        List.filter (fun kv => negb (bool_decide (kv.1 ∈ (xa_set ch).*1)))
                    kept in
      Some (untouched ++ xa_set ch)
  end.

(** Modelled from the spec: [get_params_for_update(changes?)] of
    node-in-fs.ts: the new version is the version plus one, the changes go
    into a copy of the extended attributes, the modification time is the
    time now; the node itself is not changed. *)
Definition getParamsForUpdate (changes : option XAttrsChanges)
    : M Ctx (CommonAttrs * option XAttrs * Z) :=
  gets (fun c =>
    let f := this c in
    (mkCommonAttrs (ctime (attrs f)) (now c),
     applyXAttrsChanges (xattrs f) changes,
     version f + 1)).

(** Modelled from the spec: [do_change] of node-in-fs.ts takes the change
    lock of the node, runs the change and releases the lock; with one
    caller at a time it is the change itself. *)
Definition doChange {A} (awaitPrevChange : bool) (change : M Ctx A)
    : M Ctx A :=
  change.

(** [get size()] *)
Definition size (f : t) : Z := fileSize f.

Definition versioned (ty : FSType) : bool :=
  bool_decide (ty = synced) || bool_decide (ty = local).

(** [readBytes]: the version is [undefined] on an unversioned storage. *)
Definition readBytes (start end_ : option Z)
    : M Ctx (option (list byte) * option Z) :=
  objSrc ← (c ← gets this; onStorage (Storage.getObj (Some (objId c))));
  ty ← gets (fun c => Storage.type (storage c));
  if versioned ty then
    let version := os_version objSrc in
    cached ← gets (fun c => FileNode.version (this c));
    if bool_decide (cached < version) then
      r ← liftR (FilePersistance.readBytes objSrc start end_ true);
      match FilePersistance.fileAttrs r with
      | Some fileAttrs =>
          _ ← setUpdatedState version fileAttrs;
          mret (FilePersistance.bytes r, Some version)
      | None => throw (JsError "TypeError: fileAttrs is undefined")
      end
    else
      r ← liftR (FilePersistance.readBytes objSrc start end_ false);
      mret (FilePersistance.bytes r, Some version)
  else
    r ← liftR (FilePersistance.readBytes objSrc start end_ false);
    mret (FilePersistance.bytes r, None).

(** [savingObjInsideChange]; it runs on when the store has drawn the
    object from [encSub], and by then the promise [newSize] holds a
    value. *)
Definition savingObjInsideChange (attrs : CommonAttrs) (newSize : Z)
    (xattrs : option XAttrs) (newVersion : Z) (encSub : Subscribe)
    : M Ctx unit :=
  id ← gets (fun c => objId (this c));
  _ ← onStorage (Storage.saveObj (Some id) newVersion encSub);
  let size := newSize in
  _ ← setUpdatedState newVersion (mkFileAttrs attrs size xattrs);
  path ← gets (fun c => name (this c));
  broadcastEvent (mkEvent (FileChange newVersion) path).

(** [save] *)
Definition save (bytes : list byte) (changes : option XAttrsChanges)
    : M Ctx Z :=
  doChange false (
    '(attrs, xattrs, newVersion) ← getParamsForUpdate changes;
    let encSub := FilePersistance.saveBytes bytes newVersion attrs xattrs in
    let newSize := Z.of_nat (length bytes) in
    _ ← savingObjInsideChange attrs newSize xattrs newVersion encSub;
    gets (fun c => version (this c))).

(** [startMakingSinkInsideChange]; of what it returns, the sink stands
    for [sinkPromise] and [sub] both. *)
Definition startMakingSinkInsideChange (truncate : option bool)
    (currentVersion : option Z) (changes : option XAttrsChanges)
    : M Ctx (CommonAttrs * option XAttrs * Z * NodePersistance.FileByteSink) :=
  f ← gets this;
  if match currentVersion with
     | Some cv => bool_decide (version f ≠ cv)
     | None => false
     end
  then throw (FileExn (makeVersionMismatchExc (name f)))
  else
    '(attrs, xattrs, newVersion) ← getParamsForUpdate changes;
    base ← (if default false truncate || bool_decide (version f = 0)
            then mret None
            else src ← onStorage (Storage.getObj (Some (objId f)));
                 mret (Some src));
    mret (attrs, xattrs, newVersion,
          NodePersistance.writableSink newVersion attrs xattrs base).

(** What a call of [writeSink] leaves to the caller: the sink, and the
    closure of the [done] that [writeSink] puts on it: the parameters of
    the new version, the deferred [newSize] and the promise [completion]
    of the change, each [None] while it is pending. *)
Record Writing : Type := mkWriting {
  sink : NodePersistance.FileByteSink;
  w_attrs : CommonAttrs;
  w_xattrs : option XAttrs;
  w_newVersion : Z;
  newSize : option Z;
  completion : option (Result unit)
}.

(** [writeSink], up to its [return]: the change that [doChange] runs has
    come as far as the sink, or has failed, which the race throws on. *)
Definition writeSink (truncate : option bool) (currentVersion : option Z)
    (changes : option XAttrsChanges) : M Ctx (Writing * Z) :=
  '(attrs, xattrs, newVersion, snk) ←
    doChange false
      (startMakingSinkInsideChange truncate currentVersion changes);
  let version := newVersion in
  mret (mkWriting snk attrs xattrs newVersion None None, version).

(** A write of the caller into the sink. *)
Definition onSink (op : NodePersistance.FileByteSink ->
                        NodePersistance.FileByteSink) (w : Writing)
    : Writing :=
  mkWriting (op (sink w)) (w_attrs w) (w_xattrs w) (w_newVersion w)
            (newSize w) (completion w).

(** [newSize.resolve(size)]: a deferred takes the first value only. *)
Definition resolveNewSize (size : Z) (w : Writing) : Writing :=
  mkWriting (sink w) (w_attrs w) (w_xattrs w) (w_newVersion w)
            (match newSize w with
             | None => Some size
             | Some s => Some s
             end)
            (completion w).

(** The rest of the change of [writeSink], which goes on when the sink is
    done: [savingObjInsideChange], then the settling of [completion] and,
    by [completion.catch(originalDone)], a call of the sink's own [done]
    with the error when the change has failed. *)
Definition runCompletion (wc : Writing * Ctx) : Writing * Ctx :=
  let '(w, c) := wc in
  match completion w,
        NodePersistance.subOfSink (w_attrs w) (w_xattrs w) (sink w),
        newSize w with
  | None, Some sub, Some size =>
      let '(r, c') :=
        savingObjInsideChange (w_attrs w) size (w_xattrs w)
                              (w_newVersion w) sub c in
      let snk :=
        match r with
        | Throw e => NodePersistance.done (Some e) (sink w)
        | Ok _ => sink w
        end in
      (mkWriting snk (w_attrs w) (w_xattrs w) (w_newVersion w)
                 (newSize w) (Some r), c')
  | _, _, _ => (w, c)
  end.

(** The writes of a caller into the sink. *)
Inductive SinkWrite : Type :=
| Splice (pos del : Z) (bytes : list byte)
| Truncate (size : Z).

Definition write (wr : SinkWrite) (w : Writing) : Writing :=
  match wr with
  | Splice pos del bytes => onSink (NodePersistance.splice pos del bytes) w
  | Truncate size => onSink (NodePersistance.truncate size) w
  end.

(** [sink.done], as [writeSink] replaces it. *)
Definition done (err : option Exn) : M (Writing * Ctx) unit :=
  fun '(w, c) =>
    match err with
    | Some e =>
        let w1 := resolveNewSize 0 w in
        let w2 := onSink (NodePersistance.done (Some e)) w1 in
        (* [await completion.catch(noop)] *)
        (Ok tt, runCompletion (w2, c))
    | None =>
        let size := NodePersistance.getSize (sink w) in
        let w1 := resolveNewSize size w in
        let w2 := onSink (NodePersistance.done None) w1 in
        let '(w3, c3) := runCompletion (w2, c) in
        (* [await completion] *)
        (match completion w3 with
         | Some (Throw e) => Throw e
         | _ => Ok tt
         end, (w3, c3))
    end.

End FileNode.


(** ** The nodes of a filesystem *)

(** [NodeType] of common.ts *)
Inductive NodeType : Type := nt_file | nt_folder | nt_link.

#[global] Instance NodeType_eq_dec : EqDecision NodeType.
Proof. solve_decision. Defined.

Module FolderNode.

(** Modelled from the spec: folder-node.ts is not among the sources. An
    entry of a folder's table: child name to [{objId, key, kind}]; the
    key has no part in the embedding, where objects stand decrypted. *)
Record NodeInfo : Type := mkNodeInfo {
  ni_name : string;
  ni_objId : string;
  ni_type : NodeType
}.

(** Modelled from the spec: the fields of a [FolderNode]: those of every
    node, and the table of children, in the order in which they came. *)
Record t : Type := mk {
  name : string;
  objId : ObjId;
  version : Z;
  parentId : option ObjId;
  nodes : list NodeInfo
}.

Definition lookupEntry (d : t) (name : string) : option NodeInfo :=
  List.find (fun info => bool_decide (ni_name info = name)) (nodes d).

Definition addEntry (info : NodeInfo) (d : t) : t :=
  mk (name d) (objId d) (version d) (parentId d) (nodes d ++ [ info ]).

(** [list().lst] *)
Definition listing (d : t) : list ListingEntry :=
  map (fun info =>
         mkListingEntry (ni_name info)
           (bool_decide (ni_type info = nt_file))
           (bool_decide (ni_type info = nt_folder))
           (bool_decide (ni_type info = nt_link)))
      (nodes d).

End FolderNode.

(** What the methods of the filesystem work on: the storage, the nodes
    that are loaded, each under its object id, which stands for the
    reference to the node, and the time that [Date.now()] reads. *)
Record World : Type := mkWorld {
  storage : Storage.t;
  folders : gmap ObjId FolderNode.t;
  files : gmap string FileNode.t;
  now : Z
}.

Definition onStorage {A} (m : M Storage.t A) : M World A :=
  fun w =>
    let '(r, st) := m (storage w) in
    (r, mkWorld st (folders w) (files w) (now w)).

(** A reference to a node that is not among the loaded nodes: there is no
    such reference in the source, where a reference is the object. *)
Definition exc_dangling : Exn := JsError "no node behind the reference".

(** A method of the file node behind [file]. *)
Definition onFile {A} (file : string) (m : M FileNode.Ctx A) : M World A :=
  fun w =>
    match files w !! file with
    | Some f =>
        let '(r, c) := m (FileNode.mkCtx f (storage w) (now w)) in
        (r, mkWorld (FileNode.storage c) (folders w)
                    (<[ file := FileNode.this c ]> (files w)) (now w))
    | None => (Throw exc_dangling, w)
    end.

Definition theFolder (folder : ObjId) : M World FolderNode.t :=
  fun w =>
    match folders w !! folder with
    | Some d => (Ok d, w)
    | None => (Throw exc_dangling, w)
    end.

(** The folder node behind [folder] becomes [d]. *)
Definition setFolder (folder : ObjId) (d : FolderNode.t) : M World unit :=
  modify (fun w =>
    mkWorld (storage w) (<[ folder := d ]> (folders w)) (files w) (now w)).

Definition putFile (f : FileNode.t) : M World unit :=
  modify (fun w =>
    mkWorld (storage w) (folders w)
            (<[ FileNode.objId f := f ]> (files w)) (now w)).

(** A node that a folder gives out: the reference with the type of the
    node. *)
Record NodeRef : Type := mkNodeRef {
  ref_type : NodeType;
  ref_objId : ObjId
}.

Module FolderOps.

Import FolderNode.

Definition exc (k : CodeKey) (path : string) : Exn :=
  FileExn (makeFileException (Some (Code k)) path None).

(** Modelled from the spec: a new folder under this one: a fresh object
    id, an empty table, and the entry in the table of this folder. The
    objects of folders in the store are left out: no property below reads
    them. *)
Definition createFolder (this : ObjId) (name : string) : M World ObjId :=
  d ← theFolder this;
  id ← onStorage Storage.generateNewObjId;
  _ ← setFolder (Some id) (mk name (Some id) 0 (Some this) []);
  _ ← setFolder this (addEntry (mkNodeInfo name id nt_folder) d);
  mret (Some id).

(** Modelled from the spec: [get_folder_in_sub_tree(pathParts, create?,
    exclusive?)]: it walks [pathParts] from this folder; the empty path
    returns this folder. On a missing segment: with [create] the folder is
    created, without it the walk fails with not-found. With [create] and
    [exclusive], a leaf that exists fails with already-exists. A segment
    that exists but is not a folder fails with not-directory. *)
Fixpoint getFolderInThisSubTree (this : ObjId) (pathParts : list string)
    (create exclusive : bool) : M World ObjId :=
  match pathParts with
  | [] => mret this
  | name :: rest =>
      d ← theFolder this;
      match lookupEntry d name with
      | Some info =>
          if bool_decide (ni_type info = nt_folder) then
            if create && exclusive && bool_decide (rest = []) then
              throw (exc k_alreadyExists name)
            else
              getFolderInThisSubTree (Some (ni_objId info)) rest
                                     create exclusive
          else throw (exc k_notDirectory name)
      | None =>
          if create then
            child ← createFolder this name;
            getFolderInThisSubTree child rest create exclusive
          else throw (exc k_notFound name)
      end
  end.

(** The file node of an entry: the loaded one, or else the node that
    [FileNode.makeForExisting] makes from the object in the store. *)
Definition loadFile (this : ObjId) (info : NodeInfo) : M World string :=
  loaded ← gets (fun w => files w !! ni_objId info);
  match loaded with
  | Some _ => mret (ni_objId info)
  | None =>
      f ← onStorage (FileNode.makeForExisting this (ni_name info)
                                              (ni_objId info));
      _ ← putFile f;
      mret (ni_objId info)
  end.

(** Modelled from the spec: [get_file(name, null_on_missing?)]: the
    loaded file, or null if allowed, else it fails with not-found or
    not-file. The name is [undefined] when the path has no parts. *)
Definition getFile (this : ObjId) (name : option string)
    (nullOnMissing : bool) : M World (option string) :=
  d ← theFolder this;
  match name ≫= lookupEntry d with
  | Some info =>
      if bool_decide (ni_type info = nt_file) then
        file ← loadFile this info;
        mret (Some file)
      else throw (exc k_notFile (ni_name info))
  | None =>
      if nullOnMissing then mret None
      else throw (exc k_notFound (default "" name))
  end.

(** Modelled from the spec: [create_file(name, exclusive)]: a new file
    node with a fresh object id, made by [FileNode.makeForNew] with this
    folder as the parent, and its entry in the table of this folder. *)
Definition createFile (this : ObjId) (name : option string)
    (exclusive : bool) : M World string :=
  d ← theFolder this;
  match name ≫= lookupEntry d with
  | Some info => throw (exc k_alreadyExists (ni_name info))
  | None =>
      t ← gets now;
      f ← onStorage (FileNode.makeForNew t this name);
      _ ← putFile f;
      _ ← setFolder this (addEntry (mkNodeInfo (FileNode.name f)
                                               (FileNode.objId f) nt_file) d);
      mret (FileNode.objId f)
  end.

(** Modelled from the spec: [get_node(name)], as [get_file] for a node of
    any type. *)
Definition getNode (this : ObjId) (name : string) : M World NodeRef :=
  d ← theFolder this;
  match lookupEntry d name with
  | Some info =>
      match ni_type info with
      | nt_file =>
          file ← loadFile this info;
          mret (mkNodeRef nt_file (Some file))
      | ty => mret (mkNodeRef ty (Some (ni_objId info)))
      end
  | None => throw (exc k_notFound name)
  end.

(** Modelled from the spec: [get_folder(name)], as [get_file] for a
    folder. *)
Definition getFolder (this : ObjId) (name : string) : M World ObjId :=
  d ← theFolder this;
  match lookupEntry d name with
  | Some info =>
      if bool_decide (ni_type info = nt_folder)
      then mret (Some (ni_objId info))
      else throw (exc k_notDirectory name)
  | None => throw (exc k_notFound name)
  end.

(** Modelled from the spec: [list()], the entries with the version. *)
Definition list (this : ObjId) : M World (list ListingEntry * Z) :=
  d ← theFolder this;
  mret (listing d, version d).

Definition isEmpty (this : ObjId) : M World bool :=
  d ← theFolder this;
  mret (bool_decide (nodes d = [])).

(** Modelled from the spec: the root folder of a new filesystem: no name,
    the [null] object id, no parent, no entries. *)
Definition newRoot : FolderNode.t := mk "" None 0 None [].

End FolderOps.

(** ** The filesystem: the classes [V] and [XspFS] *)

(** [VersionedFileFlags]; [{}] is [noFlags]. *)
Record FileFlags : Type := mkFlags {
  create : option bool;
  exclusive : option bool;
  truncate : option bool;
  currentVersion : option Z
}.

Definition WRITE_NONEXCL_FLAGS : FileFlags :=
  mkFlags (Some true) (Some false) (Some true) None.

Definition noFlags : FileFlags := mkFlags None None None None.

(** The truth of an optional boolean. *)
Definition truthyFlag (b : option bool) : bool := default false b.

(** [setExcPath(path)], as the function from the exception caught to the
    exception thrown. *)
Definition setExcPath (path : string) (exc : Exn) : Exn :=
  match exc with
  | FileExn e =>
      if notFound e || notDirectory e || alreadyExists e || notFile e
      then FileExn (setPath path e)
      else exc
  | JsError _ => exc
  end.

(** [m.catch(setExcPath(path))] *)
Definition orSetExcPath {S A} (path : string) (m : M S A) : M S A :=
  catch m (fun exc => throw (setExcPath path exc)).

Module V.

(** The reference to the root [FolderNode], or [undefined]. *)
Record t : Type := mk {
  rootNode : option ObjId
}.

Definition close (self : t) : t := mk None.

Definition getRootIfNotClosed (self : t) (excPath : string) : Result ObjId :=
  match rootNode self with
  | None =>
      Throw (FileExn (makeFileException (Code_prop "storageClosed")
                                        excPath None))
  | Some root => Ok root
  end.

Definition getOrCreateFile (self : t) (path : string) (flags : FileFlags)
    : M World string :=
  let '(folderPath, fileName) := split path in
  root ← liftR (getRootIfNotClosed self path);
  folder ← orSetExcPath path
    (FolderOps.getFolderInThisSubTree root folderPath
       (truthyFlag (create flags)) false);
  let nullOnMissing := create flags in
  file ← orSetExcPath path
    (FolderOps.getFile folder fileName (truthyFlag nullOnMissing));
  match file with
  | Some f =>
      if truthyFlag (exclusive flags) then
        throw (FileExn (makeFileException (Some (Code k_alreadyExists))
                                          path None))
      else mret f
  | None =>
      FolderOps.createFile folder fileName
                           (negb (negb (truthyFlag (exclusive flags))))
  end.

Definition get (self : t) (path : string) : M World NodeRef :=
  let '(folderPath, fileName) := split path in
  root ← liftR (getRootIfNotClosed self path);
  folder ← orSetExcPath path
    (FolderOps.getFolderInThisSubTree root folderPath false false);
  match fileName with
  | None => mret (mkNodeRef nt_folder root)
  | Some name => orSetExcPath path (FolderOps.getNode folder name)
  end.

Definition listFolder (self : t) (path : string)
    : M World (list ListingEntry * Z) :=
  root ← liftR (getRootIfNotClosed self path);
  folder ← orSetExcPath path
    (FolderOps.getFolderInThisSubTree root (splitPathIntoParts path)
                                      false false);
  FolderOps.list folder.

Definition writeBytes (self : t) (path : string) (bytes : list byte)
    (flags : option FileFlags) : M World Z :=
  let flags := default WRITE_NONEXCL_FLAGS flags in
  f ← getOrCreateFile self path flags;
  onFile f (FileNode.save bytes None).

Definition readBytes (self : t) (path : string) (start end_ : option Z)
    : M World (option (list byte) * option Z) :=
  file ← getOrCreateFile self path noFlags;
  onFile file (FileNode.readBytes start end_).

(** [getByteSink]: the sink comes with the reference to its file. *)
Definition getByteSink (self : t) (path : string) (flags : option FileFlags)
    : M World (string * FileNode.Writing * Z) :=
  let flags := default WRITE_NONEXCL_FLAGS flags in
  f ← getOrCreateFile self path flags;
  '(sink, version) ← onFile f
    (FileNode.writeSink (truncate flags) (currentVersion flags) None);
  mret (f, sink, version).

End V.

Module XspFS.

(** The fields of an [XspFS]: [store] is the reference to the storage, or
    [undefined]; [fsObs_done] tells that the broadcast of the filesystem
    is done. *)
Record t : Type := mk {
  type : FSType;
  v : V.t;
  store : option unit;
  fsObs_done : bool;
  writable : bool;
  name : string
}.

(** A filesystem object and the world it lives in. *)
Record Sys : Type := mkSys {
  fs : t;
  world : World
}.

Definition onWorld {A} (m : M World A) : M Sys A :=
  fun s =>
    let '(r, w) := m (world s) in
    (r, mkSys (fs s) w).

(** [this.storage()] *)
Definition storage_ : M Sys unit :=
  self ← gets fs;
  match store self with
  | None =>
      throw (FileExn (makeFileException (Code_prop "storageClosed")
                                        (name self) None))
  | Some st => mret st
  end.

(** [makeNewRoot]: the constructor on the root that [FolderNode.newRoot]
    makes in the storage. *)
Definition makeNewRoot (st : Storage.t) (now : Z) : Sys :=
  mkSys (mk (Storage.type st) (V.mk (Some None)) (Some tt) false true "")
        (mkWorld st {[ None := FolderOps.newRoot ]} ∅ now).

(** [close]: neither the storage nor a node is touched. *)
Definition close : M Sys unit :=
  modify (fun s =>
    let self := fs s in
    mkSys (mk (type self) (V.close (v self)) None true (writable self)
              (name self))
          (world s)).

(** [this.v.getRootIfNotClosed(path)] *)
Definition rootIfNotClosed (path : string) : M Sys ObjId :=
  self ← gets fs;
  liftR (V.getRootIfNotClosed (v self) path).

(** A method of [this.v]. *)
Definition onV {A} (m : V.t -> M World A) : M Sys A :=
  self ← gets fs;
  onWorld (m (v self)).

Definition makeFolder (path : string) (exclusive : option bool) : M Sys unit :=
  let exclusive := default false exclusive in
  let folderPath := splitPathIntoParts path in
  root ← rootIfNotClosed path;
  _ ← orSetExcPath path
    (onWorld (FolderOps.getFolderInThisSubTree root folderPath true
                                               exclusive));
  mret tt.

Section OverFolderNode.

(** The methods of [FolderNode] that remove and move children are not among
    the sources, and the filesystem only hands its arguments on to them. *)
Context (removeChild : ObjId -> NodeRef -> M World unit).
Context (hasChild : ObjId -> string -> bool -> M World bool).
Context (moveChildTo : ObjId -> string -> ObjId -> string -> M World unit).

Definition deleteFolder (path : string) (removeContent : option bool)
    : M Sys unit :=
  let removeContent := default false removeContent in
  let '(parentPath, folderName) := split path in
  root ← rootIfNotClosed path;
  parentFolder ← orSetExcPath (posix.join "/" parentPath)
    (onWorld (FolderOps.getFolderInThisSubTree root parentPath false false));
  match folderName with
  | None => throw (JsError "Cannot remove root folder")
  | Some folderName =>
      folder ← orSetExcPath path
        (onWorld (FolderOps.getFolder parentFolder folderName));
      empty ← onWorld (FolderOps.isEmpty folder);
      if negb removeContent && negb empty then
        throw (FileExn (makeFileException (Some (Code k_notEmpty)) path None))
      else
        onWorld (removeChild parentFolder (mkNodeRef nt_folder folder))
  end.

Definition deleteFile (path : string) : M Sys unit :=
  let '(folderPath, fileName) := split path in
  root ← rootIfNotClosed path;
  parentFolder ← orSetExcPath path
    (onWorld (FolderOps.getFolderInThisSubTree root folderPath false false));
  file ← orSetExcPath path
    (onWorld (FolderOps.getFile parentFolder fileName false));
  match file with
  | Some f => onWorld (removeChild parentFolder (mkNodeRef nt_file (Some f)))
  | None => throw (JsError "TypeError: file is undefined")
  end.

(** The path that [move] puts on an exception before it throws it on. *)
Definition moveExcPath (initPath newPath : string) (exc : Exn) : Exn :=
  match exc with
  | FileExn e =>
      if notFound e then FileExn (setPath initPath e)
      else if alreadyExists e then FileExn (setPath newPath e)
      else if notDirectory e then FileExn (setPath newPath e)
      else exc
  | JsError _ => exc
  end.

Definition move (initPath newPath : string) : M Sys unit :=
  let srcParts := splitPathIntoParts initPath in
  match last srcParts with
  | None =>
      throw (JsError "Bad initial path: it points to filesystem root")
  | Some initFName =>
      let srcFolderPath := removelast srcParts in
      let dstParts := splitPathIntoParts newPath in
      match last dstParts with
      | None =>
          throw (JsError "Bad new path: it points to filesystem root")
      | Some dstFName =>
          let dstFolderPath := removelast dstParts in
          root ← rootIfNotClosed initPath;
          catch
            (onWorld (
               srcFolder ← FolderOps.getFolderInThisSubTree
                             root srcFolderPath false false;
               _ ← hasChild srcFolder initFName true;
               dstFolder ← FolderOps.getFolderInThisSubTree
                             root dstFolderPath true false;
               moveChildTo srcFolder initFName dstFolder dstFName))
            (fun exc => throw (moveExcPath initPath newPath exc))
      end
  end.

End OverFolderNode.

Definition checkPresence (type : NodeType) (path : string)
    (throwIfMissing : bool) : M Sys bool :=
  node ← catch
    (node ← onV (fun v => V.get v path); mret (Some node))
    (fun exc =>
       if throwIfMissing then throw (setExcPath path exc)
       else mret None);
  match node with
  | None => mret false
  | Some node =>
      if bool_decide (ref_type node = type) then mret true
      else if throwIfMissing then
        let code :=
          match type with
          | nt_file => Code k_notFile
          | nt_folder => Code k_notDirectory
          | nt_link => Code k_notLink
          end in
        throw (FileExn (makeFileException (Some code) path None))
      else mret false
  end.

Definition checkFolderPresence (path : string) (throwIfMissing : option bool)
    : M Sys bool :=
  checkPresence nt_folder path (default false throwIfMissing).

Definition checkFilePresence (path : string) (throwIfMissing : option bool)
    : M Sys bool :=
  checkPresence nt_file path (default false throwIfMissing).

Definition checkLinkPresence (path : string) (throwIfMissing : option bool)
    : M Sys bool :=
  checkPresence nt_link path (default false throwIfMissing).

Definition listFolder (folder : string) : M Sys (list ListingEntry) :=
  '(lst, _) ← onV (fun v => V.listFolder v folder);
  mret lst.

Definition readBytes (path : string) (start end_ : option Z)
    : M Sys (option (list byte)) :=
  '(bytes, _) ← onV (fun v => V.readBytes v path start end_);
  mret bytes.

Definition writeBytes (path : string) (bytes : list byte)
    (flags : option FileFlags) : M Sys unit :=
  let flags := default WRITE_NONEXCL_FLAGS flags in
  _ ← onV (fun v => V.writeBytes v path bytes (Some flags));
  mret tt.

Definition getByteSink (path : string) (flags : option FileFlags)
    : M Sys (string * FileNode.Writing) :=
  let flags := default WRITE_NONEXCL_FLAGS flags in
  '(f, sink, _) ← onV (fun v => V.getByteSink v path (Some flags));
  mret (f, sink).

End XspFS.

(** ** Watching a tree: [ObjIdToPathMap] and [recursiveIdAndPathList] *)

(** Modelled from the spec: folder-node.ts is not among the sources. A
    [FolderNode], as far as [list()] and [getFolder(name)] show it to a
    walk of the tree: its object id and its entries, a folder entry with
    the node of the child folder, a file or link entry with the object id
    of the child. *)
Inductive Item (F : Type) : Type :=
| FileItem (name : string) (objId : string)
| LinkItem (name : string) (objId : string)
| FolderItem (name : string) (child : F).

Arguments FileItem {F} name objId.
Arguments LinkItem {F} name objId.
Arguments FolderItem {F} name child.

#[warnings="-register-all"]
Inductive FolderTree : Type :=
| mkFolderTree (objId : ObjId) (items : list (Item FolderTree)).

Definition tree_objId (folder : FolderTree) : ObjId :=
  match folder with mkFolderTree objId _ => objId end.

Definition tree_items (folder : FolderTree) : list (Item FolderTree) :=
  match folder with mkFolderTree _ items => items end.

(** [folder.list().lst] *)
Definition tree_list (folder : FolderTree) : list ListingEntry :=
  map (fun item =>
         match item with
         | FileItem name _ => mkListingEntry name true false false
         | LinkItem name _ => mkListingEntry name false false true
         | FolderItem name _ => mkListingEntry name false true false
         end)
      (tree_items folder).

(** [recursiveIdAndPathList]: the loop goes over the entries with their
    nodes at hand, [getFolder(item.name)] being the child of the entry. *)
Fixpoint recursiveIdAndPathList (folder : FolderTree) (path : string)
    : list (ObjId * string) :=
  match folder with
  | mkFolderTree objId items =>
      (objId, path) ::
      flat_map (fun item =>
                  match item with
                  | FileItem _ _ | LinkItem _ _ => []
                  | FolderItem name child =>
                      recursiveIdAndPathList child (path +:+ "/" +:+ name)
                  end)
               items
  end.

Module ObjIdToPathMap.

(** A key or a value that the code puts into the maps can be [undefined],
    by a non-null assertion on a field that is not there: [None]. *)
Definition Key : Type := option ObjId.

Record MoveInfo : Type := mkMoveInfo {
  newPath : option string;
  mi_objId : option ObjId
}.

(** The two maps; [Map] keeps its entries in the order in which their keys
    came. *)
Record t : Type := mk {
  map : list (Key * option string);
  moves : gmap Z MoveInfo
}.

Definition empty : t := mk [] ∅.

(** [Map.prototype.get]: [undefined] for no entry, and for an entry whose
    value is [undefined]. *)
Fixpoint map_get (m : list (Key * option string)) (k : Key) : option string :=
  match m with
  | [] => None
  | (k', v) :: rest => if decide (k' = k) then v else map_get rest k
  end.

(** [Map.prototype.set]: the value of a key that is there is replaced in
    its place, a new key comes last. *)
Fixpoint map_set (m : list (Key * option string)) (k : Key)
    (v : option string) : list (Key * option string) :=
  match m with
  | [] => [ (k, v) ]
  | (k', v') :: rest =>
      if decide (k' = k) then (k', v) :: rest
      else (k', v') :: map_set rest k v
  end.

(** [Map.prototype.delete] *)
Definition map_delete (m : list (Key * option string)) (k : Key)
    : list (Key * option string) :=
  List.filter (fun kv => negb (bool_decide (kv.1 = k))) m.

(** [findObjIdByPath] *)
Fixpoint findObjIdByPath_in (m : list (Key * option string)) (path : string)
    : Key :=
  match m with
  | [] => None
  | (objId, p) :: rest =>
      if decide (p = Some path) then objId else findObjIdByPath_in rest path
  end.

Definition findObjIdByPath (self : t) (path : string) : Key :=
  findObjIdByPath_in (map self) path.

(** [if (child)] on [ObjId|undefined]: [null] and [""] are falsy. *)
Definition truthyKey (k : Key) : bool :=
  match k with
  | Some (Some id) => negb (bool_decide (id = ""))
  | _ => false
  end.

(** [if (moveLabel)] on [number|undefined] *)
Definition truthyLabel (l : option Z) : option Z :=
  match l with
  | Some n => if bool_decide (n = 0) then None else Some n
  | None => None
  end.

Definition setMap (self : t) (k : Key) (v : option string) : t :=
  mk (map_set (map self) k v) (moves self).

(** [fillFromTree] *)
Definition fillFromTree (self : t) (root : FolderTree) : t :=
  foldl (fun self '(objId, path) => setMap self (Some objId) (Some path))
        self (recursiveIdAndPathList root ".").

(** [if (path)] on [string|undefined]: the path when it is truthy. *)
Definition truthyPath (p : option string) : option string :=
  match p with
  | Some str => if bool_decide (str = "") then None else Some str
  | None => None
  end.

(** [getPathCorrectingTreeMap]: the path returned, and the maps after. *)
Definition getPathCorrectingTreeMap (self : t) (nodeEvent : NodeEvent)
    : option string * t :=
  let ev := event nodeEvent in
  let objId : Key := Some (ne_objId nodeEvent) in
  match truthyPath (map_get (map self) objId) with
  | Some path =>
      (Some path,
       match body ev with
       | Removed => mk (map_delete (map self) objId) (moves self)
       | EntryRenaming oldName newName =>
           let child := findObjIdByPath self (path +:+ "/" +:+ oldName) in
           if truthyKey child
           then setMap self child (Some (path +:+ "/" +:+ newName))
           else self
       | EntryRemoval name moveLabel =>
           match truthyLabel moveLabel with
           | Some label =>
               let child := findObjIdByPath self (path +:+ "/" +:+ name) in
               if truthyKey child then
                 match moves self !! label with
                 | Some moveInfo =>
                     mk (map_set (map self) child (newPath moveInfo))
                        (delete label (moves self))
                 | None =>
                     mk (map self)
                        (<[ label := mkMoveInfo None child ]> (moves self))
                 end
               else self
           | None => self
           end
       | EntryAddition entry moveLabel =>
           let newPath := path +:+ "/" +:+ le_name entry in
           match truthyLabel moveLabel with
           | Some label =>
               match moves self !! label with
               | Some moveInfo =>
                   mk (map_set (map self) (mi_objId moveInfo) (Some newPath))
                      (delete label (moves self))
               | None =>
                   mk (map self)
                      (<[ label := mkMoveInfo (Some newPath) None ]>
                         (moves self))
               end
           | None => self
           end
       | FileChange _ | OtherEvent => self
       end)
  | None =>
      match truthyPath (map_get (map self) (parentObjId nodeEvent)) with
      | Some parentPath =>
          if isRemoved (body ev) then (None, self)
          else
            let path := parentPath +:+ "/" +:+ e_path ev in
            (Some path, setMap self objId (Some path))
      | None => (None, self)
      end
  end.

End ObjIdToPathMap.


(** ** The vocabulary of the properties *)

(** The character [c] occurs in [s]. *)
Fixpoint occurs (c : ascii) (s : string) : bool :=
  match s with
  | EmptyString => false
  | String c' s' => if decide (c' = c) then true else occurs c s'
  end.

(** What the specification says of path parsing: split on ['/'], drop the
    empty segments, keep every other segment as it is. *)
Definition parts_as_specified (path : string) : list string :=
  List.filter truthy (posix.splitOn "/" path).

(** A part that [splitPathIntoParts] can return. *)
Definition properPart (part : string) : Prop :=
  part <> "" /\ part <> "." /\ part <> ".." /\ occurs "/" part = false.

(** The store of the context keeps [objSrc] for the node. *)
Definition holdsObj (c : FileNode.Ctx) (objSrc : ObjSource) : Prop :=
  Storage.objs (FileNode.storage c) !! FileNode.objId (FileNode.this c)
  = Some objSrc.

(** A bound that is given and negative. *)
Definition negativeBound (x : option Z) : Prop :=
  exists n, x = Some n /\ n < 0.

(** The error that [FilePersistance.readBytes] throws for the bounds. *)
Definition badBoundError (start end_ : option Z) : Exn :=
  match start, end_ with
  | Some n, _ =>
      if bool_decide (n < 0)
      then JsError ("Parameter start has bad value: " +:+ pretty n)
      else JsError ("Parameter end has bad value: "
                    +:+ pretty (default 0 end_))
  | None, _ =>
      JsError ("Parameter end has bad value: " +:+ pretty (default 0 end_))
  end.

(** The context after [setUpdatedState] with the version and attributes of
    [objSrc], which a read does when the storage has versions and the
    version of the node is behind that of the store. *)
Definition refreshed (c : FileNode.Ctx) (objSrc : ObjSource) : FileNode.Ctx :=
  let f := FileNode.this c in
  if FileNode.versioned (Storage.type (FileNode.storage c))
     && bool_decide (FileNode.version f < os_version objSrc)
  then
    FileNode.mkCtx
      (FileNode.mk (FileNode.name f) (FileNode.objId f) (os_version objSrc)
                   (FileNode.parentId f) (p_attrs (os_payload objSrc))
                   (p_xattrs (os_payload objSrc))
                   (NodePersistance.size (os_payload objSrc))
                   (FileNode.events f))
      (FileNode.storage c) (FileNode.now c)
  else c.

(** The version that a read returns: that of the object in the store, and
    [undefined] on a storage without versions. *)
Definition versionRead (c : FileNode.Ctx) (objSrc : ObjSource) : option Z :=
  if FileNode.versioned (Storage.type (FileNode.storage c))
  then Some (os_version objSrc) else None.

(** A file of size 0 in a local storage, its node up to date. *)
Definition emptyObj : ObjSource :=
  mkObjSource 1 (mkPayload (mkCommonAttrs 0 0) None []).

Definition emptyFileCtx : FileNode.Ctx :=
  FileNode.mkCtx
    (FileNode.mk "f" (Storage.newId 1) 1 (Some (Storage.newId 0))
                 (mkCommonAttrs 0 0) None 0 [])
    (Storage.mk local {[ Storage.newId 1 := emptyObj ]} None 2 false)
    0.

(** The writing that [writeSink] with [truncate] starts on the empty
    file. *)
Definition emptyFileWriting : FileNode.Writing :=
  FileNode.mkWriting (NodePersistance.mkSink [] []) (mkCommonAttrs 0 0)
                     None 2 None None.

(** The folder with object id [id] is in the tree of [folder], which is
    at [path], at the path [q]. *)
Inductive folderAt : FolderTree -> string -> ObjId -> string -> Prop :=
| folderAt_here (folder : FolderTree) (path : string) :
    folderAt folder path (tree_objId folder) path
| folderAt_below (objId : ObjId) (items : list (Item FolderTree))
    (name : string) (child : FolderTree) (path : string)
    (id : ObjId) (q : string) :
    In (FolderItem name child) items ->
    folderAt child (path +:+ "/" +:+ name) id q ->
    folderAt (mkFolderTree objId items) path id q.

(** The file or link with object id [id] is a child, at the path [q], of
    a folder in the tree of [folder], which is at [path]. *)
Inductive leafAt : FolderTree -> string -> string -> string -> Prop :=
| leafAt_file (objId : ObjId) (items : list (Item FolderTree))
    (name id : string) (path : string) :
    In (FileItem name id) items ->
    leafAt (mkFolderTree objId items) path id (path +:+ "/" +:+ name)
| leafAt_link (objId : ObjId) (items : list (Item FolderTree))
    (name id : string) (path : string) :
    In (LinkItem name id) items ->
    leafAt (mkFolderTree objId items) path id (path +:+ "/" +:+ name)
| leafAt_below (objId : ObjId) (items : list (Item FolderTree))
    (name : string) (child : FolderTree) (path : string)
    (id : string) (q : string) :
    In (FolderItem name child) items ->
    leafAt child (path +:+ "/" +:+ name) id q ->
    leafAt (mkFolderTree objId items) path id q.

(** The number of folders in a tree, its root counted. *)
Fixpoint countFolders (folder : FolderTree) : nat :=
  match folder with
  | mkFolderTree _ items =>
      S (list_sum (map (fun item =>
                          match item with
                          | FolderItem _ child => countFolders child
                          | _ => 0%nat
                          end) items))
  end.

(** A watched tree: a file [f] and a folder [x] in the root, a file [f]
    and a link [l] in [x], and an empty folder [y] in the root. *)
Definition watchedTree : FolderTree :=
  mkFolderTree None
    [ FileItem "f" "id-1";
      FolderItem "x" (mkFolderTree (Some "id-2")
                        [ FileItem "f" "id-3"; LinkItem "l" "id-4" ]);
      FolderItem "y" (mkFolderTree (Some "id-5") []) ].

Definition watchedMap : ObjIdToPathMap.t :=
  ObjIdToPathMap.fillFromTree ObjIdToPathMap.empty watchedTree.

(** The pair of events of a move of the entry [name] of the folder
    [srcId] to the entry [newName] of the folder [dstId]. *)
Definition removalEvent (srcId : ObjId) (name : string) (label : Z)
    (srcName : string) (srcParent : option ObjId) : NodeEvent :=
  mkNodeEvent (mkEvent (EntryRemoval name (Some label)) srcName)
              srcId srcParent.

Definition additionEvent (dstId : ObjId) (entry : ListingEntry) (label : Z)
    (dstName : string) (dstParent : option ObjId) : NodeEvent :=
  mkNodeEvent (mkEvent (EntryAddition entry (Some label)) dstName)
              dstId dstParent.

(** The maps after the events of a list, in their order. *)
Definition afterEvents (self : ObjIdToPathMap.t) (evs : list NodeEvent)
    : ObjIdToPathMap.t :=
  foldl (fun self ev => (ObjIdToPathMap.getPathCorrectingTreeMap self ev).2)
        self evs.

(** The map has the object [objId] at the path [p]. *)
Definition mapsTo (self : ObjIdToPathMap.t) (objId : ObjId) (p : string)
    : Prop :=
  ObjIdToPathMap.map_get (ObjIdToPathMap.map self) (Some objId) = Some p.

(** The move of the file [f] of the folder [x] of [watchedTree] to the
    entry [g] of the folder [y], under the label 7. *)
Definition moveRemoval : NodeEvent :=
  removalEvent (Some "id-2") "f" 7 "x" (Some None).

Definition moveAddition : NodeEvent :=
  additionEvent (Some "id-5") (mkListingEntry "g" true false false) 7
                "y" (Some None).

(** A change of the file [f] of the folder [x]. *)
Definition fileChanged : NodeEvent :=
  mkNodeEvent (mkEvent (FileChange 2) "f") (Some "id-3") (Some (Some "id-2")).

(** The exception of a closed filesystem for [path]. *)
Definition closedExc (path : string) : Exn :=
  FileExn (makeFileException (Code_prop "storageClosed") path None).

(** The state after [close()]. *)
Definition closed (s : XspFS.Sys) : XspFS.Sys := (XspFS.close s).2.

(** A new filesystem in an empty local storage. *)
Definition newStorage : Storage.t := Storage.mk local ∅ None 0 false.

Definition newSys : XspFS.Sys := XspFS.makeNewRoot newStorage 100.

(** The folders of [w] are in [w'], each with the entries it had. *)
Definition extends (w w' : World) : Prop :=
  forall id d,
    folders w !! id = Some d ->
    exists d',
      folders w' !! id = Some d' /\
      forall name info,
        FolderNode.lookupEntry d name = Some info ->
        FolderNode.lookupEntry d' name = Some info.

(** The number that a character stands for as a digit of the base 64,
    and the number that a string of such digits, the lowest first, stands
    for. *)
Fixpoint indexOf (c : ascii) (l : list ascii) : nat :=
  match l with
  | [] => O
  | c' :: rest => if decide (c' = c) then O else S (indexOf c rest)
  end.

Definition b64value (c : ascii) : N :=
  N.of_nat (indexOf c (list_ascii_of_string Storage.base64url)).

Fixpoint digitsValue (s : string) : N :=
  match s with
  | EmptyString => 0%N
  | String c rest => (b64value c + 64 * digitsValue rest)%N
  end.

(** The storage of [w] has generated the object id [id]. *)
Definition generatedId (w : World) (id : string) : Prop :=
  exists k, id = Storage.newId k /\ (k < Storage.generated (storage w))%N.

(** The folders other than the root have object ids that the storage
    generated. *)
Definition wfFolders (w : World) : Prop :=
  forall id, is_Some (folders w !! Some id) -> generatedId w id.

(** What the methods that create nodes leave as it was. *)
Definition sameBase (w w' : World) : Prop :=
  now w' = now w /\
  Storage.type (storage w') = Storage.type (storage w) /\
  (Storage.generated (storage w) <= Storage.generated (storage w'))%N.

(** A new file in a folder other than the root. *)
Definition withNewFile (w : World) (fid name : string) (d : FolderNode.t)
    : World :=
  let id := Storage.newId (Storage.generated (storage w)) in
  mkWorld
    (Storage.mk (Storage.type (storage w)) (Storage.objs (storage w))
                (Storage.rootObj (storage w))
                (N.succ (Storage.generated (storage w)))
                (Storage.closed (storage w)))
    (<[ Some fid :=
          FolderNode.addEntry (FolderNode.mkNodeInfo name id nt_file) d ]>
       (folders w))
    (<[ id := FileNode.mk name id 0 (Some fid)
                          (mkCommonAttrs (now w) (now w)) None 0 [] ]>
       (files w))
    (now w).

(** The bytes that a read of a whole file returns: [undefined] for a file
    with no bytes. *)
Definition bytesRead (bytes : list byte) : option (list byte) :=
  match bytes with
  | [] => None
  | _ => Some bytes
  end.

(** The world after the first save of the new file [f], of the given
    name and parent, with the bytes [bytes]. *)
Definition withSavedFile (w : World) (f name fid : string) (t : Z)
    (bytes : list byte) : World :=
  mkWorld
    (Storage.mk (Storage.type (storage w))
       (<[ f := mkObjSource 1 (mkPayload (mkCommonAttrs t (now w)) None bytes) ]>
          (Storage.objs (storage w)))
       (Storage.rootObj (storage w)) (Storage.generated (storage w))
       (Storage.closed (storage w)))
    (folders w)
    (<[ f := FileNode.mk name f 1 (Some fid) (mkCommonAttrs t (now w)) None
                         (Z.of_nat (length bytes))
                         [ mkEvent (FileChange 1) name ] ]>
       (files w))
    (now w).

(** The bytes of ["he"]. *)
Definition someBytes : list byte := [ Byte.x68; Byte.x65 ].

(** ** More of the sources *)

(** [String.prototype.substring(start)]: a negative start is 0, a start
    beyond the end gives the empty string. *)
Fixpoint dropChars (n : nat) (s : string) : string :=
  match n, s with
  | O, _ => s
  | S n', String _ s' => dropChars n' s'
  | S _, EmptyString => EmptyString
  end.

Definition substring (start : Z) (s : string) : string :=
  dropChars (Z.to_nat start) s.

(** [maskPathInExc] of lib-common/exceptions/file.ts, on what can be
    thrown: a plain [Error] has no [runtimeException]. *)
Definition maskPathInExc (pathPrefixMaskLen : Z) (exc : Exn) : Exn :=
  match exc with
  | FileExn e =>
      if negb (runtimeException e) || falsy (exc_code e) then exc
      else FileExn (setPath (substring pathPrefixMaskLen (exc_path e)) e)
  | JsError _ => exc
  end.

(** [LinkParameters], without the [params] of the target, which
    [ensureLinkingAllowedTo] does not read. *)
Record LinkParameters : Type := mkLinkParameters {
  storageType : FSType;
  lp_readonly : option bool;
  lp_isFile : option bool;
  lp_isFolder : option bool
}.

Definition FSType_name (ty : FSType) : string :=
  match ty with
  | local => "local"
  | synced => "synced"
  | share => "share"
  end.

(** [XspFS.ensureLinkingAllowedTo] *)
Definition ensureLinkingAllowedTo (params : LinkParameters)
    : M XspFS.Sys unit :=
  _ ← XspFS.storage_;
  ty ← gets (fun s => Storage.type (storage (XspFS.world s)));
  let refuse : M XspFS.Sys unit :=
    throw (JsError ("Cannot create link to "
                    +:+ FSType_name (storageType params) +:+ " from "
                    +:+ FSType_name ty +:+ " storage.")) in
  match ty with
  | local => mret tt
  | synced =>
      if bool_decide (storageType params = share)
         || bool_decide (storageType params = synced)
      then mret tt else refuse
  | share =>
      if bool_decide (storageType params = share) then mret tt else refuse
  end.

(** [FileLinkParams] of file-node.ts, without the key of the file: keys
    have no part in the embedding. *)
Record FileLinkParams : Type := mkFileLinkParams {
  flp_fileName : option string;
  flp_objId : string
}.

(** [FileNode.getParamsForLink]: the parameters of the link, and the
    [params] in them. *)
Definition getParamsForLink : M FileNode.Ctx (LinkParameters * FileLinkParams) :=
  ty ← gets (fun c => Storage.type (FileNode.storage c));
  if bool_decide (ty ≠ synced) && bool_decide (ty ≠ local) then
    throw (JsError ("Creating link parameters to object in "
                    +:+ FSType_name ty
                    +:+ " file system, is not implemented."))
  else
    id ← gets (fun c => FileNode.objId (FileNode.this c));
    let params := mkFileLinkParams None id in
    mret (mkLinkParameters ty None (Some true) None, params).

(** ** The other methods of the filesystem *)

(** Modelled from the spec: file.ts is not among the sources. A file
    object, as what [FileObject.makeExisting] and
    [FileObject.makeForNotExisiting] make it from: the node and whether it
    is writable, or the name and the function that makes or gets the
    node. *)
Inductive FileObject : Type :=
| makeExisting (node : string) (writable : bool)
| makeForNotExisiting (name : string) (makeOrGetNode : M XspFS.Sys string).

(** [web3n.files.Stats], the times as numbers. *)
Record Stats {Sync : Type} : Type := mkStats {
  st_ctime : Z;
  st_mtime : Z;
  st_version : Z;
  st_sync : Sync;
  st_writable : bool;
  st_size : option Z;
  st_isFile : option bool;
  st_isFolder : option bool;
  st_isLink : option bool
}.

Arguments Stats Sync : clear implicits.

(** A target of a link, as what its [getLinkParams()] does. *)
Definition Linkable : Type := M World LinkParameters.

(** [for (const f of lst) { ... }] *)
Fixpoint forEach {S A} (lst : list A) (body : A -> M S unit) : M S unit :=
  match lst with
  | [] => mret tt
  | f :: rest => _ ← body f; forEach rest body
  end.

(** What a method of the embedding that calls itself does when it has no
    call left. *)
Definition outOfFuel : Exn := JsError "no call is left".

Module V'.

Section Outside.

(** What the methods hand on to and is not among the sources: methods of
    nodes, of [NodeInFS] and of [FileNode], and functions of
    buffer-utils and of JavaScript. *)
Context {XAttrValue Src Json : Type}.
Context (node_updateXAttrs : NodeRef -> XAttrsChanges -> M World Z).
Context (node_getXAttr : NodeRef -> string -> M World XAttrValue).
Context (node_listXAttrs : NodeRef -> M World (list string)).
Context (node_version : NodeRef -> M World Z).
Context (readSrc : M FileNode.Ctx (Src * option Z)).
Context (utf8_pack : string -> list byte).
Context (utf8_open : list byte -> Cause + string).
Context (JSON_stringify : Json -> Result string).
Context (JSON_parse : string -> Cause + Json).

Definition updateXAttrs (self : V.t) (path : string)
    (changes : XAttrsChanges) : M World Z :=
  node ← V.get self path;
  node_updateXAttrs node changes.

Definition getXAttr (self : V.t) (path xaName : string)
    : M World (XAttrValue * Z) :=
  node ← V.get self path;
  attr ← node_getXAttr node xaName;
  version ← node_version node;
  mret (attr, version).

Definition listXAttrs (self : V.t) (path : string)
    : M World (list string * Z) :=
  node ← V.get self path;
  lst ← node_listXAttrs node;
  version ← node_version node;
  mret (lst, version).

Definition writeTxtFile (self : V.t) (path txt : string)
    (flags : option FileFlags) : M World Z :=
  let bytes := utf8_pack txt in
  V.writeBytes self path bytes flags.

Definition parsingExc (path : string) (err : Cause) : Exn :=
  FileExn (makeFileException (Some (Code k_parsingError)) path (Some err)).

Definition readTxtFile (self : V.t) (path : string)
    : M World (string * option Z) :=
  '(bytes, version) ← V.readBytes self path None None;
  match match bytes with
        | Some bytes => utf8_open bytes
        | None => inr ""
        end with
  | inr txt => mret (txt, version)
  | inl err => throw (parsingExc path err)
  end.

Definition writeJSONFile (self : V.t) (path : string) (json : Json)
    (flags : option FileFlags) : M World Z :=
  txt ← liftR (JSON_stringify json);
  writeTxtFile self path txt flags.

Definition readJSONFile (self : V.t) (path : string)
    : M World (Json * option Z) :=
  '(txt, version) ← readTxtFile self path;
  match JSON_parse txt with
  | inr json => mret (json, version)
  | inl err => throw (parsingExc path err)
  end.

Definition getByteSource (self : V.t) (path : string)
    : M World (Src * option Z) :=
  f ← V.getOrCreateFile self path noFlags;
  onFile f readSrc.

End Outside.

End V'.

Module XspFS'.

Import XspFS.

Section Outside.

(** What the methods hand on to and is not among the sources: methods of
    nodes, of [NodeInFS], [FolderNode] and [FileNode]; functions of
    other modules; the observables of a watch; and the objects of other
    filesystems that a caller gives. *)
Context {Sync XAttrValue Src Json SymLink Subscription Observer Criteria
         Collection OtherFS OtherFile : Type}.
Context (removeChild : ObjId -> NodeRef -> M World unit).
Context (hasChild : ObjId -> string -> bool -> M World bool).
Context (moveChildTo : ObjId -> string -> ObjId -> string -> M World unit).
Context (getLink : ObjId -> option string -> M World NodeRef).
Context (createLink : ObjId -> option string -> LinkParameters
                      -> M World unit).
Context (folder_getParamsForLink : ObjId -> M World LinkParameters).
Context (node_sync : NodeRef -> M World Sync).
Context (node_getAttrs : NodeRef -> M World CommonAttrs).
Context (node_version : NodeRef -> M World Z).
Context (node_updateXAttrs : NodeRef -> XAttrsChanges -> M World Z).
Context (node_getXAttr : NodeRef -> string -> M World XAttrValue).
Context (node_listXAttrs : NodeRef -> M World (list string)).
Context (readSrc : M FileNode.Ctx (Src * option Z)).
Context (link_read : NodeRef -> M World SymLink).
Context (symlink_target : SymLink -> M World (option Linkable)).
Context (utf8_pack : string -> list byte).
Context (utf8_open : list byte -> Cause + string).
Context (JSON_stringify : Json -> Result string).
Context (JSON_parse : string -> Cause + Json).
Context (selectInFS : string -> Criteria -> M Sys Collection).
Context (pipe : Src -> string * FileNode.Writing -> M World unit).
Context (watchFolderFrom : ObjId -> list string -> Observer
                           -> M Sys Subscription).
Context (watchFileFrom : ObjId -> list string -> option string -> Observer
                         -> M Sys Subscription).
Context (watchTreeFrom : ObjId -> list string -> Observer
                         -> M Sys Subscription).
Context (other_listFolder : OtherFS -> M World (list ListingEntry)).
Context (other_getByteSource : OtherFS -> string -> M World Src).
Context (other_readonlySubRoot : OtherFS -> string -> M World OtherFS).
Context (otherFile_getByteSource : OtherFile -> M World Src).

(** [new XspFS(this.storage(), writable, folder, folderName)], which the
    wrap of the result stands on. *)
Definition subRoot (writable : bool) (folder : ObjId)
    (pathParts : list string) : M Sys t :=
  self ← gets fs;
  let folderName :=
    match last pathParts with
    | None => name self
    | Some part => part
    end in
  st ← storage_;
  ty ← gets (fun s => Storage.type (storage (world s)));
  mret (mk ty (V.mk (Some folder)) (Some st) false writable folderName).

Definition readonlySubRoot (path : string) : M Sys t :=
  let pathParts := splitPathIntoParts path in
  root ← rootIfNotClosed path;
  folder ← orSetExcPath path
    (onWorld (FolderOps.getFolderInThisSubTree root pathParts false false));
  subRoot false folder pathParts.

Definition writableSubRoot (path : string) (flags : option FileFlags)
    : M Sys t :=
  let flags := default WRITE_NONEXCL_FLAGS flags in
  let pathParts := splitPathIntoParts path in
  root ← rootIfNotClosed path;
  folder ← orSetExcPath path
    (onWorld (FolderOps.getFolderInThisSubTree root pathParts
                (truthyFlag (create flags)) (truthyFlag (exclusive flags))));
  subRoot true folder pathParts.

Definition select (path : string) (criteria : Criteria)
    : M Sys Collection :=
  selectInFS path criteria.

Definition deleteLink (path : string) : M Sys unit :=
  let '(folderPath, fileName) := split path in
  root ← rootIfNotClosed path;
  parentFolder ← orSetExcPath path
    (onWorld (FolderOps.getFolderInThisSubTree root folderPath false false));
  link ← orSetExcPath path (onWorld (getLink parentFolder fileName));
  onWorld (removeChild parentFolder link).

Definition stat (path : string) : M Sys (Stats Sync) :=
  node ← onV (fun v => V.get v path);
  sync ← onWorld (node_sync node);
  attrs ← onWorld (node_getAttrs node);
  version ← onWorld (node_version node);
  self ← gets fs;
  let stats size isFile isFolder isLink :=
    mkStats Sync (ctime attrs) (mtime attrs) version sync (writable self)
            size isFile isFolder isLink in
  match ref_type node with
  | nt_file =>
      size ← onWorld (
        match ref_objId node with
        | Some f => onFile f (gets (fun c => FileNode.size (FileNode.this c)))
        | None => throw exc_dangling
        end);
      mret (stats (Some size) (Some true) None None)
  | nt_folder => mret (stats None None (Some true) None)
  | nt_link => mret (stats None None None (Some true))
  end.

Definition updateXAttrs (path : string) (changes : XAttrsChanges)
    : M Sys unit :=
  _ ← onV (fun v => V'.updateXAttrs node_updateXAttrs v path changes);
  mret tt.

Definition getXAttr (path xaName : string) : M Sys XAttrValue :=
  '(attr, _) ← onV (fun v =>
    V'.getXAttr node_getXAttr node_version v path xaName);
  mret attr.

Definition listXAttrs (path : string) : M Sys (list string) :=
  '(lst, _) ← onV (fun v =>
    V'.listXAttrs node_listXAttrs node_version v path);
  mret lst.

Definition readLink (path : string) : M Sys SymLink :=
  let '(folderPath, fileName) := split path in
  root ← rootIfNotClosed path;
  folder ← orSetExcPath path
    (onWorld (FolderOps.getFolderInThisSubTree root folderPath false false));
  link ← orSetExcPath path (onWorld (getLink folder fileName));
  onWorld (link_read link).

(** [link]; a target that is not linkable is [None]. *)
Definition link (path : string) (target : option Linkable) : M Sys unit :=
  match target with
  | None => throw (JsError "Given target is not-linkable")
  | Some target =>
      params ← onWorld target;
      _ ← ensureLinkingAllowedTo params;
      let '(folderPath, fileName) := split path in
      root ← rootIfNotClosed path;
      folder ← orSetExcPath path
        (onWorld (FolderOps.getFolderInThisSubTree root folderPath
                                                   true false));
      onWorld (createLink folder fileName params)
  end.

(** [getLinkParams]: the parameters, and the [folderName] that is put into
    their [params]. *)
Definition getLinkParams : M Sys (LinkParameters * string) :=
  self ← gets fs;
  root ← liftR (V.getRootIfNotClosed (v self) (name self));
  linkParams ← onWorld (folder_getParamsForLink root);
  mret (mkLinkParameters (storageType linkParams)
                         (Some (negb (writable self)))
                         (lp_isFile linkParams) (lp_isFolder linkParams),
        name self).

Definition watchFolder (path : string) (observer : Observer)
    : M Sys Subscription :=
  let folderPath := splitPathIntoParts path in
  root ← rootIfNotClosed path;
  watchFolderFrom root folderPath observer.

Definition watchFile (path : string) (observer : Observer)
    : M Sys Subscription :=
  let '(folderPath, fileName) := split path in
  root ← rootIfNotClosed path;
  watchFileFrom root folderPath fileName observer.

Definition watchTree (path : string) (observer : Observer)
    : M Sys Subscription :=
  let folderPath := splitPathIntoParts path in
  root ← rootIfNotClosed path;
  watchTreeFrom root folderPath observer.

Definition readonlyFile (path : string) : M Sys FileObject :=
  fNode ← onV (fun v => V.getOrCreateFile v path noFlags);
  mret (makeExisting fNode false).

Definition writableFile (path : string) (flags : option FileFlags)
    : M Sys FileObject :=
  let flags := default WRITE_NONEXCL_FLAGS flags in
  checkFilePresence path None ≫= fun exists_ : bool =>
  if exists_ then
    if truthyFlag (create flags) && truthyFlag (exclusive flags) then
      throw (FileExn (makeFileException (Some (Code k_alreadyExists))
                                        path None))
    else
      fNode ← onV (fun v => V.getOrCreateFile v path flags);
      mret (makeExisting fNode true)
  else
    if negb (truthyFlag (create flags)) then
      throw (FileExn (makeFileException (Some (Code k_notFound)) path None))
    else
      mret (makeForNotExisiting (posix.basename path)
              (onV (fun v => V.getOrCreateFile v path flags))).

Definition getByteSource (path : string) : M Sys Src :=
  '(src, _) ← onV (fun v => V'.getByteSource readSrc v path);
  mret src.

(** The flags of a copy. *)
Definition copyFlags (overwrite : bool) : FileFlags :=
  mkFlags (Some true) (Some (negb overwrite)) (Some true) None.

Definition copyFile (src dst : string) (overwrite : option bool)
    : M Sys unit :=
  let overwrite := default false overwrite in
  srcBytes ← getByteSource src;
  let flags := copyFlags overwrite in
  sink ← getByteSink dst (Some flags);
  onWorld (pipe srcBytes sink).

Definition saveFile (file : OtherFile) (dst : string)
    (overwrite : option bool) : M Sys unit :=
  let overwrite := default false overwrite in
  src ← onWorld (otherFile_getByteSource file);
  let flags := copyFlags overwrite in
  sink ← getByteSink dst (Some flags);
  onWorld (pipe src sink).

(** [copyFolder], which calls itself for the folders below: with [fuel]
    calls at most, one in another. *)
Fixpoint copyFolder (fuel : nat) (src dst : string)
    (mergeAndOverwrite : option bool) : M Sys unit :=
  match fuel with
  | O => throw outOfFuel
  | S fuel =>
      let mergeAndOverwrite := default false mergeAndOverwrite in
      lst ← listFolder src;
      _ ← makeFolder dst (Some (negb mergeAndOverwrite));
      forEach lst (fun f =>
        if isFile f then
          copyFile (src +:+ "/" +:+ le_name f) (dst +:+ "/" +:+ le_name f)
                   (Some mergeAndOverwrite)
        else if isFolder f then
          copyFolder fuel (src +:+ "/" +:+ le_name f)
                     (dst +:+ "/" +:+ le_name f) (Some mergeAndOverwrite)
        else if isLink f then
          link_ ← readLink (le_name f);
          t ← onWorld (symlink_target link_);
          link (dst +:+ "/" +:+ le_name f) t
        else mret tt)
  end.

(** [saveFolder], as [copyFolder]; the listing and the sources are those
    that the given filesystem gives, through its versioned interface when
    it has one. *)
Fixpoint saveFolder (fuel : nat) (folder : OtherFS) (dst : string)
    (mergeAndOverwrite : option bool) : M Sys unit :=
  match fuel with
  | O => throw outOfFuel
  | S fuel =>
      let mergeAndOverwrite := default false mergeAndOverwrite in
      lst ← onWorld (other_listFolder folder);
      _ ← makeFolder dst (Some (negb mergeAndOverwrite));
      forEach lst (fun f =>
        if isFile f then
          src ← onWorld (other_getByteSource folder (le_name f));
          let flags := copyFlags mergeAndOverwrite in
          sink ← getByteSink dst (Some flags);
          onWorld (pipe src sink)
        else if isFolder f then
          subFolder ← onWorld (other_readonlySubRoot folder (le_name f));
          saveFolder fuel subFolder (dst +:+ "/" +:+ le_name f)
                     (Some mergeAndOverwrite)
        else if isLink f then
          link_ ← readLink (le_name f);
          t ← onWorld (symlink_target link_);
          link (dst +:+ "/" +:+ le_name f) t
        else mret tt)
  end.

Definition readJSONFile (path : string) : M Sys Json :=
  '(json, _) ← onV (fun v =>
    V'.readJSONFile utf8_open JSON_parse v path);
  mret json.

Definition readTxtFile (path : string) : M Sys string :=
  '(txt, _) ← onV (fun v => V'.readTxtFile utf8_open v path);
  mret txt.

Definition writeJSONFile (path : string) (json : Json)
    (flags : option FileFlags) : M Sys unit :=
  let flags := default WRITE_NONEXCL_FLAGS flags in
  _ ← onV (fun v =>
    V'.writeJSONFile utf8_pack JSON_stringify v path json (Some flags));
  mret tt.

Definition writeTxtFile (path txt : string) (flags : option FileFlags)
    : M Sys unit :=
  let flags := default WRITE_NONEXCL_FLAGS flags in
  _ ← onV (fun v => V'.writeTxtFile utf8_pack v path txt (Some flags));
  mret tt.

End Outside.

End XspFS'.

(** ** More vocabulary of the properties *)

(** The four codes whose exceptions [setExcPath] gives the path to. *)
Definition pathBearing (k : CodeKey) : bool :=
  match k with
  | k_notFound | k_notDirectory | k_alreadyExists | k_notFile => true
  | _ => false
  end.

(** The bytes of [l] from [a] up to, not including, [b]. *)
Definition slice (l : list byte) (a b : Z) : list byte :=
  take (Z.to_nat (b - a)) (drop (Z.to_nat a) l).

(** The bytes that a read gives, none for [undefined]. *)
Definition bytesOf (r : Result FilePersistance.BytesAndAttrs) : list byte :=
  match r with
  | Ok ba => default [] (FilePersistance.bytes ba)
  | Throw _ => []
  end.

(** A bound that is absent or not negative. *)
Definition okBound (x : option Z) : Prop :=
  forall n, x = Some n -> 0 <= n.

(** The file of [emptyFileCtx] in a storage without versions. *)
Definition unversionedFileCtx : FileNode.Ctx :=
  FileNode.mkCtx
    (FileNode.this emptyFileCtx)
    (Storage.mk share (Storage.objs (FileNode.storage emptyFileCtx)) None 1
                false)
    0.

(** The rank of a type of storage in the policy of linking. *)
Definition linkRank (ty : FSType) : nat :=
  match ty with
  | local => 0
  | synced => 1
  | share => 2
  end.

(** The context after a save of [bytes] with the [changes]. *)
Definition afterSave (c : FileNode.Ctx) (bytes : list byte)
    (changes : option XAttrsChanges) : FileNode.Ctx :=
  let f := FileNode.this c in
  let st := FileNode.storage c in
  let attrs := mkCommonAttrs (ctime (FileNode.attrs f)) (FileNode.now c) in
  let xattrs := FileNode.applyXAttrsChanges (FileNode.xattrs f) changes in
  let version := FileNode.version f + 1 in
  FileNode.mkCtx
    (FileNode.mk (FileNode.name f) (FileNode.objId f) version
       (FileNode.parentId f) attrs xattrs (Z.of_nat (length bytes))
       (FileNode.events f
        ++ [ mkEvent (FileChange version) (FileNode.name f) ]))
    (Storage.mk (Storage.type st)
       (<[ FileNode.objId f :=
             mkObjSource version (mkPayload attrs xattrs bytes) ]>
          (Storage.objs st))
       (Storage.rootObj st) (Storage.generated st) (Storage.closed st))
    (FileNode.now c).

(** The writes of a caller, one after the other. *)
Definition writeAll (writes : list FileNode.SinkWrite) (w : FileNode.Writing)
    : FileNode.Writing :=
  foldl (fun w wr => FileNode.write wr w) w writes.

(** The pairs of a list as entries of the map of a tree. *)
Definition entriesOf (l : list (ObjId * string))
    : list (ObjIdToPathMap.Key * option string) :=
  List.map (fun '(objId, path) => (Some objId, Some path)) l.

(** An event that tells of no change in the tree: a change of a file or
    another event of a node's own, and a removal or an addition of an entry
    that is not part of a move. *)
Definition quietEvent (b : EventBody) : bool :=
  match b with
  | FileChange _ | OtherEvent => true
  | EntryRemoval _ moveLabel | EntryAddition _ moveLabel =>
      bool_decide (ObjIdToPathMap.truthyLabel moveLabel = None)
  | Removed | EntryRenaming _ _ => false
  end.

(** The map has the object of the event at a path. *)
Definition knownObject (self : ObjIdToPathMap.t) (ev : NodeEvent) : Prop :=
  exists p, mapsTo self (ne_objId ev) p /\ p <> "".

(** The folder with object id [id] is reached from [folder] by the names
    of [parts], one folder entry after the other. *)
Inductive reaches : FolderTree -> list string -> ObjId -> Prop :=
| reaches_here (folder : FolderTree) :
    reaches folder [] (tree_objId folder)
| reaches_below (objId : ObjId) (items : list (Item FolderTree))
    (name : string) (child : FolderTree) (parts : list string) (id : ObjId) :
    In (FolderItem name child) items ->
    reaches child parts id ->
    reaches (mkFolderTree objId items) (name :: parts) id.

(** The path of the names of [parts] below [path], as
    [recursiveIdAndPathList] writes it. *)
Definition pathBelow (path : string) (parts : list string) : string :=
  foldl (fun p name => p +:+ "/" +:+ name) path parts.

(** In [w], the path leads from the root to the file with the node [node],
    which is loaded under the reference [f]. *)
Definition fileAt (w : World) (path : string) (f : string)
    (node : FileNode.t) : Prop :=
  exists folderPath name folder d,
    split path = (folderPath, Some name) /\
    FolderOps.getFolderInThisSubTree None folderPath false false w
    = (Ok folder, w) /\
    folders w !! folder = Some d /\
    FolderNode.lookupEntry d name
    = Some (FolderNode.mkNodeInfo name f nt_file) /\
    files w !! f = Some node.

(** The world after a method of the file node behind [f] that leaves the
    context [c]. *)
Definition withFile (w : World) (f : string) (c : FileNode.Ctx) : World :=
  mkWorld (FileNode.storage c) (folders w)
          (<[ f := FileNode.this c ]> (files w)) (now w).

(** ** The calls of the methods of a filesystem *)

(** What a call gives back, as far as it matters after [close()]: the
    answer of a check of presence, the file object of [readonlyFile] and
    [writableFile], and for any other value only that the call has
    returned. *)
Inductive Ret : Type :=
| Done
| Answer (b : bool)
| TheFile (o : FileObject).

Definition done {S A} (m : M S A) : M S Ret := _ ← m; mret Done.

(** What a call does on a closed filesystem: it throws the exception of
    the closed filesystem with a path, or another exception, or it
    returns, and nothing is changed; or it first asks an object that the
    caller has given, which can throw and can change what it changes, and
    then throws the exception of the closed filesystem; or it hands the
    filesystem over to a function that is not among the sources. *)
Inductive Outcome : Type :=
| FailsClosed (path : string)
| Fails (exc : Exn)
| Returns (r : Ret)
| AsksFirst (outside : M World unit) (path : string)
| HandsOver (m : M XspFS.Sys Ret).

Section CallsOfMethods.

Context {Sync XAttrValue Src Json SymLink Subscription Observer Criteria
         Collection OtherFS OtherFile : Type}.

(** What the methods hand on to and is not among the sources: methods of
    nodes, of [NodeInFS], [FolderNode] and [FileNode]; functions of other
    modules and of JavaScript; the observables of a watch; and the objects
    of other filesystems that a caller gives. *)
Record Outside : Type := mkOutside {
  o_removeChild : ObjId -> NodeRef -> M World unit;
  o_hasChild : ObjId -> string -> bool -> M World bool;
  o_moveChildTo : ObjId -> string -> ObjId -> string -> M World unit;
  o_getLink : ObjId -> option string -> M World NodeRef;
  o_createLink : ObjId -> option string -> LinkParameters -> M World unit;
  o_folder_getParamsForLink : ObjId -> M World LinkParameters;
  o_node_sync : NodeRef -> M World Sync;
  o_node_getAttrs : NodeRef -> M World CommonAttrs;
  o_node_version : NodeRef -> M World Z;
  o_node_updateXAttrs : NodeRef -> XAttrsChanges -> M World Z;
  o_node_getXAttr : NodeRef -> string -> M World XAttrValue;
  o_node_listXAttrs : NodeRef -> M World (list string);
  o_readSrc : M FileNode.Ctx (Src * option Z);
  o_link_read : NodeRef -> M World SymLink;
  o_symlink_target : SymLink -> M World (option Linkable);
  o_utf8_pack : string -> list byte;
  o_utf8_open : list byte -> Cause + string;
  o_JSON_stringify : Json -> Result string;
  o_JSON_parse : string -> Cause + Json;
  o_selectInFS : string -> Criteria -> M XspFS.Sys Collection;
  o_pipe : Src -> string * FileNode.Writing -> M World unit;
  o_watchFolderFrom : ObjId -> list string -> Observer
      -> M XspFS.Sys Subscription;
  o_watchFileFrom : ObjId -> list string -> option string -> Observer
      -> M XspFS.Sys Subscription;
  o_watchTreeFrom : ObjId -> list string -> Observer
      -> M XspFS.Sys Subscription;
  o_other_listFolder : OtherFS -> M World (list ListingEntry);
  o_other_getByteSource : OtherFS -> string -> M World Src;
  o_other_readonlySubRoot : OtherFS -> string -> M World OtherFS;
  o_otherFile_getByteSource : OtherFile -> M World Src
}.

(** The calls of the public methods of a filesystem: those of class [V],
    with [V] in the name, and those of class [XspFS]; [close()] apart. *)
Inductive Call : Type :=
| VGetRootIfNotClosed (excPath : string)
| VGetOrCreateFile (path : string) (flags : FileFlags)
| VGet (path : string)
| VUpdateXAttrs (path : string) (changes : XAttrsChanges)
| VGetXAttr (path xaName : string)
| VListXAttrs (path : string)
| VListFolder (path : string)
| VWriteBytes (path : string) (bytes : list byte) (flags : option FileFlags)
| VReadBytes (path : string) (start end_ : option Z)
| VWriteTxtFile (path txt : string) (flags : option FileFlags)
| VReadTxtFile (path : string)
| VWriteJSONFile (path : string) (json : Json) (flags : option FileFlags)
| VReadJSONFile (path : string)
| VGetByteSink (path : string) (flags : option FileFlags)
| VGetByteSource (path : string)
| ReadonlySubRoot (path : string)
| WritableSubRoot (path : string) (flags : option FileFlags)
| MakeFolder (path : string) (exclusive : option bool)
| Select (path : string) (criteria : Criteria)
| DeleteFolder (path : string) (removeContent : option bool)
| DeleteFile (path : string)
| DeleteLink (path : string)
| Move (initPath newPath : string)
| Stat (path : string)
| UpdateXAttrs (path : string) (changes : XAttrsChanges)
| GetXAttr (path xaName : string)
| ListXAttrs (path : string)
| CheckFolderPresence (path : string) (throwIfMissing : option bool)
| CheckFilePresence (path : string) (throwIfMissing : option bool)
| CheckLinkPresence (path : string) (throwIfMissing : option bool)
| CopyFolder (src dst : string) (mergeAndOverwrite : option bool)
| SaveFolder (folder : OtherFS) (dst : string)
             (mergeAndOverwrite : option bool)
| Link (path : string) (target : option Linkable)
| ReadLink (path : string)
| GetLinkParams
| WatchFolder (path : string) (observer : Observer)
| WatchFile (path : string) (observer : Observer)
| WatchTree (path : string) (observer : Observer)
| ReadonlyFile (path : string)
| WritableFile (path : string) (flags : option FileFlags)
| CopyFile (src dst : string) (overwrite : option bool)
| SaveFile (file : OtherFile) (dst : string) (overwrite : option bool)
| ListFolder (path : string)
| ReadJSONFile (path : string)
| ReadTxtFile (path : string)
| ReadBytes (path : string) (start end_ : option Z)
| GetByteSource (path : string)
| WriteJSONFile (path : string) (json : Json) (flags : option FileFlags)
| WriteTxtFile (path txt : string) (flags : option FileFlags)
| WriteBytes (path : string) (bytes : list byte) (flags : option FileFlags)
| GetByteSink (path : string) (flags : option FileFlags).

(** The call, run; [fuel] is for the two methods that call themselves. *)
Definition run (o : Outside) (fuel : nat) (c : Call) : M XspFS.Sys Ret :=
  let '(mkOutside removeChild hasChild moveChildTo getLink createLink
       folder_getParamsForLink node_sync node_getAttrs node_version
       node_updateXAttrs node_getXAttr node_listXAttrs readSrc link_read
       symlink_target utf8_pack utf8_open JSON_stringify JSON_parse
       selectInFS pipe watchFolderFrom watchFileFrom watchTreeFrom
       other_listFolder other_getByteSource other_readonlySubRoot
       otherFile_getByteSource) := o in
  match c with
  | VGetRootIfNotClosed excPath => done (XspFS.rootIfNotClosed excPath)
  | VGetOrCreateFile path flags =>
      done (XspFS.onV (fun v => V.getOrCreateFile v path flags))
  | VGet path => done (XspFS.onV (fun v => V.get v path))
  | VUpdateXAttrs path changes =>
      done (XspFS.onV (fun v =>
              V'.updateXAttrs node_updateXAttrs v path changes))
  | VGetXAttr path xaName =>
      done (XspFS.onV (fun v =>
              V'.getXAttr node_getXAttr node_version v path xaName))
  | VListXAttrs path =>
      done (XspFS.onV (fun v =>
              V'.listXAttrs node_listXAttrs node_version v path))
  | VListFolder path => done (XspFS.onV (fun v => V.listFolder v path))
  | VWriteBytes path bytes flags =>
      done (XspFS.onV (fun v => V.writeBytes v path bytes flags))
  | VReadBytes path start end_ =>
      done (XspFS.onV (fun v => V.readBytes v path start end_))
  | VWriteTxtFile path txt flags =>
      done (XspFS.onV (fun v => V'.writeTxtFile utf8_pack v path txt flags))
  | VReadTxtFile path =>
      done (XspFS.onV (fun v => V'.readTxtFile utf8_open v path))
  | VWriteJSONFile path json flags =>
      done (XspFS.onV (fun v =>
              V'.writeJSONFile utf8_pack JSON_stringify v path json flags))
  | VReadJSONFile path =>
      done (XspFS.onV (fun v =>
              V'.readJSONFile utf8_open JSON_parse v path))
  | VGetByteSink path flags =>
      done (XspFS.onV (fun v => V.getByteSink v path flags))
  | VGetByteSource path =>
      done (XspFS.onV (fun v => V'.getByteSource readSrc v path))
  | ReadonlySubRoot path => done (XspFS'.readonlySubRoot path)
  | WritableSubRoot path flags => done (XspFS'.writableSubRoot path flags)
  | MakeFolder path exclusive => done (XspFS.makeFolder path exclusive)
  | Select path criteria => done (XspFS'.select selectInFS path criteria)
  | DeleteFolder path removeContent =>
      done (XspFS.deleteFolder removeChild path removeContent)
  | DeleteFile path => done (XspFS.deleteFile removeChild path)
  | DeleteLink path => done (XspFS'.deleteLink removeChild getLink path)
  | Move initPath newPath =>
      done (XspFS.move hasChild moveChildTo initPath newPath)
  | Stat path =>
      done (XspFS'.stat node_sync node_getAttrs node_version path)
  | UpdateXAttrs path changes =>
      done (XspFS'.updateXAttrs node_updateXAttrs path changes)
  | GetXAttr path xaName =>
      done (XspFS'.getXAttr node_version node_getXAttr path xaName)
  | ListXAttrs path =>
      done (XspFS'.listXAttrs node_version node_listXAttrs path)
  | CheckFolderPresence path throwIfMissing =>
      b ← XspFS.checkFolderPresence path throwIfMissing; mret (Answer b)
  | CheckFilePresence path throwIfMissing =>
      b ← XspFS.checkFilePresence path throwIfMissing; mret (Answer b)
  | CheckLinkPresence path throwIfMissing =>
      b ← XspFS.checkLinkPresence path throwIfMissing; mret (Answer b)
  | CopyFolder src dst mergeAndOverwrite =>
      done (XspFS'.copyFolder getLink createLink readSrc link_read
              symlink_target pipe fuel src dst mergeAndOverwrite)
  | SaveFolder folder dst mergeAndOverwrite =>
      done (XspFS'.saveFolder getLink createLink link_read symlink_target
              pipe other_listFolder other_getByteSource
              other_readonlySubRoot fuel folder dst mergeAndOverwrite)
  | Link path target => done (XspFS'.link createLink path target)
  | ReadLink path => done (XspFS'.readLink getLink link_read path)
  | GetLinkParams => done (XspFS'.getLinkParams folder_getParamsForLink)
  | WatchFolder path observer =>
      done (XspFS'.watchFolder watchFolderFrom path observer)
  | WatchFile path observer =>
      done (XspFS'.watchFile watchFileFrom path observer)
  | WatchTree path observer =>
      done (XspFS'.watchTree watchTreeFrom path observer)
  | ReadonlyFile path => o ← XspFS'.readonlyFile path; mret (TheFile o)
  | WritableFile path flags =>
      o ← XspFS'.writableFile path flags; mret (TheFile o)
  | CopyFile src dst overwrite =>
      done (XspFS'.copyFile readSrc pipe src dst overwrite)
  | SaveFile file dst overwrite =>
      done (XspFS'.saveFile pipe otherFile_getByteSource file dst overwrite)
  | ListFolder path => done (XspFS.listFolder path)
  | ReadJSONFile path =>
      done (XspFS'.readJSONFile utf8_open JSON_parse path)
  | ReadTxtFile path => done (XspFS'.readTxtFile utf8_open path)
  | ReadBytes path start end_ => done (XspFS.readBytes path start end_)
  | GetByteSource path => done (XspFS'.getByteSource readSrc path)
  | WriteJSONFile path json flags =>
      done (XspFS'.writeJSONFile utf8_pack JSON_stringify path json flags)
  | WriteTxtFile path txt flags =>
      done (XspFS'.writeTxtFile utf8_pack path txt flags)
  | WriteBytes path bytes flags => done (XspFS.writeBytes path bytes flags)
  | GetByteSink path flags => done (XspFS.getByteSink path flags)
  end.

(** What the call does on a closed filesystem, [self]. *)
Definition onClosed (o : Outside) (self : XspFS.t) (c : Call)
    : Outcome :=
  match c with
  | CheckFolderPresence path throwIfMissing
  | CheckFilePresence path throwIfMissing
  | CheckLinkPresence path throwIfMissing =>
      if default false throwIfMissing then FailsClosed path
      else Returns (Answer false)
  | WritableFile path flags =>
      let flags := default WRITE_NONEXCL_FLAGS flags in
      if truthyFlag (create flags) then
        Returns (TheFile
          (makeForNotExisiting (posix.basename path)
             (XspFS.onV (fun v => V.getOrCreateFile v path flags))))
      else
        Fails (FileExn (makeFileException (Some (Code k_notFound))
                                          path None))
  | Move initPath newPath =>
      match splitPathIntoParts initPath, splitPathIntoParts newPath with
      | [], _ => Fails (JsError
                   "Bad initial path: it points to filesystem root")
      | _, [] => Fails (JsError
                   "Bad new path: it points to filesystem root")
      | _, _ => FailsClosed initPath
      end
  | VWriteJSONFile path json _ | WriteJSONFile path json _ =>
      match (o_JSON_stringify o) json with
      | Throw exc => Fails exc
      | Ok _ => FailsClosed path
      end
  | Link _ None => Fails (JsError "Given target is not-linkable")
  | Link _ (Some target) => AsksFirst (_ ← target; mret tt) (XspFS.name self)
  | GetLinkParams => FailsClosed (XspFS.name self)
  | SaveFolder folder dst _ =>
      AsksFirst (_ ← (o_other_listFolder o) folder; mret tt) dst
  | SaveFile file dst _ =>
      AsksFirst (_ ← (o_otherFile_getByteSource o) file; mret tt) dst
  | Select path criteria => HandsOver (done ((o_selectInFS o) path criteria))
  | CopyFolder src _ _ | CopyFile src _ _ => FailsClosed src
  | VGetRootIfNotClosed path | VGetOrCreateFile path _ | VGet path
  | VUpdateXAttrs path _ | VGetXAttr path _ | VListXAttrs path
  | VListFolder path | VWriteBytes path _ _ | VReadBytes path _ _
  | VWriteTxtFile path _ _ | VReadTxtFile path | VReadJSONFile path
  | VGetByteSink path _ | VGetByteSource path | ReadonlySubRoot path
  | WritableSubRoot path _ | MakeFolder path _ | DeleteFolder path _
  | DeleteFile path | DeleteLink path | Stat path | UpdateXAttrs path _
  | GetXAttr path _ | ListXAttrs path | ReadLink path | WatchFolder path _
  | WatchFile path _ | WatchTree path _ | ReadonlyFile path
  | ListFolder path | ReadJSONFile path | ReadTxtFile path
  | ReadBytes path _ _ | GetByteSource path | WriteTxtFile path _ _
  | WriteBytes path _ _ | GetByteSink path _ => FailsClosed path
  end.

End CallsOfMethods.

(* ================================================================== *)
(** * Properties *)

(** ** File exceptions *)

Lemma Code_inj (k1 k2 : CodeKey) : Code k1 = Code k2 -> k1 = k2.
Proof. destruct k1, k2; simpl; intros H; try reflexivity; discriminate H. Qed.

Lemma makeFileException_flag (code : option string) path cause k :
  flag k (makeFileException code path cause) = codeIs code k.
Proof.
  unfold makeFileException.
  repeat (match goal with
          | |- context [if codeIs code ?k' then _ else _] =>
              destruct (codeIs code k') eqn:?
          end);
    try (match goal with
         | H : codeIs code ?k' = true |- _ =>
             apply bool_decide_eq_true in H; subst code;
             destruct k; reflexivity
         end).
  destruct k; simpl; symmetry; assumption.
Qed.

(** C10. For every code, path and cause, [makeFileException] returns an
    exception with [runtimeException] true, type ["file"] and the given
    code, path and cause; the flag named by a key of [Code] is set exactly
    when the code is that key's code, so that at most one flag is set, and
    none when the code is no entry of the table ([undefined] included);
    the two flags outside the table stay unset. *)
Theorem makeFileException_sets_the_flag_of_its_code
    (code : option string) (path : string) (cause : option Cause) :
  let err := makeFileException code path cause in
  runtimeException err = true /\
  exc_type err = "file" /\
  exc_code err = code /\
  exc_path err = path /\
  exc_cause err = cause /\
  (forall k, flag k err = true <-> code = Some (Code k)) /\
  (forall k1 k2, flag k1 err = true -> flag k2 err = true -> k1 = k2) /\
  attrsNotEnabledInFS err = false /\
  versionMismatch err = false.
Proof.
  intros err.
  assert (Hflag : forall k, flag k err = true <-> code = Some (Code k)).
  { intros k. unfold err. rewrite makeFileException_flag.
    unfold codeIs. apply bool_decide_eq_true. }
  assert (Hbase : runtimeException err = true /\ exc_type err = "file" /\
                  exc_code err = code /\ exc_path err = path /\
                  exc_cause err = cause /\
                  attrsNotEnabledInFS err = false /\
                  versionMismatch err = false).
  { unfold err, makeFileException.
    repeat (match goal with
            | |- context [if codeIs code ?k' then _ else _] =>
                destruct (codeIs code k')
            end); simpl; repeat split; reflexivity. }
  destruct Hbase as (H1 & H2 & H3 & H4 & H5 & H6 & H7).
  repeat split; try assumption; try apply Hflag.
  - intros k1 k2 Hk1 Hk2.
    apply Hflag in Hk1. apply Hflag in Hk2.
    apply Code_inj. congruence.
Qed.

(** ** Paths *)

Example splitPathIntoParts_ex1 :
  splitPathIntoParts "/a/b.txt" = [ "a"; "b.txt" ].
Proof. reflexivity. Qed.

Example splitPathIntoParts_ex2 :
  splitPathIntoParts "a//b/" = [ "a"; "b" ].
Proof. reflexivity. Qed.

Example splitPathIntoParts_ex3 :
  splitPathIntoParts "/a/../b/./c" = [ "b"; "c" ].
Proof. reflexivity. Qed.

Example splitPathIntoParts_ex4 :
  splitPathIntoParts "../.." = [].
Proof. reflexivity. Qed.

Lemma splitOn_nonempty sep s : posix.splitOn sep s <> [].
Proof.
  destruct s as [|c s]; simpl; [discriminate|].
  destruct (decide (c = sep)); [discriminate|].
  destruct (posix.splitOn sep s); discriminate.
Qed.

Lemma splitOn_app sep s t :
  posix.splitOn sep (s +:+ String sep t)
  = posix.splitOn sep s ++ posix.splitOn sep t.
Proof.
  induction s as [|c s IH]; simpl.
  - destruct (decide (sep = sep)); [reflexivity|congruence].
  - destruct (decide (c = sep)).
    + rewrite IH. reflexivity.
    + rewrite IH.
      destruct (posix.splitOn sep s) as [|seg rest] eqn:E.
      * destruct (splitOn_nonempty _ _ E).
      * reflexivity.
Qed.

Lemma splitOn_no_sep sep s :
  occurs sep s = false -> posix.splitOn sep s = [ s ].
Proof.
  induction s as [|c s IH]; simpl; [reflexivity|].
  destruct (decide (c = sep)); [discriminate|].
  intros H. rewrite (IH H). reflexivity.
Qed.

Lemma splitOn_segments sep s :
  Forall (fun seg => occurs sep seg = false) (posix.splitOn sep s).
Proof.
  induction s as [|c s IH]; simpl.
  - repeat constructor.
  - destruct (decide (c = sep)).
    + constructor; [reflexivity|assumption].
    + destruct (posix.splitOn sep s) as [|seg rest].
      * repeat constructor. simpl. destruct (decide (c = sep)); congruence.
      * inversion IH; subst. constructor; [|assumption].
        simpl. destruct (decide (c = sep)); congruence.
Qed.

Lemma splitOn_join (parts : list string) :
  parts <> [] ->
  Forall (fun seg => occurs "/" seg = false) parts ->
  posix.splitOn "/" (posix.join "/" parts) = parts.
Proof.
  induction parts as [|p rest IH]; [congruence|].
  intros _ Hall. inversion Hall as [|? ? Hp Hrest]; subst.
  destruct rest as [|q rest'].
  - simpl. apply splitOn_no_sep. assumption.
  - change (posix.join "/" (p :: q :: rest'))
      with (p +:+ String "/" (posix.join "/" (q :: rest'))).
    rewrite splitOn_app, IH by (congruence || assumption).
    rewrite splitOn_no_sep by assumption. reflexivity.
Qed.

Lemma normalizeStep_proper res seg :
  occurs "/" seg = false ->
  Forall properPart res -> Forall properPart (posix.normalizeStep res seg).
Proof.
  intros Hseg Hres. unfold posix.normalizeStep.
  repeat case_decide; try assumption.
  - clear - Hres. induction Hres as [|x l Hx Hl IH]; simpl; [constructor|].
    destruct l; [constructor|]. constructor; assumption.
  - apply Forall_app. split; [assumption|].
    repeat constructor; assumption.
Qed.

Lemma foldl_normalizeStep_proper segs res :
  Forall (fun seg => occurs "/" seg = false) segs ->
  Forall properPart res ->
  Forall properPart (foldl posix.normalizeStep res segs).
Proof.
  revert res. induction segs as [|seg segs IH]; intros res Hs Hres; simpl.
  - assumption.
  - inversion Hs; subst. apply IH; [assumption|].
    apply normalizeStep_proper; assumption.
Qed.

Lemma filter_truthy_proper (parts : list string) :
  Forall properPart parts -> List.filter truthy parts = parts.
Proof.
  induction 1 as [|p l Hp _ IH]; simpl; [reflexivity|].
  destruct Hp as (Hne & _). unfold truthy at 1.
  rewrite bool_decide_eq_false_2 by assumption. simpl. congruence.
Qed.

(** Splitting the resolved path again gives back the parts it was joined
    from. *)
Lemma split_resolved (parts : list string) :
  Forall properPart parts ->
  List.filter truthy (posix.splitOn "/" ("/" +:+ posix.join "/" parts))
  = parts.
Proof.
  intros Hp.
  change ("/" +:+ posix.join "/" parts)
    with ("" +:+ String "/" (posix.join "/" parts)).
  rewrite splitOn_app. simpl.
  destruct parts as [|p rest]; [reflexivity|].
  rewrite splitOn_join.
  - apply filter_truthy_proper. assumption.
  - discriminate.
  - eapply Forall_impl; [exact Hp|]. intros x Hx. apply Hx.
Qed.

Lemma foldl_normalizeStep_snoc_empty res segs :
  foldl posix.normalizeStep res (segs ++ [ "" ])
  = foldl posix.normalizeStep res segs.
Proof. rewrite foldl_app. reflexivity. Qed.

Lemma normalized_segments (path : string) :
  foldl posix.normalizeStep []
        (posix.splitOn "/" (match path with
                            | EmptyString => "/" +:+ "/" +:+ ""
                            | String c _ =>
                                if decide (c = "/"%char)
                                then path +:+ "/" +:+ ""
                                else "/" +:+ "/" +:+ (path +:+ "/" +:+ "")
                            end))
  = foldl posix.normalizeStep [] (posix.splitOn "/" path).
Proof.
  destruct path as [|c rest]; [reflexivity|].
  destruct (decide (c = "/"%char)).
  - change (String c rest +:+ "/" +:+ "")
      with (String c rest +:+ String "/" "").
    rewrite splitOn_app. apply foldl_normalizeStep_snoc_empty.
  - change ("/" +:+ "/" +:+ (String c rest +:+ "/" +:+ ""))
      with ("" +:+ String "/" ("" +:+ String "/"
              (String c rest +:+ String "/" ""))).
    rewrite !splitOn_app.
    change (posix.splitOn "/" "") with [ "" ].
    simpl app. cbn [foldl]. unfold posix.normalizeStep at 2 3.
    simpl. apply foldl_normalizeStep_snoc_empty.
Qed.

(** C8, as the code has it. For every path, the parts are those of the path
    resolved against ["/"]: the path is split on ['/'] and its segments are
    taken from left to right, an empty segment and ["."] being dropped and
    [".."] taking away the part before it, when there is one; so no part
    is empty, ["."] or [".."], and none holds a ['/']. *)
Theorem splitPathIntoParts_resolves_dots (path : string) :
  splitPathIntoParts path
  = foldl posix.normalizeStep [] (posix.splitOn "/" path)
  /\ Forall properPart (splitPathIntoParts path).
Proof.
  assert (Hp : Forall properPart
                 (foldl posix.normalizeStep [] (posix.splitOn "/" path))).
  { apply foldl_normalizeStep_proper; [apply splitOn_segments|constructor]. }
  assert (E : splitPathIntoParts path
              = foldl posix.normalizeStep [] (posix.splitOn "/" path)).
  { unfold splitPathIntoParts, posix.resolve_from_root, posix.normalizeString.
    rewrite normalized_segments. apply split_resolved. exact Hp. }
  split; [exact E|]. rewrite E. exact Hp.
Qed.

(** C8, as the specification has it, fails: [".."] is resolved. *)
Lemma splitPathIntoParts_not_as_specified :
  splitPathIntoParts "/a/../b" = [ "b" ] /\
  parts_as_specified "/a/../b" = [ "a"; ".."; "b" ] /\
  ~ (forall path, splitPathIntoParts path = parts_as_specified path).
Proof.
  split; [reflexivity|]. split; [reflexivity|].
  intros H. specialize (H "/a/../b"). discriminate H.
Qed.

(** ** Reading bytes *)

Ltac unfold_M :=
  unfold mbind, mret, M_bind, M_ret, Result_bind, Result_ret, throw, catch,
    gets, modify, liftR in *.

Lemma getObj_holds (c : FileNode.Ctx) (objSrc : ObjSource) :
  holdsObj c objSrc ->
  FileNode.onStorage
    (Storage.getObj (Some (FileNode.objId (FileNode.this c)))) c
  = (Ok objSrc, c).
Proof.
  unfold holdsObj, FileNode.onStorage, Storage.getObj. intros ->.
  destruct c; reflexivity.
Qed.

Lemma persistance_readBytes_negative objSrc start end_ getAttrs :
  negativeBound start \/ negativeBound end_ ->
  FilePersistance.readBytes objSrc start end_ getAttrs
  = Throw (badBoundError start end_).
Proof.
  unfold FilePersistance.readBytes, FilePersistance.checkBound, badBoundError.
  unfold_M.
  intros [(n & -> & Hn) | (n & -> & Hn)].
  - rewrite !bool_decide_eq_true_2 by assumption. reflexivity.
  - destruct start as [s|].
    + destruct (bool_decide (s < 0)); [reflexivity|].
      rewrite bool_decide_eq_true_2 by assumption. reflexivity.
    + rewrite bool_decide_eq_true_2 by assumption. reflexivity.
Qed.

(** C7. A read whose [start] or [end] is a negative number fails:
    [FilePersistance.readBytes] throws the error for the bad parameter
    before it looks at the object; [FileNode.readBytes] fails on every
    node, and on a node whose object the store holds it throws that same
    error and leaves node and store as they were. *)
Theorem readBytes_negative_bound_fails
    (objSrc : ObjSource) (start end_ : option Z) (getAttrs : bool)
    (c : FileNode.Ctx) :
  negativeBound start \/ negativeBound end_ ->
  FilePersistance.readBytes objSrc start end_ getAttrs
  = Throw (badBoundError start end_) /\
  isThrow (FileNode.readBytes start end_ c).1 = true /\
  (holdsObj c objSrc ->
   FileNode.readBytes start end_ c = (Throw (badBoundError start end_), c)).
Proof.
  intros Hneg.
  assert (Hheld : forall src, holdsObj c src ->
            FileNode.readBytes start end_ c
            = (Throw (badBoundError start end_), c)).
  { intros src Hobj. unfold FileNode.readBytes. unfold_M.
    rewrite (getObj_holds c src Hobj).
    rewrite !persistance_readBytes_negative by assumption.
    destruct (FileNode.versioned _); [|reflexivity].
    destruct (bool_decide _); reflexivity. }
  split; [apply persistance_readBytes_negative; assumption|].
  split; [|apply Hheld].
  destruct (Storage.objs (FileNode.storage c)
            !! FileNode.objId (FileNode.this c)) as [src|] eqn:Hsrc.
  - rewrite (Hheld src Hsrc). reflexivity.
  - unfold FileNode.readBytes, FileNode.onStorage, Storage.getObj. unfold_M.
    rewrite Hsrc. reflexivity.
Qed.

Lemma persistance_readBytes_past_end objSrc s end_ getAttrs :
  NodePersistance.size (os_payload objSrc) <= s ->
  (forall e, end_ = Some e -> 0 <= e) ->
  FilePersistance.readBytes objSrc (Some s) end_ getAttrs
  = Ok (FilePersistance.mkBytesAndAttrs None
          (if getAttrs then Some (FilePersistance.getAttrs objSrc)
           else None)).
Proof.
  intros Hs Hend.
  assert (0 <= s) by (unfold NodePersistance.size in Hs; lia).
  unfold FilePersistance.readBytes, FilePersistance.checkBound. unfold_M.
  rewrite bool_decide_eq_false_2 by lia.
  destruct end_ as [e|].
  - specialize (Hend e eq_refl).
    rewrite bool_decide_eq_false_2 by lia.
    unfold NodePersistance.readonlyPayload.
    rewrite bool_decide_eq_true_2 by lia. reflexivity.
  - unfold NodePersistance.readonlyPayload.
    rewrite bool_decide_eq_true_2 by lia. reflexivity.
Qed.

(** C6, as the code has it. For a file whose object in the store has size
    [S], a read with [S <= start] and with [end] absent or not negative
    does not raise: it returns no bytes ([bytes] is [undefined]) and the
    version of the object in the store ([undefined] on a storage without
    versions), and it brings version, attributes and size of the node up to
    the store's when the node was behind. *)
Theorem readBytes_past_end_returns_no_bytes
    (objSrc : ObjSource) (s : Z) (end_ : option Z) (getAttrs : bool)
    (c : FileNode.Ctx) :
  holdsObj c objSrc ->
  NodePersistance.size (os_payload objSrc) <= s ->
  (forall e, end_ = Some e -> 0 <= e) ->
  FilePersistance.readBytes objSrc (Some s) end_ getAttrs
  = Ok (FilePersistance.mkBytesAndAttrs None
          (if getAttrs then Some (FilePersistance.getAttrs objSrc)
           else None)) /\
  FileNode.readBytes (Some s) end_ c
  = (Ok (None, versionRead c objSrc), refreshed c objSrc).
Proof.
  intros Hobj Hs Hend. split.
  - apply persistance_readBytes_past_end; assumption.
  - unfold FileNode.readBytes, versionRead, refreshed. unfold_M.
    rewrite (getObj_holds c objSrc Hobj).
    rewrite !persistance_readBytes_past_end by assumption.
    destruct (FileNode.versioned _); simpl; [|reflexivity].
    destruct (bool_decide _); reflexivity.
Qed.

(** C6, as the specification has it, fails: for a file of two bytes, a
    read from the size on, with bounds that are not negative, returns
    [undefined] for the bytes and not an empty array; and on a storage
    without versions it returns [undefined] for the version too, not the
    version of the file. *)
Lemma readBytes_past_end_returns_undefined :
  let c := afterSave emptyFileCtx someBytes None in
  let u := afterSave unversionedFileCtx someBytes None in
  NodePersistance.size (mkPayload (mkCommonAttrs 0 0) None someBytes) = 2 /\
  (FileNode.readBytes (Some 2) (Some 9) c).1 = Ok (None, Some 2) /\
  ~ ((FileNode.readBytes (Some 2) (Some 9) c).1 = Ok (Some [], Some 2)) /\
  FileNode.version (FileNode.this u) = 2 /\
  (FileNode.readBytes (Some 2) (Some 9) u).1 = Ok (None, None) /\
  ~ ((FileNode.readBytes (Some 2) (Some 9) u).1 = Ok (Some [], Some 2)).
Proof.
  intros c u.
  split; [reflexivity|].
  split; [vm_compute; reflexivity|].
  split; [vm_compute; discriminate|].
  split; [reflexivity|].
  split; [vm_compute; reflexivity|].
  vm_compute. discriminate.
Qed.

(** ** Streaming writes *)

(** C5. A call of [writeSink] with a [currentVersion] that is a number
    other than the version of the node fails with the version-mismatch
    exception, which carries the name of the node; no sink and no new
    version come back, and node and store are as they were. *)
Theorem writeSink_version_mismatch
    (c : FileNode.Ctx) (truncate : option bool) (currentVersion : Z)
    (changes : option XAttrsChanges) :
  currentVersion <> FileNode.version (FileNode.this c) ->
  FileNode.writeSink truncate (Some currentVersion) changes c
  = (Throw (FileExn (makeVersionMismatchExc
                       (FileNode.name (FileNode.this c)))), c).
Proof.
  intros Hne.
  unfold FileNode.writeSink, FileNode.doChange,
    FileNode.startMakingSinkInsideChange.
  unfold_M.
  rewrite bool_decide_eq_true_2 by congruence. reflexivity.
Qed.

Lemma writeSink_ok_inv c truncate currentVersion changes w v c1 :
  FileNode.writeSink truncate currentVersion changes c = (Ok (w, v), c1) ->
  c1 = c /\
  FileNode.completion w = None /\
  FileNode.newSize w = None /\
  NodePersistance.doneCalls (FileNode.sink w) = [] /\
  v = FileNode.version (FileNode.this c) + 1 /\
  FileNode.w_newVersion w = v.
Proof.
  unfold FileNode.writeSink, FileNode.doChange,
    FileNode.startMakingSinkInsideChange, FileNode.getParamsForUpdate.
  unfold_M.
  destruct (match currentVersion with
            | Some cv => bool_decide (FileNode.version (FileNode.this c) ≠ cv)
            | None => false
            end); [discriminate|].
  destruct (default false truncate
            || bool_decide (FileNode.version (FileNode.this c) = 0)).
  - intros [= <- <- <-]. simpl. repeat split; reflexivity.
  - unfold FileNode.onStorage, Storage.getObj.
    destruct (Storage.objs (FileNode.storage c)
              !! FileNode.objId (FileNode.this c)); [|discriminate].
    destruct c as [f st n]. simpl.
    intros [= <- <- <-]. simpl. repeat split; reflexivity.
Qed.

Lemma writes_keep_pending (writes : list FileNode.SinkWrite) w :
  let w' := foldl (fun w wr => FileNode.write wr w) w writes in
  FileNode.completion w' = FileNode.completion w /\
  FileNode.newSize w' = FileNode.newSize w /\
  NodePersistance.doneCalls (FileNode.sink w')
  = NodePersistance.doneCalls (FileNode.sink w) /\
  FileNode.w_newVersion w' = FileNode.w_newVersion w.
Proof.
  revert w. induction writes as [|wr writes IH]; intros w; simpl.
  - repeat split; reflexivity.
  - destruct (IH (FileNode.write wr w)) as (H1 & H2 & H3 & H4).
    rewrite H1, H2, H3, H4. destruct wr; repeat split; reflexivity.
Qed.

(** C4. When the caller of [writeSink] ends the sink with [done(err)],
    after any writes, the call of [done] returns, the deferred new size
    holds 0, the sink's own [done] has been called with [err] (and once
    more with the error that the cancelled save failed with), the change
    has failed with [err], and the node, the events it has broadcast and
    the store are as before [writeSink]. *)
Theorem writeSink_done_with_error_leaves_node
    (c c1 : FileNode.Ctx) (truncate : option bool)
    (currentVersion : option Z) (changes : option XAttrsChanges)
    (w : FileNode.Writing) (v : Z) (writes : list FileNode.SinkWrite)
    (err : Exn) :
  FileNode.writeSink truncate currentVersion changes c = (Ok (w, v), c1) ->
  exists w',
    FileNode.done (Some err)
      (foldl (fun w wr => FileNode.write wr w) w writes, c1)
    = (Ok tt, (w', c)) /\
    FileNode.newSize w' = Some 0 /\
    NodePersistance.doneCalls (FileNode.sink w') = [ Some err; Some err ] /\
    FileNode.completion w' = Some (Throw err) /\
    c1 = c.
Proof.
  intros Hw. apply writeSink_ok_inv in Hw.
  destruct Hw as (-> & Hc & Hn & Hd & _ & _).
  destruct (writes_keep_pending writes w) as (Hc' & Hn' & Hd' & _).
  rewrite Hc in Hc'. rewrite Hn in Hn'. rewrite Hd in Hd'.
  set (w1 := foldl _ w writes) in *.
  unfold FileNode.done, FileNode.runCompletion, FileNode.resolveNewSize,
    FileNode.onSink, NodePersistance.subOfSink, NodePersistance.done.
  simpl. rewrite Hc', Hn', Hd'. simpl.
  unfold FileNode.savingObjInsideChange, FileNode.onStorage, Storage.saveObj.
  unfold_M. destruct c as [f st n]. simpl.
  eexists. split; [reflexivity|]. simpl.
  repeat split; reflexivity.
Qed.

(** *** The theorems at work *)

Lemma readBytes_negative_bound_fails_witness :
  (negativeBound (Some (-1)) \/ negativeBound None) /\
  FilePersistance.readBytes emptyObj (Some (-1)) None true
  = Throw (JsError "Parameter start has bad value: -1") /\
  FileNode.readBytes (Some (-1)) None emptyFileCtx
  = (Throw (JsError "Parameter start has bad value: -1"), emptyFileCtx).
Proof.
  assert (H1 : negativeBound (Some (-1)) \/ negativeBound None).
  { left. exists (-1). split; [reflexivity|lia]. }
  assert (H2 : holdsObj emptyFileCtx emptyObj) by reflexivity.
  split; [exact H1|].
  destruct (readBytes_negative_bound_fails
              emptyObj (Some (-1)) None true emptyFileCtx H1)
    as (P1 & _ & P3).
  split; [exact P1|exact (P3 H2)].
Defined.

Lemma readBytes_past_end_returns_no_bytes_witness :
  holdsObj emptyFileCtx emptyObj /\
  NodePersistance.size (os_payload emptyObj) <= 5 /\
  FileNode.readBytes (Some 5) (Some 9) emptyFileCtx
  = (Ok (None, Some 1), emptyFileCtx).
Proof.
  assert (H1 : holdsObj emptyFileCtx emptyObj) by reflexivity.
  assert (H2 : NodePersistance.size (os_payload emptyObj) <= 5)
    by (vm_compute; congruence).
  assert (H3 : forall e, Some 9 = Some e -> 0 <= e)
    by (intros e [= <-]; lia).
  split; [exact H1|]. split; [exact H2|].
  exact (proj2 (readBytes_past_end_returns_no_bytes
                  emptyObj 5 (Some 9) false emptyFileCtx H1 H2 H3)).
Defined.

Lemma writeSink_version_mismatch_witness :
  0 <> FileNode.version (FileNode.this emptyFileCtx) /\
  FileNode.writeSink None (Some 0) None emptyFileCtx
  = (Throw (FileExn (makeVersionMismatchExc "f")), emptyFileCtx).
Proof.
  assert (H : 0 <> FileNode.version (FileNode.this emptyFileCtx))
    by (simpl; lia).
  split; [exact H|].
  exact (writeSink_version_mismatch emptyFileCtx None 0 None H).
Defined.

Lemma writeSink_done_with_error_leaves_node_witness :
  FileNode.writeSink (Some true) (Some 1) None emptyFileCtx
  = (Ok (emptyFileWriting, 2), emptyFileCtx) /\
  exists w',
    FileNode.done (Some (JsError "disk full"))
      (foldl (fun w wr => FileNode.write wr w) emptyFileWriting
             [ FileNode.Splice 0 0 [ Byte.x61; Byte.x62 ] ],
       emptyFileCtx)
    = (Ok tt, (w', emptyFileCtx)) /\
    FileNode.newSize w' = Some 0 /\
    NodePersistance.doneCalls (FileNode.sink w')
    = [ Some (JsError "disk full"); Some (JsError "disk full") ] /\
    FileNode.completion w' = Some (Throw (JsError "disk full")) /\
    emptyFileCtx = emptyFileCtx.
Proof.
  assert (H : FileNode.writeSink (Some true) (Some 1) None emptyFileCtx
              = (Ok (emptyFileWriting, 2), emptyFileCtx)) by reflexivity.
  split; [exact H|].
  exact (writeSink_done_with_error_leaves_node
           emptyFileCtx emptyFileCtx (Some true) (Some 1) None
           emptyFileWriting 2
           [ FileNode.Splice 0 0 [ Byte.x61; Byte.x62 ] ]
           (JsError "disk full") H).
Defined.

(** ** The map of a watched tree *)

(** Induction on a tree, with the property at hand for the folders among
    the items. *)
Lemma FolderTree_rect' (P : FolderTree -> Prop)
    (step : forall objId items,
        Forall (fun item => match item with
                            | FolderItem _ child => P child
                            | _ => True
                            end) items ->
        P (mkFolderTree objId items))
    : forall folder, P folder.
Proof.
  fix go 1. intros [objId items]. apply step.
  induction items as [|item rest IHrest]; constructor.
  - destruct item as [n i | n i | n child]; [exact I | exact I | apply go].
  - exact IHrest.
Qed.

Lemma recursiveIdAndPathList_folders (folder : FolderTree) :
  forall path id q,
    In (id, q) (recursiveIdAndPathList folder path)
    <-> folderAt folder path id q.
Proof.
  induction folder as [objId items IH] using FolderTree_rect'.
  intros path id q. simpl. split.
  - intros [[= <- <-] | Hin].
    + apply (folderAt_here (mkFolderTree objId items)).
    + apply in_flat_map in Hin. destruct Hin as (item & Hitem & Hin).
      destruct item as [n i | n i | n child]; try contradiction.
      rewrite Forall_forall in IH. apply list_elem_of_In in Hitem as Hitem'.
      specialize (IH _ Hitem'). simpl in IH.
      eapply folderAt_below; [exact Hitem|]. apply IH. exact Hin.
  - intros Hat. inversion Hat as [f p Hf Hp | o its n child p i q' Hitem Hsub];
      subst.
    + left. reflexivity.
    + right. apply in_flat_map. exists (FolderItem n child).
      split; [assumption|].
      rewrite Forall_forall in IH. apply list_elem_of_In in Hitem as Hitem'.
      specialize (IH _ Hitem'). simpl in IH. apply IH. assumption.
Qed.

Lemma recursiveIdAndPathList_length (folder : FolderTree) :
  forall path,
    length (recursiveIdAndPathList folder path) = countFolders folder.
Proof.
  induction folder as [objId items IH] using FolderTree_rect'.
  intros path. simpl. f_equal.
  induction items as [|item rest IHrest]; simpl; [reflexivity|].
  inversion IH as [|? ? Hitem Hrest]; subst.
  rewrite length_app, (IHrest Hrest).
  destruct item as [n i | n i | n child]; simpl; [reflexivity..|].
  rewrite Hitem. reflexivity.
Qed.

Lemma map_get_set m k v k' :
  ObjIdToPathMap.map_get (ObjIdToPathMap.map_set m k v) k'
  = if decide (k = k') then v else ObjIdToPathMap.map_get m k'.
Proof.
  induction m as [|[k0 v0] rest IH]; simpl.
  - reflexivity.
  - destruct (decide (k0 = k)) as [->|Hne]; simpl.
    + destruct (decide (k = k')); reflexivity.
    + rewrite IH. destruct (decide (k0 = k')) as [->|]; [|reflexivity].
      destruct (decide (k = k')); [congruence|reflexivity].
Qed.

Lemma fill_get (l : list (ObjId * string)) (self : ObjIdToPathMap.t) k q :
  ObjIdToPathMap.map_get
    (ObjIdToPathMap.map
       (foldl (fun self '(objId, path) =>
                 ObjIdToPathMap.setMap self (Some objId) (Some path))
              self l)) k = Some q ->
  (exists id, k = Some id /\ In (id, q) l)
  \/ ObjIdToPathMap.map_get (ObjIdToPathMap.map self) k = Some q.
Proof.
  revert self. induction l as [|[id p] rest IH]; intros self; simpl.
  - right. assumption.
  - intros H. apply IH in H. destruct H as [(id' & -> & Hin) | H].
    + left. exists id'. split; [reflexivity|]. right. assumption.
    + simpl in H. rewrite map_get_set in H.
      destruct (decide (Some id = k)) as [Heq|Hne].
      * rewrite decide_True in H by assumption. subst k.
        left. exists id. split; [reflexivity|]. left.
        injection H as ->. reflexivity.
      * rewrite decide_False in H by assumption. right. assumption.
Qed.

Lemma map_set_fresh m k v :
  k ∉ m.*1 -> ObjIdToPathMap.map_set m k v = m ++ [ (k, v) ].
Proof.
  induction m as [|[k0 v0] rest IH]; simpl; intros Hk; [reflexivity|].
  rewrite not_elem_of_cons in Hk. destruct Hk as [Hne Hk].
  rewrite decide_False by congruence. rewrite IH by assumption. reflexivity.
Qed.

Lemma entriesOf_keys l k :
  k ∈ (entriesOf l).*1 -> exists id, k = Some id /\ id ∈ l.*1.
Proof.
  induction l as [|[id p] rest IH]; simpl; intros H.
  - apply elem_of_nil in H. contradiction.
  - apply elem_of_cons in H. destruct H as [->|H].
    + exists id. split; [reflexivity|]. left.
    + destruct (IH H) as (id' & -> & Hin). exists id'.
      split; [reflexivity|]. right. assumption.
Qed.

Lemma fill_entries (l : list (ObjId * string)) :
  forall self,
    NoDup l.*1 ->
    (forall id, id ∈ l.*1 -> Some id ∉ (ObjIdToPathMap.map self).*1) ->
    foldl (fun self '(objId, path) =>
             ObjIdToPathMap.setMap self (Some objId) (Some path)) self l
    = ObjIdToPathMap.mk (ObjIdToPathMap.map self ++ entriesOf l)
                        (ObjIdToPathMap.moves self).
Proof.
  induction l as [|[id p] rest IH]; intros self Hnd Hfresh; simpl.
  - rewrite app_nil_r. destruct self; reflexivity.
  - simpl in Hnd. apply NoDup_cons in Hnd. destruct Hnd as [Hid Hnd].
    rewrite IH.
    + unfold ObjIdToPathMap.setMap. simpl.
      rewrite map_set_fresh by (apply Hfresh; left).
      rewrite <- app_assoc. reflexivity.
    + assumption.
    + intros id' Hin. unfold ObjIdToPathMap.setMap. simpl.
      rewrite map_set_fresh by (apply Hfresh; left).
      rewrite fmap_app. simpl. rewrite not_elem_of_app. split.
      * apply Hfresh. right. assumption.
      * rewrite not_elem_of_cons. split; [|apply not_elem_of_nil].
        intros [= ->]. contradiction.
Qed.

Lemma map_get_entries l id q :
  NoDup l.*1 -> In (id, q) l ->
  ObjIdToPathMap.map_get (entriesOf l) (Some id) = Some q.
Proof.
  induction l as [|[id0 p0] rest IH]; simpl; intros Hnd Hin; [contradiction|].
  apply NoDup_cons in Hnd. destruct Hnd as [Hid Hnd].
  destruct Hin as [[= -> ->]|Hin].
  - rewrite decide_True by reflexivity. reflexivity.
  - rewrite decide_False; [apply IH; assumption|].
    intros [= ->]. apply Hid.
    apply list_elem_of_In in Hin.
    apply (list_elem_of_fmap_2 fst) in Hin. exact Hin.
Qed.

Lemma fill_get_notin (l : list (ObjId * string)) :
  forall (self : ObjIdToPathMap.t) (id : ObjId),
    id ∉ l.*1 ->
    ObjIdToPathMap.map_get
      (ObjIdToPathMap.map
         (foldl (fun self '(objId, path) =>
                   ObjIdToPathMap.setMap self (Some objId) (Some path))
                self l)) (Some id)
    = ObjIdToPathMap.map_get (ObjIdToPathMap.map self) (Some id).
Proof.
  induction l as [|[id0 p0] rest IH]; intros self id Hid; simpl;
    [reflexivity|].
  simpl in Hid. rewrite not_elem_of_cons in Hid. destruct Hid as [Hne Hid].
  rewrite IH by assumption. unfold ObjIdToPathMap.setMap. simpl.
  rewrite map_get_set, decide_False by congruence. reflexivity.
Qed.

Lemma fill_get_some (l : list (ObjId * string)) :
  forall (self : ObjIdToPathMap.t) (id : ObjId) (q : string),
    In (id, q) l ->
    exists q',
      In (id, q') l /\
      ObjIdToPathMap.map_get
        (ObjIdToPathMap.map
           (foldl (fun self '(objId, path) =>
                     ObjIdToPathMap.setMap self (Some objId) (Some path))
                  self l)) (Some id)
      = Some q'.
Proof.
  induction l as [|[id0 p0] rest IH]; intros self id q Hin; simpl;
    [contradiction|].
  destruct (decide (id ∈ rest.*1)) as [Hrest|Hrest].
  - apply list_elem_of_fmap in Hrest.
    destruct Hrest as ([id1 q1] & E & Hin1). simpl in E. subst id1.
    apply list_elem_of_In in Hin1.
    destruct (IH (ObjIdToPathMap.setMap self (Some id0) (Some p0)) id q1 Hin1)
      as (q' & Hin' & Hget).
    exists q'. split; [right; assumption|assumption].
  - destruct Hin as [[= -> ->]|Hin].
    + exists q. split; [left; reflexivity|].
      rewrite fill_get_notin by assumption.
      unfold ObjIdToPathMap.setMap. simpl.
      rewrite map_get_set, decide_True by reflexivity. reflexivity.
    + exfalso. apply Hrest. apply list_elem_of_In in Hin.
      apply (list_elem_of_fmap_2 fst) in Hin. exact Hin.
Qed.

(** C9, as the code has it. The list of a watched tree starts with the
    pair of the root's object id and ["."]; its pairs are those of the
    folders of the tree, each with its path, and there are as many as there
    are folders: a file or a link puts no pair of its own into the list.
    The map filled from the tree has an entry for every folder of the tree,
    at the path of a folder of the tree with that object id, and has no
    other entry; it has the root at ["."] when no folder below the root
    carries the object id of the root, and every folder at its own path
    when the object ids of the folders differ. *)
Theorem recursiveIdAndPathList_lists_the_folders (root : FolderTree) :
  let self := ObjIdToPathMap.fillFromTree ObjIdToPathMap.empty root in
  head (recursiveIdAndPathList root ".") = Some (tree_objId root, ".") /\
  (forall id q, In (id, q) (recursiveIdAndPathList root ".")
                <-> folderAt root "." id q) /\
  length (recursiveIdAndPathList root ".") = countFolders root /\
  (forall id q,
     ObjIdToPathMap.map_get (ObjIdToPathMap.map self) (Some id) = Some q ->
     folderAt root "." id q) /\
  (forall id q, folderAt root "." id q ->
     exists q', folderAt root "." id q' /\ mapsTo self id q') /\
  (tree_objId root ∉ (tail (recursiveIdAndPathList root ".")).*1 ->
   mapsTo self (tree_objId root) ".") /\
  (NoDup (recursiveIdAndPathList root ".").*1 ->
   forall id q, folderAt root "." id q -> mapsTo self id q).
Proof.
  intros self.
  split; [destruct root; reflexivity|].
  split; [apply recursiveIdAndPathList_folders|].
  split; [apply recursiveIdAndPathList_length|].
  split.
  { intros id q H. unfold self, ObjIdToPathMap.fillFromTree in H.
    apply fill_get in H. destruct H as [(id' & [= <-] & Hin) | H].
    - apply recursiveIdAndPathList_folders. assumption.
    - discriminate H. }
  split.
  { intros id q H. apply recursiveIdAndPathList_folders in H.
    destruct (fill_get_some _ ObjIdToPathMap.empty id q H)
      as (q' & Hin & Hget).
    exists q'. split; [|exact Hget].
    apply recursiveIdAndPathList_folders. assumption. }
  split.
  { intros Hroot. unfold mapsTo, self, ObjIdToPathMap.fillFromTree.
    destruct root as [objId items]. simpl in Hroot |- *.
    rewrite fill_get_notin by assumption.
    simpl. rewrite decide_True by reflexivity. reflexivity. }
  intros Hnd id q H. apply recursiveIdAndPathList_folders in H.
  unfold mapsTo, self, ObjIdToPathMap.fillFromTree.
  rewrite fill_entries.
  - simpl. apply map_get_entries; assumption.
  - assumption.
  - intros id' _. simpl. apply not_elem_of_nil.
Qed.

Lemma recursiveIdAndPathList_lists_the_folders_witness :
  (tree_objId watchedTree
   ∉ (tail (recursiveIdAndPathList watchedTree ".")).*1) /\
  NoDup (recursiveIdAndPathList watchedTree ".").*1 /\
  mapsTo watchedMap None "." /\
  mapsTo watchedMap (Some "id-5") "./y".
Proof.
  assert (H1 : tree_objId watchedTree
               ∉ (tail (recursiveIdAndPathList watchedTree ".")).*1).
  { apply (bool_decide_unpack _). vm_compute. exact I. }
  assert (H2 : NoDup (recursiveIdAndPathList watchedTree ".").*1).
  { apply (bool_decide_unpack _). vm_compute. exact I. }
  split; [exact H1|]. split; [exact H2|].
  destruct (recursiveIdAndPathList_lists_the_folders watchedTree)
    as (_ & _ & _ & _ & _ & Hroot & Hall).
  split; [exact (Hroot H1)|].
  apply (Hall H2). unfold watchedTree.
  eapply folderAt_below; [right; right; left; reflexivity|].
  apply (folderAt_here (mkFolderTree (Some "id-5") [])).
Defined.

(** Without the condition on the object id of the root the map need not
    have the root at ["."]: a folder below that carries the id takes the
    entry. *)
Example fillFromTree_with_the_root_id_below :
  ObjIdToPathMap.map
    (ObjIdToPathMap.fillFromTree ObjIdToPathMap.empty
       (mkFolderTree None [ FolderItem "x" (mkFolderTree None []) ]))
  = [ (Some None, Some "./x") ].
Proof. reflexivity. Qed.

(** C9, as the specification has it, fails: the file [f] and the link
    [l] of the folder [x], which the walk goes through, have no entry. *)
Lemma recursiveIdAndPathList_skips_files_and_links :
  recursiveIdAndPathList watchedTree "."
  = [ (None, "."); (Some "id-2", "./x"); (Some "id-5", "./y") ] /\
  leafAt watchedTree "." "id-3" "./x/f" /\
  leafAt watchedTree "." "id-4" "./x/l" /\
  ~ In (Some "id-3", "./x/f") (recursiveIdAndPathList watchedTree ".") /\
  ~ In (Some "id-4", "./x/l") (recursiveIdAndPathList watchedTree ".") /\
  ObjIdToPathMap.map_get (ObjIdToPathMap.map watchedMap) (Some (Some "id-3"))
  = None /\
  ObjIdToPathMap.map_get (ObjIdToPathMap.map watchedMap) (Some (Some "id-4"))
  = None.
Proof.
  split; [reflexivity|].
  split.
  { eapply (leafAt_below _ _ "x"); [right; left; reflexivity|].
    apply (leafAt_file _ _ "f" "id-3" "./x"). left. reflexivity. }
  split.
  { eapply (leafAt_below _ _ "x"); [right; left; reflexivity|].
    apply (leafAt_link _ _ "l" "id-4" "./x"). right. left. reflexivity. }
  split; [simpl; intuition discriminate|].
  split; [simpl; intuition discriminate|].
  split; reflexivity.
Qed.

(** ** Moves between folders of a watched tree *)

(** C3, as the code has it. Let the map have the two folders of a move at
    their paths, and the moved object, a non-root one, as the object that
    it finds at the old path; let the label of the move be a number other
    than 0 with no move pending under it. Then, the removal and the
    addition that share the label being processed in either order, the map
    has the moved object at the new path, no move is pending under the
    label, the two orders end in the same maps, and the paths returned for
    the two events are those of the two folders. *)
Theorem move_events_converge
    (self : ObjIdToPathMap.t) (srcId dstId : ObjId)
    (srcPath dstPath name child : string) (entry : ListingEntry)
    (label : Z) (srcName dstName : string)
    (srcParent dstParent : option ObjId) :
  mapsTo self srcId srcPath -> srcPath <> "" ->
  mapsTo self dstId dstPath -> dstPath <> "" ->
  ObjIdToPathMap.findObjIdByPath self (srcPath +:+ "/" +:+ name)
  = Some (Some child) ->
  child <> "" ->
  label <> 0 ->
  ObjIdToPathMap.moves self !! label = None ->
  let removal := removalEvent srcId name label srcName srcParent in
  let addition := additionEvent dstId entry label dstName dstParent in
  let newPath := dstPath +:+ "/" +:+ le_name entry in
  mapsTo (afterEvents self [ removal; addition ]) (Some child) newPath /\
  mapsTo (afterEvents self [ addition; removal ]) (Some child) newPath /\
  ObjIdToPathMap.moves (afterEvents self [ removal; addition ]) !! label
  = None /\
  afterEvents self [ removal; addition ]
  = afterEvents self [ addition; removal ] /\
  (ObjIdToPathMap.getPathCorrectingTreeMap self removal).1 = Some srcPath /\
  (ObjIdToPathMap.getPathCorrectingTreeMap self addition).1 = Some dstPath.
Proof.
  intros Hsrc Hsne Hdst Hdne Hchild Hcne Hlabel Hpending.
  intros removal addition newPath.
  unfold mapsTo in Hsrc, Hdst.
  assert (Hfinal : forall order,
    order = [ removal; addition ] \/ order = [ addition; removal ] ->
    afterEvents self order
    = ObjIdToPathMap.mk
        (ObjIdToPathMap.map_set (ObjIdToPathMap.map self)
                                (Some (Some child)) (Some newPath))
        (ObjIdToPathMap.moves self)).
  { intros order [-> | ->]; unfold afterEvents, removal, addition,
      removalEvent, additionEvent; simpl;
      unfold ObjIdToPathMap.getPathCorrectingTreeMap; simpl;
      rewrite ?Hsrc, ?Hdst; unfold ObjIdToPathMap.truthyPath;
      rewrite ?bool_decide_eq_false_2 by assumption; simpl;
      rewrite ?bool_decide_eq_false_2 by assumption; simpl.
    - rewrite Hchild. simpl.
      rewrite bool_decide_eq_false_2 by assumption. simpl.
      rewrite Hpending. simpl. rewrite Hdst. simpl.
      rewrite bool_decide_eq_false_2 by assumption.
      rewrite lookup_insert_eq. simpl.
      rewrite delete_insert_id by assumption. reflexivity.
    - rewrite Hpending. simpl. rewrite Hsrc.
      rewrite bool_decide_eq_false_2 by assumption.
      unfold ObjIdToPathMap.findObjIdByPath. simpl.
      unfold ObjIdToPathMap.findObjIdByPath in Hchild. rewrite Hchild.
      simpl. rewrite bool_decide_eq_false_2 by assumption. simpl.
      rewrite lookup_insert_eq. simpl.
      rewrite delete_insert_id by assumption. reflexivity. }
  rewrite (Hfinal [ removal; addition ]) by (left; reflexivity).
  rewrite (Hfinal [ addition; removal ]) by (right; reflexivity).
  unfold mapsTo. simpl. rewrite map_get_set, decide_True by reflexivity.
  repeat split; try assumption.
  - unfold ObjIdToPathMap.getPathCorrectingTreeMap, removal, removalEvent.
    simpl. rewrite Hsrc. simpl.
    rewrite bool_decide_eq_false_2 by assumption. reflexivity.
  - unfold ObjIdToPathMap.getPathCorrectingTreeMap, addition, additionEvent.
    simpl. rewrite Hdst. simpl.
    rewrite bool_decide_eq_false_2 by assumption. reflexivity.
Qed.

(** C3, as the specification has it, fails: the map filled from the tree
    has no entry for a file, so the removal finds no object to move, the
    addition leaves a move pending, and after both events, in either
    order, the map does not have the moved file at all. *)
Lemma move_of_unseen_file_does_not_converge :
  leafAt watchedTree "." "id-3" "./x/f" /\
  (ObjIdToPathMap.getPathCorrectingTreeMap watchedMap moveRemoval).1
  = Some "./x" /\
  (ObjIdToPathMap.getPathCorrectingTreeMap watchedMap moveAddition).1
  = Some "./y" /\
  ObjIdToPathMap.map_get
    (ObjIdToPathMap.map (afterEvents watchedMap [ moveRemoval; moveAddition ]))
    (Some (Some "id-3")) = None /\
  ObjIdToPathMap.map_get
    (ObjIdToPathMap.map (afterEvents watchedMap [ moveAddition; moveRemoval ]))
    (Some (Some "id-3")) = None /\
  ~ mapsTo (afterEvents watchedMap [ moveRemoval; moveAddition ])
           (Some "id-3") "./y/g" /\
  ~ mapsTo (afterEvents watchedMap [ moveAddition; moveRemoval ])
           (Some "id-3") "./y/g" /\
  ObjIdToPathMap.moves (afterEvents watchedMap [ moveRemoval; moveAddition ])
    !! 7
  = Some (ObjIdToPathMap.mkMoveInfo (Some "./y/g") None).
Proof.
  split.
  { eapply (leafAt_below _ _ "x"); [right; left; reflexivity|].
    apply (leafAt_file _ _ "f" "id-3" "./x"). left. reflexivity. }
  repeat split; try reflexivity; unfold mapsTo; vm_compute; congruence.
Qed.

Lemma move_events_converge_witness :
  let seen := afterEvents watchedMap [ fileChanged ] in
  mapsTo seen (Some "id-2") "./x" /\
  mapsTo seen (Some "id-5") "./y" /\
  ObjIdToPathMap.findObjIdByPath seen "./x/f" = Some (Some "id-3") /\
  ObjIdToPathMap.moves seen !! 7 = None /\
  mapsTo (afterEvents seen [ moveRemoval; moveAddition ])
         (Some "id-3") "./y/g" /\
  mapsTo (afterEvents seen [ moveAddition; moveRemoval ])
         (Some "id-3") "./y/g".
Proof.
  intros seen.
  assert (H1 : mapsTo seen (Some "id-2") "./x") by reflexivity.
  assert (H2 : mapsTo seen (Some "id-5") "./y") by reflexivity.
  assert (H3 : ObjIdToPathMap.findObjIdByPath seen ("./x" +:+ "/" +:+ "f")
               = Some (Some "id-3")) by reflexivity.
  assert (H4 : ObjIdToPathMap.moves seen !! 7 = None) by reflexivity.
  assert (N1 : "./x" <> "") by discriminate.
  assert (N2 : "./y" <> "") by discriminate.
  assert (N3 : "id-3" <> "") by discriminate.
  assert (N4 : 7 <> 0) by lia.
  pose proof (move_events_converge seen (Some "id-2") (Some "id-5")
                "./x" "./y" "f" "id-3" (mkListingEntry "g" true false false)
                7 "x" "y" (Some None) (Some None)
                H1 N1 H2 N2 H3 N3 N4 H4) as (C1 & C2 & _).
  repeat split; assumption.
Defined.

(** ** The closed filesystem *)

Lemma closed_root (s : XspFS.Sys) (path : string) :
  V.getRootIfNotClosed (XspFS.v (XspFS.fs (closed s))) path
  = Throw (closedExc path).
Proof. reflexivity. Qed.

Lemma closedExc_keeps_path (path path' : string) :
  setExcPath path' (closedExc path) = closedExc path.
Proof. reflexivity. Qed.

Lemma last_None_nil {A} (l : list A) : last l = None -> l = [].
Proof.
  induction l as [|x l IH]; [reflexivity|]. simpl.
  destruct l; [discriminate|]. intros H. specialize (IH H). discriminate IH.
Qed.

Example Code_has_no_storageClosed : Code_prop "storageClosed" = None.
Proof. reflexivity. Qed.

Ltac unfold_calls :=
  unfold done, XspFS.onV, XspFS.onWorld, XspFS.rootIfNotClosed,
    V.getOrCreateFile, V.get, V.listFolder, V.writeBytes, V.readBytes,
    V.getByteSink, V'.updateXAttrs, V'.getXAttr, V'.listXAttrs,
    V'.writeTxtFile, V'.readTxtFile, V'.writeJSONFile, V'.readJSONFile,
    V'.getByteSource, XspFS.makeFolder, XspFS.deleteFolder,
    XspFS.deleteFile, XspFS.move, XspFS.checkFolderPresence,
    XspFS.checkFilePresence, XspFS.checkLinkPresence, XspFS.checkPresence,
    XspFS.listFolder, XspFS.readBytes, XspFS.writeBytes, XspFS.getByteSink,
    XspFS'.readonlySubRoot, XspFS'.writableSubRoot, XspFS'.select,
    XspFS'.deleteLink, XspFS'.stat, XspFS'.updateXAttrs, XspFS'.getXAttr,
    XspFS'.listXAttrs, XspFS'.readLink, XspFS'.link, XspFS'.getLinkParams,
    XspFS'.watchFolder, XspFS'.watchFile, XspFS'.watchTree,
    XspFS'.readonlyFile, XspFS'.writableFile, XspFS'.getByteSource,
    XspFS'.copyFile, XspFS'.saveFile, XspFS'.readJSONFile,
    XspFS'.readTxtFile, XspFS'.writeJSONFile, XspFS'.writeTxtFile,
    ensureLinkingAllowedTo, XspFS.storage_, orSetExcPath.




(** And on a closed filesystem [writableFile], which takes the [false] of
    that check for a file that is not there, returns a file object. *)
Example closed_writableFile_returns_a_file_object :
  XspFS'.writableFile "/a/b.txt" None (closed newSys)
  = (Ok (makeForNotExisiting "b.txt"
           (XspFS.onV (fun v =>
              V.getOrCreateFile v "/a/b.txt" WRITE_NONEXCL_FLAGS))),
     closed newSys).
Proof. reflexivity. Qed.

(** ** Writing and reading at a path *)

Lemma extends_refl w : extends w w.
Proof. intros id d H. exists d. split; [assumption|auto]. Qed.

Lemma extends_trans w1 w2 w3 : extends w1 w2 -> extends w2 w3 -> extends w1 w3.
Proof.
  intros H12 H23 id d H. destruct (H12 id d H) as (d2 & H2 & E2).
  destruct (H23 id d2 H2) as (d3 & H3 & E3).
  exists d3. split; [assumption|]. intros name info Hl. auto.
Qed.

Lemma lookupEntry_addEntry d info name info' :
  FolderNode.lookupEntry d name = Some info' ->
  FolderNode.lookupEntry (FolderNode.addEntry info d) name = Some info'.
Proof.
  unfold FolderNode.lookupEntry, FolderNode.addEntry. simpl.
  induction (FolderNode.nodes d) as [|x l IH]; simpl; [discriminate|].
  destruct (bool_decide _); [auto|]. assumption.
Qed.

Lemma lookupEntry_addEntry_new d info :
  FolderNode.lookupEntry d (FolderNode.ni_name info) = None ->
  FolderNode.lookupEntry (FolderNode.addEntry info d) (FolderNode.ni_name info)
  = Some info.
Proof.
  unfold FolderNode.lookupEntry, FolderNode.addEntry. simpl.
  induction (FolderNode.nodes d) as [|x l IH]; simpl.
  - rewrite bool_decide_eq_true_2 by reflexivity. reflexivity.
  - destruct (bool_decide _); [discriminate|]. assumption.
Qed.

Lemma b64value_digit (d : N) :
  (d < 64)%N -> b64value (Storage.b64digit d) = d.
Proof.
  intros H. destruct d as [|p]; [reflexivity|].
  do 6 (destruct p as [p|p|]; try reflexivity); lia.
Qed.

Lemma digitsValue_digits (width : nat) : forall n : N,
  (n < 64 ^ N.of_nat width)%N ->
  digitsValue (Storage.digits width n) = n.
Proof.
  induction width as [|width IH]; intros n Hn.
  - simpl in *. lia.
  - cbn [Storage.digits digitsValue].
    rewrite b64value_digit by (apply N.mod_lt; lia).
    rewrite IH.
    + rewrite (N.div_mod n 64) at 3 by lia. lia.
    + rewrite Nat2N.inj_succ, N.pow_succ_r' in Hn.
      apply N.Div0.div_lt_upper_bound. lia.
Qed.

Lemma newId_width (n : N) :
  (n < 64 ^ N.of_nat (Nat.max 32 (S (N.to_nat (N.log2 n / 6)))))%N.
Proof.
  destruct (N.eq_dec n 0%N) as [->|Hn0].
  { apply N.neq_0_lt_0. apply N.pow_nonzero. lia. }
  eapply N.lt_le_trans; [apply (N.log2_spec n); lia|].
  change 64%N with (2 ^ 6)%N. rewrite <- N.pow_mul_r.
  apply N.pow_le_mono_r; [lia|].
  pose proof (N.div_mod (N.log2 n) 6%N ltac:(lia)) as Hd.
  pose proof (N.mod_lt (N.log2 n) 6%N ltac:(lia)) as Hm.
  lia.
Qed.

Lemma newId_value (n : N) : digitsValue (Storage.newId n) = n.
Proof. apply digitsValue_digits, newId_width. Qed.

Lemma newId_inj (n m : N) : Storage.newId n = Storage.newId m -> n = m.
Proof.
  intros E. rewrite <- (newId_value n), <- (newId_value m), E. reflexivity.
Qed.

Lemma newId_nonempty (n : N) : Storage.newId n <> "".
Proof.
  unfold Storage.newId.
  destruct (Nat.max 32 (S (N.to_nat (N.log2 n / 6)))) eqn:E; [lia|].
  discriminate.
Qed.

Lemma newId_fresh (w : World) (id : string) :
  generatedId w id ->
  id <> Storage.newId (Storage.generated (storage w)).
Proof.
  intros (k & -> & Hk) E. apply newId_inj in E. lia.
Qed.

Lemma walk_nocreate_state parts : forall this excl w r w',
  FolderOps.getFolderInThisSubTree this parts false excl w = (r, w') ->
  w' = w.
Proof.
  induction parts as [|name rest IH]; intros this excl w r w'; simpl.
  - unfold_M. congruence.
  - unfold theFolder. unfold_M.
    destruct (folders w !! this) as [d|]; [|congruence].
    destruct (FolderNode.lookupEntry d name) as [info|]; [|congruence].
    destruct (bool_decide _); [|congruence].
    simpl. apply IH.
Qed.

Lemma walk_nocreate_extends parts : forall this w f w2,
  FolderOps.getFolderInThisSubTree this parts false false w = (Ok f, w) ->
  extends w w2 ->
  FolderOps.getFolderInThisSubTree this parts false false w2 = (Ok f, w2).
Proof.
  induction parts as [|name rest IH]; intros this w f w2; simpl.
  - unfold_M. congruence.
  - unfold theFolder. unfold_M. intros H Hext.
    destruct (folders w !! this) as [d|] eqn:Hd; [|discriminate].
    destruct (Hext this d Hd) as (d2 & Hd2 & Hentries). rewrite Hd2.
    destruct (FolderNode.lookupEntry d name) as [info|] eqn:Hl;
      [|discriminate].
    rewrite (Hentries name info Hl).
    destruct (bool_decide _); [|discriminate].
    simpl in *. eapply IH; eassumption.
Qed.

Lemma sameBase_refl w : sameBase w w.
Proof. repeat split; lia. Qed.

Lemma sameBase_trans w1 w2 w3 :
  sameBase w1 w2 -> sameBase w2 w3 -> sameBase w1 w3.
Proof.
  intros (A1 & A2 & A3) (B1 & B2 & B3). repeat split; try congruence; lia.
Qed.

Lemma generatedId_mono w w' id :
  sameBase w w' -> generatedId w id -> generatedId w' id.
Proof.
  intros (_ & _ & Hg) (k & -> & Hk). exists k. split; [reflexivity|lia].
Qed.

Lemma createFolder_ok this name w r w1 :
  FolderOps.createFolder this name w = (r, w1) ->
  wfFolders w ->
  forall d, folders w !! this = Some d ->
  let id := Storage.newId (Storage.generated (storage w)) in
  r = Ok (Some id) /\
  Some id <> this /\
  folders w1 !! this
  = Some (FolderNode.addEntry (FolderNode.mkNodeInfo name id nt_folder) d) /\
  folders w1 !! Some id = Some (FolderNode.mk name (Some id) 0 (Some this) []) /\
  files w1 = files w /\
  wfFolders w1 /\ extends w w1 /\ sameBase w w1.
Proof.
  intros H Hwf d Hd id.
  unfold FolderOps.createFolder, theFolder, onStorage, setFolder,
    Storage.generateNewObjId in H. unfold_M.
  rewrite Hd in H. simpl in H.
  injection H as <- <-. simpl.
  assert (Hne : Some id <> this).
  { intros <-. apply (newId_fresh w id); [|reflexivity].
    apply Hwf. exists d. exact Hd. }
  split; [reflexivity|]. split; [assumption|].
  split; [apply lookup_insert_eq|].
  split; [rewrite lookup_insert_ne by congruence; apply lookup_insert_eq|].
  split; [reflexivity|].
  split; [|split].
  - intros id' [d' Hd']. simpl in Hd'.
    destruct (decide (this = Some id')) as [->|Hn1].
    + destruct (Hwf id') as (k & -> & Hk); [exists d; exact Hd|].
      exists k. split; [reflexivity|]. simpl. lia.
    + rewrite lookup_insert_ne in Hd' by assumption.
      destruct (decide (Some id = Some id')) as [[= <-]|Hn2].
      * exists (Storage.generated (storage w)).
        split; [reflexivity|]. simpl. lia.
      * rewrite lookup_insert_ne in Hd' by assumption.
        destruct (Hwf id') as (k & -> & Hk); [exists d'; exact Hd'|].
        exists k. split; [reflexivity|]. simpl. lia.
  - intros id' d' Hd'. simpl.
    destruct (decide (this = id')) as [<-|Hn1].
    + rewrite lookup_insert_eq. eexists. split; [reflexivity|].
      intros n i Hl. rewrite Hd in Hd'. injection Hd' as <-.
      apply lookupEntry_addEntry. assumption.
    + rewrite lookup_insert_ne by assumption.
      destruct (decide (Some id = id')) as [<-|Hn2].
      * exfalso. apply (newId_fresh w id); [|reflexivity].
        apply Hwf. exists d'. exact Hd'.
      * rewrite lookup_insert_ne by assumption.
        exists d'. split; [assumption|auto].
  - repeat split; simpl; lia.
Qed.

Lemma walk_create parts : forall this cr w f w',
  FolderOps.getFolderInThisSubTree this parts cr false w = (Ok f, w') ->
  wfFolders w ->
  wfFolders w' /\ extends w w' /\ sameBase w w' /\ files w' = files w /\
  FolderOps.getFolderInThisSubTree this parts false false w' = (Ok f, w').
Proof.
  induction parts as [|name rest IH]; intros this cr w f w'; simpl.
  - unfold_M. intros [= <- <-] Hwf.
    repeat split; auto using extends_refl; lia.
  - unfold theFolder. unfold_M. intros H Hwf.
    destruct (folders w !! this) as [d|] eqn:Hd; [|discriminate].
    destruct (FolderNode.lookupEntry d name) as [info|] eqn:Hl.
    + destruct (bool_decide (FolderNode.ni_type info = nt_folder)) eqn:Hk;
        [|discriminate].
      rewrite andb_false_r in H. simpl in H.
      destruct (IH _ _ _ _ _ H Hwf) as (Hwf' & Hext & Hbase & Hfiles & Hwalk).
      repeat split; try assumption; try apply Hbase.
      destruct (Hext this d Hd) as (d' & Hd' & Hentries).
      rewrite Hd', (Hentries name info Hl), Hk. simpl. assumption.
    + destruct cr; [|discriminate].
      destruct (FolderOps.createFolder this name w) as [r w1] eqn:Hc.
      destruct (createFolder_ok _ _ _ _ _ Hc Hwf d Hd)
        as (-> & Hne & Hthis & Hchild & Hfiles1 & Hwf1 & Hext1 & Hbase1).
      destruct (IH _ _ _ _ _ H Hwf1) as (Hwf' & Hext & Hbase & Hfiles & Hwalk).
      split; [assumption|].
      split; [eapply extends_trans; eassumption|].
      split; [eapply sameBase_trans; eassumption|].
      split; [congruence|].
      destruct (Hext this _ Hthis) as (d' & Hd' & Hentries).
      rewrite Hd'.
      set (id := Storage.newId (Storage.generated (storage w))) in *.
      rewrite (Hentries name (FolderNode.mkNodeInfo name id nt_folder)).
      * simpl. assumption.
      * apply (lookupEntry_addEntry_new d
                 (FolderNode.mkNodeInfo name id nt_folder)). assumption.
Qed.

Lemma walk_to_new_folder parts : forall this cr w f w' d,
  parts <> [] ->
  wfFolders w ->
  folders w !! this = Some d ->
  FolderNode.nodes d = [] ->
  FolderOps.getFolderInThisSubTree this parts cr false w = (Ok f, w') ->
  exists fid d',
    f = Some fid /\ folders w' !! f = Some d' /\ FolderNode.nodes d' = [].
Proof.
  induction parts as [|name rest IH]; intros this cr w f w' d Hne Hwf Hd Hnil;
    [congruence|].
  simpl. unfold theFolder. unfold_M. rewrite Hd.
  unfold FolderNode.lookupEntry. rewrite Hnil. simpl.
  destruct cr; [|discriminate].
  destruct (FolderOps.createFolder this name w) as [r w1] eqn:Hc.
  destruct (createFolder_ok _ _ _ _ _ Hc Hwf d Hd)
    as (-> & Hne' & Hthis & Hchild & Hfiles1 & Hwf1 & Hext1 & Hbase1).
  intros H. destruct rest as [|name' rest'].
  - simpl in H. unfold_M. injection H as <- <-.
    eexists _, _. split; [reflexivity|]. split; [exact Hchild|reflexivity].
  - eapply IH; [discriminate|exact Hwf1|exact Hchild|reflexivity|exact H].
Qed.

Lemma bind_ok {S A B} (m : M S A) (k : A -> M S B) s a s' :
  m s = (Ok a, s') -> (m ≫= k) s = k a s'.
Proof. unfold mbind, M_bind. intros ->. reflexivity. Qed.

Lemma bind_throw {S A B} (m : M S A) (k : A -> M S B) s e s' :
  m s = (Throw e, s') -> (m ≫= k) s = (Throw e, s').
Proof. unfold mbind, M_bind. intros ->. reflexivity. Qed.

Lemma bind_inv {S A B} (m : M S A) (k : A -> M S B) s b s2 :
  (m ≫= k) s = (Ok b, s2) ->
  exists a s1, m s = (Ok a, s1) /\ k a s1 = (Ok b, s2).
Proof.
  unfold mbind, M_bind. destruct (m s) as [[a|e] s1]; [eauto|discriminate].
Qed.

Lemma orSetExcPath_inv {S A} path (m : M S A) s a s' :
  orSetExcPath path m s = (Ok a, s') -> m s = (Ok a, s').
Proof.
  unfold orSetExcPath, catch, throw.
  destruct (m s) as [[a'|e] s1]; [auto|discriminate].
Qed.

Lemma orSetExcPath_ok {S A} path (m : M S A) s a s' :
  m s = (Ok a, s') -> orSetExcPath path m s = (Ok a, s').
Proof. unfold orSetExcPath, catch. intros ->. reflexivity. Qed.

Lemma theFolder_ok (w : World) (id : ObjId) (d : FolderNode.t) :
  folders w !! id = Some d -> theFolder id w = (Ok d, w).
Proof. unfold theFolder. intros ->. reflexivity. Qed.

Lemma generatedId_nonempty w id : generatedId w id -> id <> "".
Proof. intros (k & -> & _). apply newId_nonempty. Qed.

Lemma makeNewRoot_wf st t : wfFolders (XspFS.world (XspFS.makeNewRoot st t)).
Proof.
  intros id [d Hd]. simpl in Hd.
  rewrite lookup_singleton_ne in Hd by discriminate. discriminate.
Qed.

Lemma getFile_missing this name nullOnMissing w d r w' :
  folders w !! this = Some d ->
  name ≫= FolderNode.lookupEntry d = None ->
  FolderOps.getFile this name nullOnMissing w = (Ok r, w') ->
  nullOnMissing = true /\ r = None /\ w' = w.
Proof.
  intros Hd Hl. unfold FolderOps.getFile.
  rewrite (bind_ok _ _ _ _ _ (theFolder_ok _ _ _ Hd)), Hl.
  destruct nullOnMissing; [|discriminate].
  intros [= <- <-]. auto.
Qed.

Lemma loadFile_loaded this info w node :
  files w !! FolderNode.ni_objId info = Some node ->
  FolderOps.loadFile this info w = (Ok (FolderNode.ni_objId info), w).
Proof.
  intros Hf. unfold FolderOps.loadFile.
  erewrite bind_ok; [|reflexivity]. cbn beta. rewrite Hf. reflexivity.
Qed.

Lemma getFile_found this name w d f node :
  folders w !! this = Some d ->
  FolderNode.lookupEntry d name = Some (FolderNode.mkNodeInfo name f nt_file) ->
  files w !! f = Some node ->
  FolderOps.getFile this (Some name) false w = (Ok (Some f), w).
Proof.
  intros Hd Hl Hf. unfold FolderOps.getFile.
  rewrite (bind_ok _ _ _ _ _ (theFolder_ok _ _ _ Hd)).
  change (Some name ≫= FolderNode.lookupEntry d)
    with (FolderNode.lookupEntry d name).
  rewrite Hl. cbn [FolderNode.ni_type].
  rewrite bool_decide_eq_true_2 by reflexivity.
  erewrite bind_ok; [|apply (loadFile_loaded _ _ _ node); exact Hf].
  reflexivity.
Qed.

Lemma createFile_new this name excl w d f w' :
  folders w !! this = Some d ->
  name ≫= FolderNode.lookupEntry d = None ->
  FolderOps.createFile this name excl w = (Ok f, w') ->
  exists fid n,
    this = Some fid /\ name = Some n /\
    (fid <> "" ->
     f = Storage.newId (Storage.generated (storage w)) /\
     w' = withNewFile w fid n d).
Proof.
  intros Hd Hl. unfold FolderOps.createFile.
  rewrite (bind_ok _ _ _ _ _ (theFolder_ok _ _ _ Hd)), Hl.
  erewrite bind_ok; [|reflexivity].
  unfold onStorage, FileNode.makeForNew.
  destruct this as [fid|]; [|intros H; discriminate H].
  destruct name as [n|].
  - intros H. exists fid, n. split; [reflexivity|]. split; [reflexivity|].
    intros Hfid. revert H. cbn [falsy].
    rewrite bool_decide_eq_false_2 by assumption.
    unfold Storage.generateNewObjId, FileNode.construct, putFile, setFolder.
    unfold_M. cbn [falsy default storage folders files now fst snd].
    destruct (bool_decide (n = "")); cbn [orb]; [intros H; discriminate H|].
    destruct (bool_decide (Storage.newId (Storage.generated (storage w)) = ""));
      cbn [orb]; [intros H; discriminate H|].
    destruct (idToHeaderNonce _); [|intros H; discriminate H].
    intros [= <- <-]. split; reflexivity.
  - cbn [falsy]. destruct (bool_decide (fid = "")); intros H; discriminate H.
Qed.

(** The file that [getOrCreateFile] gives on a new filesystem is a new
    file in a folder that the walk has made; the world after has the file
    under its name in that folder, and the walk finds the folder again. *)
Lemma getOrCreateFile_on_new_filesystem st t path flags f w1 :
  V.getOrCreateFile (V.mk (Some None)) path flags
    (XspFS.world (XspFS.makeNewRoot st t)) = (Ok f, w1) ->
  exists folderPath name fid d,
    split path = (folderPath, Some name) /\
    FolderOps.getFolderInThisSubTree None folderPath false false w1
    = (Ok (Some fid), w1) /\
    folders w1 !! Some fid = Some d /\
    FolderNode.lookupEntry d name
    = Some (FolderNode.mkNodeInfo name f nt_file) /\
    files w1 !! f
    = Some (FileNode.mk name f 0 (Some fid) (mkCommonAttrs t t) None 0 []) /\
    now w1 = t /\
    Storage.type (storage w1) = Storage.type st.
Proof.
  assert (Hwf0 : wfFolders (XspFS.world (XspFS.makeNewRoot st t)))
    by apply makeNewRoot_wf.
  assert (Hroot : folders (XspFS.world (XspFS.makeNewRoot st t)) !! None
                  = Some FolderOps.newRoot) by apply lookup_singleton_eq.
  assert (Hnow0 : now (XspFS.world (XspFS.makeNewRoot st t)) = t)
    by reflexivity.
  assert (Hst0 : storage (XspFS.world (XspFS.makeNewRoot st t)) = st)
    by reflexivity.
  generalize dependent (XspFS.world (XspFS.makeNewRoot st t)).
  intros w0 Hwf0 Hroot Hnow0 Hst0.
  unfold V.getOrCreateFile.
  destruct (split path) as [folderPath fileName] eqn:Hsplit.
  intros H.
  apply bind_inv in H. destruct H as (root & wr & Hr & H).
  injection Hr as <- <-.
  apply bind_inv in H. destruct H as (folder & wa & Hwalk & H).
  apply orSetExcPath_inv in Hwalk.
  apply bind_inv in H. destruct H as (file & wb & Hget & H).
  apply orSetExcPath_inv in Hget.
  destruct (walk_create _ _ _ _ _ _ Hwalk Hwf0)
    as (Hwfa & Hexta & Hbasea & Hfilesa & Hwalka).
  assert (Hempty : exists d,
             folders wa !! folder = Some d /\ FolderNode.nodes d = [] /\
             (folderPath <> [] -> exists fid, folder = Some fid)).
  { destruct (decide (folderPath = [])) as [->|Hparts].
    - simpl in Hwalk. injection Hwalk as <- <-.
      exists FolderOps.newRoot. split; [exact Hroot|].
      split; [reflexivity|congruence].
    - destruct (walk_to_new_folder folderPath None _ w0 folder wa
                  FolderOps.newRoot Hparts Hwf0 Hroot eq_refl Hwalk)
        as (fid & d & -> & Hd & Hnil).
      exists d. split; [exact Hd|]. split; [exact Hnil|]. eauto. }
  destruct Hempty as (d & Hd & Hnil & _).
  assert (Hlook : fileName ≫= FolderNode.lookupEntry d = None).
  { destruct fileName as [n|]; [|reflexivity]. simpl.
    unfold FolderNode.lookupEntry. rewrite Hnil. reflexivity. }
  destruct (getFile_missing _ _ _ _ _ _ _ Hd Hlook Hget) as (_ & -> & ->).
  destruct (createFile_new _ _ _ _ _ _ _ Hd Hlook H)
    as (fid & name & -> & -> & Hnew).
  assert (Hfid : fid <> "").
  { apply (generatedId_nonempty wa). apply Hwfa. exists d. exact Hd. }
  destruct (Hnew Hfid) as (-> & ->). clear Hnew.
  destruct Hbasea as (Hnow & Htype & _).
  rewrite Hnow0 in Hnow. rewrite Hst0 in Htype.
  exists folderPath, name, fid.
  eexists. split; [reflexivity|].
  split.
  { eapply walk_nocreate_extends; [exact Hwalka|].
    intros id' d' Hd'. unfold withNewFile. simpl.
    destruct (decide (Some fid = id')) as [<-|Hn].
    - rewrite lookup_insert_eq. eexists. split; [reflexivity|].
      intros n i Hl. rewrite Hd in Hd'. injection Hd' as <-.
      apply lookupEntry_addEntry. assumption.
    - rewrite lookup_insert_ne by assumption.
      exists d'. split; [assumption|auto]. }
  split; [apply lookup_insert_eq|].
  split.
  { apply (lookupEntry_addEntry_new d (FolderNode.mkNodeInfo name _ nt_file)).
    exact Hlook. }
  split; [unfold withNewFile; simpl; rewrite lookup_insert_eq, Hnow;
          reflexivity|].
  split; [exact Hnow|]. exact Htype.
Qed.

Lemma persistance_readBytes_whole version attrs xattrs bytes :
  FilePersistance.readBytes
    (mkObjSource version (mkPayload attrs xattrs bytes)) None None false
  = Ok (FilePersistance.mkBytesAndAttrs (bytesRead bytes) None).
Proof.
  unfold FilePersistance.readBytes, FilePersistance.checkBound. unfold_M.
  unfold NodePersistance.readonlyPayload, NodePersistance.size,
    NodePersistance.readSomeContentBytes. simpl.
  rewrite Z.min_id. destruct bytes as [|b bytes]; [reflexivity|].
  rewrite bool_decide_eq_false_2 by (simpl length; lia).
  rewrite Z.sub_0_r, Nat2Z.id. simpl drop. rewrite firstn_all. reflexivity.
Qed.

Lemma save_new_file w f name fid t bytes :
  files w !! f
  = Some (FileNode.mk name f 0 (Some fid) (mkCommonAttrs t t) None 0 []) ->
  onFile f (FileNode.save bytes None) w
  = (Ok 1, withSavedFile w f name fid t bytes).
Proof.
  intros Hf. unfold onFile. rewrite Hf.
  unfold withSavedFile. reflexivity.
Qed.

Lemma read_saved_file w f name fid t bytes :
  onFile f (FileNode.readBytes None None) (withSavedFile w f name fid t bytes)
  = (Ok (bytesRead bytes,
         if FileNode.versioned (Storage.type (storage w)) then Some 1
         else None),
     withSavedFile w f name fid t bytes).
Proof.
  unfold onFile, withSavedFile. simpl. rewrite lookup_insert_eq.
  unfold FileNode.readBytes.
  erewrite bind_ok;
    [|erewrite bind_ok; [|reflexivity]; cbn beta;
      unfold FileNode.onStorage, Storage.getObj; simpl;
      rewrite lookup_insert_eq; reflexivity].
  erewrite bind_ok; [|reflexivity]. simpl.
  destruct (FileNode.versioned (Storage.type (storage w))).
  - erewrite bind_ok; [|reflexivity]. simpl.
    rewrite persistance_readBytes_whole. simpl.
    rewrite insert_insert_eq. reflexivity.
  - rewrite persistance_readBytes_whole. simpl.
    rewrite insert_insert_eq. reflexivity.
Qed.

(** C1, as the code has it. On a new filesystem, after a [writeBytes] of
    the bytes [B] at the path [P] that has succeeded, with whatever flags,
    the write has returned the version 1, and [readBytes(P)] returns the
    bytes [B], or [undefined] when [B] has no bytes, with the version 1,
    or [undefined] when the storage has no versions; the read changes
    nothing. *)
Theorem write_then_read_on_new_filesystem
    (st : Storage.t) (t : Z) (path : string) (bytes : list byte)
    (flags : option FileFlags) (version : Z) (w1 : World) :
  let fs := XspFS.makeNewRoot st t in
  V.writeBytes (XspFS.v (XspFS.fs fs)) path bytes flags (XspFS.world fs)
  = (Ok version, w1) ->
  version = 1 /\
  V.readBytes (XspFS.v (XspFS.fs fs)) path None None w1
  = (Ok (bytesRead bytes,
         if FileNode.versioned (Storage.type st) then Some 1 else None),
     w1).
Proof.
  intros fs Hwrite. unfold V.writeBytes in Hwrite.
  apply bind_inv in Hwrite. destruct Hwrite as (f & w' & Hfile & Hsave).
  apply getOrCreateFile_on_new_filesystem in Hfile.
  destruct Hfile
    as (folderPath & name & fid & d & Hsplit & Hwalk & Hd & Hl & Hf
        & Hnow & Htype).
  rewrite (save_new_file _ _ _ _ _ _ Hf) in Hsave.
  injection Hsave as <- <-. split; [reflexivity|].
  unfold V.readBytes.
  erewrite bind_ok.
  2: { unfold V.getOrCreateFile. rewrite Hsplit.
       erewrite bind_ok; [|reflexivity].
       erewrite bind_ok.
       2: { apply orSetExcPath_ok.
            eapply walk_nocreate_extends; [exact Hwalk|].
            intros id' d' Hd'. exists d'. split; [exact Hd'|auto]. }
       erewrite bind_ok.
       2: { apply orSetExcPath_ok.
            eapply (getFile_found _ _ _ d); [exact Hd|exact Hl|].
            apply lookup_insert_eq. }
       reflexivity. }
  rewrite read_saved_file, Htype. reflexivity.
Qed.

Lemma write_then_read_on_new_filesystem_witness :
  let v := XspFS.v (XspFS.fs newSys) in
  let w1 := (V.writeBytes v "/a/b.txt" someBytes None (XspFS.world newSys)).2 in
  V.writeBytes v "/a/b.txt" someBytes None (XspFS.world newSys) = (Ok 1, w1) /\
  V.readBytes v "/a/b.txt" None None w1 = (Ok (Some someBytes, Some 1), w1).
Proof.
  intros v w1.
  assert (H : V.writeBytes v "/a/b.txt" someBytes None (XspFS.world newSys)
              = (Ok 1, w1)) by (vm_compute; reflexivity).
  split; [exact H|].
  exact (proj2 (write_then_read_on_new_filesystem
                  newStorage 100 "/a/b.txt" someBytes None 1 w1 H)).
Defined.

(** C1, as the specification has it, fails: after a write of no bytes the
    read returns [undefined] for the bytes, not the empty array. *)
Lemma write_then_read_of_no_bytes_returns_undefined :
  let v := XspFS.v (XspFS.fs newSys) in
  let w1 := (V.writeBytes v "/a/e" [] None (XspFS.world newSys)).2 in
  V.writeBytes v "/a/e" [] None (XspFS.world newSys) = (Ok 1, w1) /\
  (V.readBytes v "/a/e" None None w1).1 = Ok (None, Some 1) /\
  ~ ((V.readBytes v "/a/e" None None w1).1 = Ok (Some [], Some 1)).
Proof.
  intros v w1.
  split; [vm_compute; reflexivity|].
  split; [vm_compute; reflexivity|].
  vm_compute. discriminate.
Qed.

(** ** More on file exceptions *)

Lemma setPath_makeFileException code path0 path cause :
  setPath path (makeFileException code path0 cause)
  = makeFileException code path cause.
Proof.
  unfold makeFileException.
  repeat (match goal with
          | |- context [if codeIs code ?k' then _ else _] =>
              destruct (codeIs code k')
          end); reflexivity.
Qed.

Lemma makeFileException_base code path cause :
  runtimeException (makeFileException code path cause) = true /\
  exc_code (makeFileException code path cause) = code /\
  exc_path (makeFileException code path cause) = path.
Proof.
  unfold makeFileException.
  repeat (match goal with
          | |- context [if codeIs code ?k' then _ else _] =>
              destruct (codeIs code k')
          end); repeat split; reflexivity.
Qed.

Lemma dropChars_app (prefix p : string) :
  dropChars (String.length prefix) (prefix +:+ p) = p.
Proof. induction prefix as [|c prefix IH]; simpl; [reflexivity|exact IH]. Qed.

Lemma dropChars_dropChars (n m : nat) (s : string) :
  dropChars m (dropChars n s) = dropChars (n + m) s.
Proof.
  revert s. induction n as [|n IH]; intros s; simpl; [reflexivity|].
  destruct s as [|c s]; [destruct m; reflexivity|]. apply IH.
Qed.

Lemma Code_truthy (k : CodeKey) : falsy (Some (Code k)) = false.
Proof. destruct k; reflexivity. Qed.

(** X1. Masking with the length of a prefix takes the prefix off the path
    of an exception that has a code of the table, and changes nothing
    else of it; an exception without a code, as the ones for a version
    mismatch and for missing attributes, and a plain error keep their path
    whole. *)
Theorem maskPathInExc_takes_the_prefix_off
    (k : CodeKey) (prefix p : string) (cause : option Cause) (n : Z)
    (msg : string) :
  maskPathInExc (Z.of_nat (String.length prefix))
    (FileExn (makeFileException (Some (Code k)) (prefix +:+ p) cause))
  = FileExn (makeFileException (Some (Code k)) p cause) /\
  maskPathInExc n (FileExn (makeVersionMismatchExc (prefix +:+ p)))
  = FileExn (makeVersionMismatchExc (prefix +:+ p)) /\
  maskPathInExc n (FileExn (makeNoAttrsExc (prefix +:+ p)))
  = FileExn (makeNoAttrsExc (prefix +:+ p)) /\
  maskPathInExc n (JsError msg) = JsError msg.
Proof.
  split; [|repeat split; reflexivity].
  unfold maskPathInExc.
  destruct (makeFileException_base (Some (Code k)) (prefix +:+ p) cause)
    as (-> & -> & ->).
  rewrite Code_truthy. simpl negb. simpl orb.
  unfold substring. rewrite Nat2Z.id, dropChars_app.
  rewrite setPath_makeFileException. reflexivity.
Qed.

(** X2. Masking twice, with lengths that are not negative, is masking once
    with their sum. *)
Theorem maskPathInExc_twice (n m : Z) (exc : Exn) :
  0 <= n -> 0 <= m ->
  maskPathInExc m (maskPathInExc n exc) = maskPathInExc (n + m) exc.
Proof.
  intros Hn Hm. destruct exc as [msg|e]; [reflexivity|].
  unfold maskPathInExc.
  destruct (negb (runtimeException e) || falsy (exc_code e)) eqn:E.
  - rewrite E. reflexivity.
  - simpl. rewrite E. unfold substring.
    rewrite dropChars_dropChars, Z2Nat.inj_add by assumption.
    reflexivity.
Qed.

Lemma maskPathInExc_twice_witness :
  0 <= 2 /\ 0 <= 3 /\
  maskPathInExc 3
    (maskPathInExc 2
       (FileExn (makeFileException (Some "ENOENT") "/apps/x/f" None)))
  = FileExn (makeFileException (Some "ENOENT") "/x/f" None).
Proof.
  assert (H2 : 0 <= 2) by lia. assert (H3 : 0 <= 3) by lia.
  split; [exact H2|]. split; [exact H3|].
  rewrite (maskPathInExc_twice 2 3 _ H2 H3). reflexivity.
Defined.

Lemma flag_pathBearing (code : option string) path cause :
  (notFound (makeFileException code path cause)
   || notDirectory (makeFileException code path cause)
   || alreadyExists (makeFileException code path cause)
   || notFile (makeFileException code path cause))
  = codeIs code k_notFound || codeIs code k_notDirectory
    || codeIs code k_alreadyExists || codeIs code k_notFile.
Proof.
  change (notFound (makeFileException code path cause))
    with (flag k_notFound (makeFileException code path cause)).
  change (notDirectory (makeFileException code path cause))
    with (flag k_notDirectory (makeFileException code path cause)).
  change (alreadyExists (makeFileException code path cause))
    with (flag k_alreadyExists (makeFileException code path cause)).
  change (notFile (makeFileException code path cause))
    with (flag k_notFile (makeFileException code path cause)).
  rewrite !makeFileException_flag. reflexivity.
Qed.

(** X3. [setExcPath(path)] gives its path to the exceptions that
    [makeFileException] makes for not-found, not-directory, already-exists
    and not-file, and to no other: an exception of another code of the
    table, an exception without a code and a plain error go on as they
    came. *)
Theorem setExcPath_on_made_exceptions
    (k : CodeKey) (path path0 : string) (cause : option Cause)
    (msg : string) :
  setExcPath path (FileExn (makeFileException (Some (Code k)) path0 cause))
  = FileExn (makeFileException (Some (Code k))
               (if pathBearing k then path else path0) cause) /\
  setExcPath path (FileExn (makeFileException None path0 cause))
  = FileExn (makeFileException None path0 cause) /\
  setExcPath path (FileExn (makeVersionMismatchExc path0))
  = FileExn (makeVersionMismatchExc path0) /\
  setExcPath path (JsError msg) = JsError msg.
Proof.
  split; [|repeat split; reflexivity].
  unfold setExcPath. rewrite flag_pathBearing.
  destruct k; simpl; rewrite ?setPath_makeFileException; reflexivity.
Qed.

(** ** More on paths *)

Lemma splitPathIntoParts_fold (path : string) :
  splitPathIntoParts path
  = foldl posix.normalizeStep [] (posix.splitOn "/" path).
Proof.
  unfold splitPathIntoParts, posix.resolve_from_root, posix.normalizeString.
  rewrite normalized_segments. apply split_resolved.
  apply foldl_normalizeStep_proper; [apply splitOn_segments|constructor].
Qed.

Lemma splitPathIntoParts_proper (path : string) :
  Forall properPart (splitPathIntoParts path).
Proof.
  rewrite splitPathIntoParts_fold.
  apply foldl_normalizeStep_proper; [apply splitOn_segments|constructor].
Qed.

Lemma normalizeStep_properPart res part :
  properPart part -> posix.normalizeStep res part = res ++ [ part ].
Proof.
  intros (H1 & H2 & H3 & _). unfold posix.normalizeStep.
  rewrite !decide_False by assumption. reflexivity.
Qed.

Lemma foldl_normalizeStep_properParts parts : forall res,
  Forall properPart parts ->
  foldl posix.normalizeStep res parts = res ++ parts.
Proof.
  induction parts as [|part parts IH]; intros res Hp; simpl.
  - rewrite app_nil_r. reflexivity.
  - inversion Hp; subst. rewrite normalizeStep_properPart by assumption.
    rewrite IH by assumption. rewrite <- app_assoc. reflexivity.
Qed.

Lemma resolve_from_root_parts (path : string) :
  posix.resolve_from_root path
  = "/" +:+ posix.join "/" (splitPathIntoParts path).
Proof.
  rewrite splitPathIntoParts_fold.
  unfold posix.resolve_from_root, posix.normalizeString.
  rewrite normalized_segments. reflexivity.
Qed.

Lemma splitPathIntoParts_of_parts (parts : list string) :
  Forall properPart parts ->
  splitPathIntoParts ("/" +:+ posix.join "/" parts) = parts.
Proof.
  intros Hp. rewrite splitPathIntoParts_fold.
  change ("/" +:+ posix.join "/" parts)
    with ("" +:+ String "/" (posix.join "/" parts)).
  rewrite splitOn_app. simpl.
  destruct parts as [|p rest]; [reflexivity|].
  rewrite splitOn_join.
  - apply (foldl_normalizeStep_properParts (p :: rest) []). assumption.
  - discriminate.
  - eapply Forall_impl; [exact Hp|]. intros x Hx. apply Hx.
Qed.

(** X4. The path that [posix.resolve('/', path)] gives is resolved: to
    resolve it again changes nothing, and its parts are the parts of the
    path; so two paths with the same parts are one path for every method
    of the filesystem. *)
Theorem resolved_path_is_a_normal_form (path : string) :
  posix.resolve_from_root (posix.resolve_from_root path)
  = posix.resolve_from_root path /\
  splitPathIntoParts (posix.resolve_from_root path)
  = splitPathIntoParts path.
Proof.
  assert (E : splitPathIntoParts (posix.resolve_from_root path)
              = splitPathIntoParts path).
  { rewrite resolve_from_root_parts. apply splitPathIntoParts_of_parts.
    apply splitPathIntoParts_proper. }
  split; [|exact E].
  rewrite (resolve_from_root_parts (posix.resolve_from_root path)), E.
  symmetry. apply resolve_from_root_parts.
Qed.

(** X5. A slash before a path, a slash after it and a slash doubled
    within it change nothing of its parts: a relative path is read as the
    absolute one. *)
Theorem slashes_do_not_matter (path rest : string) :
  splitPathIntoParts ("/" +:+ path) = splitPathIntoParts path /\
  splitPathIntoParts (path +:+ "/") = splitPathIntoParts path /\
  splitPathIntoParts (path +:+ "/" +:+ "/" +:+ rest)
  = splitPathIntoParts (path +:+ "/" +:+ rest).
Proof.
  rewrite !splitPathIntoParts_fold. split; [|split].
  - change ("/" +:+ path) with ("" +:+ String "/" path).
    rewrite splitOn_app. reflexivity.
  - change (path +:+ "/") with (path +:+ String "/" "").
    rewrite splitOn_app, foldl_app. reflexivity.
  - change (path +:+ "/" +:+ "/" +:+ rest)
      with (path +:+ String "/" ("" +:+ String "/" rest)).
    change (path +:+ "/" +:+ rest) with (path +:+ String "/" rest).
    rewrite !splitOn_app, !foldl_app. reflexivity.
Qed.

Lemma splitPathIntoParts_child (path name : string) :
  properPart name ->
  splitPathIntoParts (path +:+ "/" +:+ name)
  = splitPathIntoParts path ++ [ name ].
Proof.
  intros Hname. rewrite !splitPathIntoParts_fold.
  change (path +:+ "/" +:+ name) with (path +:+ String "/" name).
  rewrite splitOn_app, foldl_app.
  rewrite (splitOn_no_sep "/" name) by apply Hname.
  simpl. apply normalizeStep_properPart. assumption.
Qed.

(** X6. The path of the child [name] of the folder at [path], as
    [copyFolder] writes it, has the parts of [path] and then [name], and
    [split] gives the parts of [path] as the folder and [name] as the name
    in it, for a name that can be a part: one that is not empty, ["."] or
    [".."] and has no slash. *)
Theorem path_of_a_child (path name : string) :
  properPart name ->
  splitPathIntoParts (path +:+ "/" +:+ name)
  = splitPathIntoParts path ++ [ name ] /\
  split (path +:+ "/" +:+ name) = (splitPathIntoParts path, Some name).
Proof.
  intros Hname.
  pose proof (splitPathIntoParts_child path name Hname) as E.
  split; [exact E|].
  unfold split. rewrite E.
  rewrite removelast_last, last_snoc. reflexivity.
Qed.

Lemma path_of_a_child_witness :
  properPart "b.txt" /\
  splitPathIntoParts ("/a/./x/.." +:+ "/" +:+ "b.txt") = [ "a"; "b.txt" ] /\
  split ("/a/./x/.." +:+ "/" +:+ "b.txt") = ([ "a" ], Some "b.txt").
Proof.
  assert (H : properPart "b.txt").
  { repeat split; try discriminate. }
  split; [exact H|].
  exact (path_of_a_child "/a/./x/.." "b.txt" H).
Defined.

(** X7. [".."] after a path takes the last part of the path away, and at
    the root it changes nothing: no path leads above the root of the
    filesystem. *)
Theorem dot_dot_goes_to_the_parent (path : string) :
  splitPathIntoParts (path +:+ "/..")
  = removelast (splitPathIntoParts path) /\
  splitPathIntoParts "/.." = [] /\
  splitPathIntoParts (path +:+ "/.") = splitPathIntoParts path.
Proof.
  rewrite !splitPathIntoParts_fold. split; [|split].
  - change (path +:+ "/..") with (path +:+ String "/" "..").
    rewrite splitOn_app, foldl_app. reflexivity.
  - reflexivity.
  - change (path +:+ "/.") with (path +:+ String "/" ".").
    rewrite splitOn_app, foldl_app. reflexivity.
Qed.

(** ** More on reading bytes *)

Lemma bytesRead_nonempty (l : list byte) : l <> [] -> bytesRead l = Some l.
Proof. destruct l; [congruence|reflexivity]. Qed.

Lemma slice_length (l : list byte) (a b : Z) :
  0 <= a -> b <= Z.of_nat (length l) ->
  Z.of_nat (length (slice l a b)) = Z.max 0 (b - a).
Proof.
  intros Ha Hb. unfold slice. rewrite length_take, length_drop. lia.
Qed.

Lemma persistance_readBytes_from objSrc s end_ getAttrs :
  0 <= s -> okBound end_ ->
  FilePersistance.readBytes objSrc (Some s) end_ getAttrs
  = Ok (FilePersistance.mkBytesAndAttrs
          (bytesRead
             (slice (p_content (os_payload objSrc)) s
                (Z.min (NodePersistance.size (os_payload objSrc))
                   (default (NodePersistance.size (os_payload objSrc))
                            end_))))
          (if getAttrs then Some (FilePersistance.getAttrs objSrc)
           else None)).
Proof.
  intros Hs Hend.
  set (content := p_content (os_payload objSrc)).
  set (size := NodePersistance.size (os_payload objSrc)).
  assert (Hsize : size = Z.of_nat (length content)) by reflexivity.
  unfold FilePersistance.readBytes, FilePersistance.checkBound. unfold_M.
  rewrite bool_decide_eq_false_2 by lia.
  assert (Hempty : forall e, e <= s \/ size <= s -> slice content s e = []).
  { intros e He. unfold slice.
    destruct (decide (size <= s)).
    - rewrite drop_ge by lia. apply take_nil.
    - replace (Z.to_nat (e - s)) with 0%nat by lia. reflexivity. }
  assert (Hfull : forall e, s < e <= size ->
            bytesRead (slice content s e) = Some (slice content s e)).
  { intros e He. apply bytesRead_nonempty. intros Hnil.
    pose proof (slice_length content s e Hs ltac:(lia)) as Hl.
    rewrite Hnil in Hl. simpl in Hl. lia. }
  destruct end_ as [e|]; simpl.
  - specialize (Hend e eq_refl).
    rewrite bool_decide_eq_false_2 by lia.
    unfold NodePersistance.readonlyPayload. fold size. fold content.
    destruct (bool_decide (s >= size)) eqn:E1.
    + apply bool_decide_eq_true in E1.
      rewrite Hempty by lia. reflexivity.
    + apply bool_decide_eq_false in E1.
      destruct (bool_decide (Z.min size e <= s)) eqn:E2.
      * apply bool_decide_eq_true in E2. rewrite Hempty by lia. reflexivity.
      * apply bool_decide_eq_false in E2. rewrite Hfull by lia. reflexivity.
  - unfold NodePersistance.readonlyPayload. fold size. fold content.
    rewrite Z.min_id.
    destruct (bool_decide (s >= size)) eqn:E1.
    + apply bool_decide_eq_true in E1.
      rewrite Hempty by lia. reflexivity.
    + apply bool_decide_eq_false in E1. rewrite Hfull by lia. reflexivity.
Qed.

(** X8. A read from [start] to [end], both not negative, returns the
    bytes of the content from [start] up to the smaller of [end] and the
    size, the size standing for an [end] that is absent; it returns
    [undefined], never an empty array, when there are no such bytes; and
    the bytes returned are as many as that bound is above [start]. *)
Theorem persistance_readBytes_returns_the_slice
    (objSrc : ObjSource) (s : Z) (end_ : option Z) (getAttrs : bool) :
  0 <= s -> okBound end_ ->
  let content := p_content (os_payload objSrc) in
  let size := NodePersistance.size (os_payload objSrc) in
  let upTo := Z.min size (default size end_) in
  FilePersistance.readBytes objSrc (Some s) end_ getAttrs
  = Ok (FilePersistance.mkBytesAndAttrs
          (bytesRead (slice content s upTo))
          (if getAttrs then Some (FilePersistance.getAttrs objSrc)
           else None)) /\
  bytesRead (slice content s upTo) <> Some [] /\
  Z.of_nat (length (slice content s upTo)) = Z.max 0 (upTo - s).
Proof.
  intros Hs Hend content size upTo.
  split; [apply persistance_readBytes_from; assumption|].
  split.
  - destruct (slice content s upTo); discriminate.
  - apply slice_length; [assumption|]. unfold upTo, size, content.
    unfold NodePersistance.size. lia.
Qed.

Lemma persistance_readBytes_all objSrc end_ getAttrs :
  okBound end_ ->
  FilePersistance.readBytes objSrc None end_ getAttrs
  = Ok (FilePersistance.mkBytesAndAttrs
          (bytesRead (p_content (os_payload objSrc)))
          (if getAttrs then Some (FilePersistance.getAttrs objSrc)
           else None)).
Proof.
  intros Hend.
  unfold FilePersistance.readBytes, FilePersistance.checkBound. unfold_M.
  assert (Hchk : match end_ with
                 | Some n => if bool_decide (n < 0)
                             then @Throw unit (JsError
                               ("Parameter " +:+ "end" +:+ " has bad value: "
                                +:+ pretty n))
                             else Ok tt
                 | None => Ok tt
                 end = Ok tt).
  { destruct end_ as [e|]; [|reflexivity].
    rewrite bool_decide_eq_false_2; [reflexivity|].
    specialize (Hend e eq_refl). lia. }
  rewrite Hchk. cbn beta iota.
  unfold NodePersistance.readonlyPayload, NodePersistance.size,
    NodePersistance.readSomeContentBytes.
  rewrite Z.min_id.
  destruct (p_content (os_payload objSrc)) as [|b content] eqn:Hc.
  - reflexivity.
  - rewrite bool_decide_eq_false_2 by (simpl length; lia).
    rewrite Z.sub_0_r, Nat2Z.id. simpl drop. rewrite firstn_all.
    reflexivity.
Qed.

(** X9. When [start] is absent the [end] that is given is not read: the
    read returns the whole content, as the read without bounds does. *)
Theorem persistance_readBytes_without_start_ignores_end
    (objSrc : ObjSource) (end_ : option Z) (getAttrs : bool) :
  okBound end_ ->
  FilePersistance.readBytes objSrc None end_ getAttrs
  = FilePersistance.readBytes objSrc None None getAttrs /\
  FilePersistance.readBytes objSrc None end_ getAttrs
  = Ok (FilePersistance.mkBytesAndAttrs
          (bytesRead (p_content (os_payload objSrc)))
          (if getAttrs then Some (FilePersistance.getAttrs objSrc)
           else None)).
Proof.
  intros Hend.
  rewrite (persistance_readBytes_all objSrc end_) by assumption.
  rewrite (persistance_readBytes_all objSrc None) by (intros n [=]).
  split; reflexivity.
Qed.

Lemma take_add {A} (n m : nat) (l : list A) :
  take (n + m) l = take n l ++ take m (drop n l).
Proof.
  revert l. induction n as [|n IH]; intros l; simpl; [reflexivity|].
  destruct l as [|x l]; simpl; [rewrite take_nil; reflexivity|].
  rewrite IH. reflexivity.
Qed.

Lemma slice_app (l : list byte) (a b c : Z) :
  0 <= a <= b -> b <= c ->
  slice l a b ++ slice l b c = slice l a c.
Proof.
  intros Hab Hbc. unfold slice.
  replace (Z.to_nat (c - a))
    with (Z.to_nat (b - a) + Z.to_nat (c - b))%nat by lia.
  rewrite take_add, drop_drop.
  replace (Z.to_nat a + Z.to_nat (b - a))%nat with (Z.to_nat b) by lia.
  reflexivity.
Qed.

Lemma bytesOf_bytesRead (l : list byte) fa :
  bytesOf (Ok (FilePersistance.mkBytesAndAttrs (bytesRead l) fa)) = l.
Proof. destruct l; reflexivity. Qed.

(** X10. Reads of ranges that follow one another give, one after the
    other, the bytes of the read of the whole range, [undefined] counting
    as no bytes: a file can be read in chunks. *)
Theorem persistance_readBytes_in_chunks
    (objSrc : ObjSource) (a b c : Z) (getAttrs : bool) :
  0 <= a <= b -> b <= c ->
  bytesOf (FilePersistance.readBytes objSrc (Some a) (Some b) getAttrs)
  ++ bytesOf (FilePersistance.readBytes objSrc (Some b) (Some c) getAttrs)
  = bytesOf (FilePersistance.readBytes objSrc (Some a) (Some c) getAttrs).
Proof.
  intros Hab Hbc.
  rewrite !persistance_readBytes_from
    by (try lia; intros n [= <-]; lia).
  rewrite !bytesOf_bytesRead. simpl default.
  set (content := p_content (os_payload objSrc)).
  set (size := NodePersistance.size (os_payload objSrc)).
  assert (Hsize : size = Z.of_nat (length content)) by reflexivity.
  destruct (decide (b <= size)) as [Hb|Hb].
  - rewrite (Z.min_r size b) by lia. apply slice_app; lia.
  - rewrite (Z.min_l size b), (Z.min_l size c) by lia.
    assert (E : slice content b size = []).
    { unfold slice. replace (Z.to_nat (size - b)) with 0%nat by lia.
      reflexivity. }
    rewrite E, app_nil_r. reflexivity.
Qed.

Lemma persistance_readBytes_returns_the_slice_witness :
  0 <= 1 /\ okBound (Some 7) /\
  FilePersistance.readBytes
    (mkObjSource 1 (mkPayload (mkCommonAttrs 0 0) None someBytes))
    (Some 1) (Some 7) false
  = Ok (FilePersistance.mkBytesAndAttrs (Some [ Byte.x65 ]) None).
Proof.
  assert (H1 : 0 <= 1) by lia.
  assert (H2 : okBound (Some 7)) by (intros n [= <-]; lia).
  split; [exact H1|]. split; [exact H2|].
  exact (proj1 (persistance_readBytes_returns_the_slice
                  (mkObjSource 1 (mkPayload (mkCommonAttrs 0 0) None
                                            someBytes))
                  1 (Some 7) false H1 H2)).
Defined.

Lemma persistance_readBytes_without_start_ignores_end_witness :
  okBound (Some 1) /\
  FilePersistance.readBytes
    (mkObjSource 1 (mkPayload (mkCommonAttrs 0 0) None someBytes))
    None (Some 1) false
  = Ok (FilePersistance.mkBytesAndAttrs (Some someBytes) None).
Proof.
  assert (H : okBound (Some 1)) by (intros n [= <-]; lia).
  split; [exact H|].
  exact (proj2 (persistance_readBytes_without_start_ignores_end
                  (mkObjSource 1 (mkPayload (mkCommonAttrs 0 0) None
                                            someBytes))
                  (Some 1) false H)).
Defined.

Lemma persistance_readBytes_in_chunks_witness :
  0 <= 0 <= 1 /\ 1 <= 2 /\
  bytesOf (FilePersistance.readBytes
             (mkObjSource 1 (mkPayload (mkCommonAttrs 0 0) None someBytes))
             (Some 0) (Some 1) false)
  ++ bytesOf (FilePersistance.readBytes
                (mkObjSource 1 (mkPayload (mkCommonAttrs 0 0) None someBytes))
                (Some 1) (Some 2) false)
  = someBytes.
Proof.
  assert (H1 : 0 <= 0 <= 1) by lia.
  assert (H2 : 1 <= 2) by lia.
  split; [exact H1|]. split; [exact H2|].
  rewrite (persistance_readBytes_in_chunks
             (mkObjSource 1 (mkPayload (mkCommonAttrs 0 0) None someBytes))
             0 1 2 false H1 H2).
  reflexivity.
Defined.

(** ** More on file nodes *)

Lemma persistance_readBytes_ok objSrc start end_ :
  okBound start -> okBound end_ ->
  exists bytes, forall getAttrs,
    FilePersistance.readBytes objSrc start end_ getAttrs
    = Ok (FilePersistance.mkBytesAndAttrs bytes
            (if getAttrs then Some (FilePersistance.getAttrs objSrc)
             else None)).
Proof.
  intros Hs He. destruct start as [s|].
  - eexists. intros ga. apply persistance_readBytes_from; auto.
  - eexists. intros ga. apply persistance_readBytes_all; auto.
Qed.

Lemma refreshed_holds c objSrc :
  holdsObj c objSrc -> holdsObj (refreshed c objSrc) objSrc.
Proof.
  unfold holdsObj, refreshed. destruct (_ && _); auto.
Qed.

Lemma refreshed_again c objSrc :
  refreshed (refreshed c objSrc) objSrc = refreshed c objSrc.
Proof.
  unfold refreshed.
  destruct (FileNode.versioned (Storage.type (FileNode.storage c))) eqn:V;
    simpl; [|rewrite V; reflexivity].
  destruct (bool_decide (FileNode.version (FileNode.this c)
                         < os_version objSrc)) eqn:B; simpl.
  - rewrite V. simpl. rewrite bool_decide_eq_false_2 by lia. reflexivity.
  - rewrite V, B. reflexivity.
Qed.

Lemma node_readBytes_ok c objSrc start end_ bytes :
  holdsObj c objSrc ->
  (forall getAttrs,
     FilePersistance.readBytes objSrc start end_ getAttrs
     = Ok (FilePersistance.mkBytesAndAttrs bytes
             (if getAttrs then Some (FilePersistance.getAttrs objSrc)
              else None))) ->
  FileNode.readBytes start end_ c
  = (Ok (bytes, versionRead c objSrc), refreshed c objSrc).
Proof.
  intros Hobj Hread.
  unfold FileNode.readBytes, versionRead, refreshed. unfold_M.
  rewrite (getObj_holds c objSrc Hobj). rewrite !Hread.
  destruct (FileNode.versioned _); simpl; [|reflexivity].
  destruct (bool_decide _); reflexivity.
Qed.

(** X11. A read of a node whose object the store holds, with bounds that
    are not negative, returns the bytes that the read of the object gives
    and the version of the object in the store; it never changes the
    store; it changes the node only to bring a node that was behind up to
    the store; and the same read again returns the same and changes
    nothing. *)
Theorem node_readBytes_refreshes_once
    (c : FileNode.Ctx) (objSrc : ObjSource) (start end_ : option Z) :
  holdsObj c objSrc -> okBound start -> okBound end_ ->
  exists bytes,
    FilePersistance.readBytes objSrc start end_ false
    = Ok (FilePersistance.mkBytesAndAttrs bytes None) /\
    FileNode.readBytes start end_ c
    = (Ok (bytes, versionRead c objSrc), refreshed c objSrc) /\
    FileNode.storage (refreshed c objSrc) = FileNode.storage c /\
    (FileNode.version (FileNode.this c) >= os_version objSrc ->
     refreshed c objSrc = c) /\
    FileNode.readBytes start end_ (refreshed c objSrc)
    = (Ok (bytes, versionRead c objSrc), refreshed c objSrc).
Proof.
  intros Hobj Hs He.
  destruct (persistance_readBytes_ok objSrc start end_ Hs He)
    as (bytes & Hread).
  exists bytes. split; [apply (Hread false)|].
  split; [apply node_readBytes_ok; assumption|].
  split; [unfold refreshed; destruct (_ && _); reflexivity|].
  split.
  { intros Hv. unfold refreshed.
    rewrite (bool_decide_eq_false_2 (_ < _)) by lia.
    rewrite andb_false_r. reflexivity. }
  rewrite (node_readBytes_ok _ objSrc start end_ bytes)
    by auto using refreshed_holds.
  rewrite refreshed_again. f_equal. f_equal. f_equal.
  unfold versionRead, refreshed. destruct (_ && _); reflexivity.
Qed.

Lemma node_readBytes_refreshes_once_witness :
  holdsObj emptyFileCtx emptyObj /\ okBound (Some 0) /\ okBound (Some 4) /\
  FileNode.readBytes (Some 0) (Some 4) emptyFileCtx
  = (Ok (None, Some 1), emptyFileCtx).
Proof.
  assert (H1 : holdsObj emptyFileCtx emptyObj) by reflexivity.
  assert (H2 : okBound (Some 0)) by (intros n [= <-]; lia).
  assert (H3 : okBound (Some 4)) by (intros n [= <-]; lia).
  split; [exact H1|]. split; [exact H2|]. split; [exact H3|].
  destruct (node_readBytes_refreshes_once emptyFileCtx emptyObj
              (Some 0) (Some 4) H1 H2 H3) as (bytes & Hp & Hn & _).
  rewrite Hn. vm_compute in Hp. injection Hp as <-. reflexivity.
Defined.

Lemma save_effect c bytes changes :
  FileNode.save bytes changes c
  = (Ok (FileNode.version (FileNode.this c) + 1), afterSave c bytes changes).
Proof. destruct c as [f st t]. reflexivity. Qed.

Lemma afterSave_holds c bytes changes :
  holdsObj (afterSave c bytes changes)
    (mkObjSource (FileNode.version (FileNode.this c) + 1)
       (mkPayload
          (mkCommonAttrs (ctime (FileNode.attrs (FileNode.this c)))
                         (FileNode.now c))
          (FileNode.applyXAttrsChanges
             (FileNode.xattrs (FileNode.this c)) changes)
          bytes)).
Proof. unfold holdsObj, afterSave. simpl. apply lookup_insert_eq. Qed.

(** X12. A save returns the version of the node plus one, which is the
    version of the node after it and of the object that it puts into the
    store, whatever the store held for the node before; the node has the
    number of the bytes as its size and has broadcast one more event, the
    change of the file to that version; and a read after the save returns
    the range asked of the bytes saved, with that version where the storage
    has versions, and changes nothing. *)
Theorem save_then_read
    (c : FileNode.Ctx) (bytes : list byte) (changes : option XAttrsChanges)
    (s : Z) (end_ : option Z) :
  0 <= s -> okBound end_ ->
  let version := FileNode.version (FileNode.this c) + 1 in
  let c' := afterSave c bytes changes in
  let size := Z.of_nat (length bytes) in
  FileNode.save bytes changes c = (Ok version, c') /\
  FileNode.version (FileNode.this c') = version /\
  FileNode.size (FileNode.this c') = size /\
  FileNode.events (FileNode.this c')
  = FileNode.events (FileNode.this c)
    ++ [ mkEvent (FileChange version) (FileNode.name (FileNode.this c)) ] /\
  FileNode.readBytes None None c'
  = (Ok (bytesRead bytes,
         if FileNode.versioned (Storage.type (FileNode.storage c))
         then Some version else None), c') /\
  FileNode.readBytes (Some s) end_ c'
  = (Ok (bytesRead (slice bytes s (Z.min size (default size end_))),
         if FileNode.versioned (Storage.type (FileNode.storage c))
         then Some version else None), c').
Proof.
  intros Hs Hend version c' size.
  split; [apply save_effect|].
  split; [reflexivity|]. split; [reflexivity|]. split; [reflexivity|].
  pose proof (afterSave_holds c bytes changes) as Hobj.
  set (objSrc := mkObjSource _ _) in Hobj.
  assert (Hsame : refreshed c' objSrc = c').
  { unfold refreshed. simpl.
    rewrite (bool_decide_eq_false_2 (_ < _)) by lia.
    rewrite andb_false_r. reflexivity. }
  split.
  - erewrite node_readBytes_ok; [|exact Hobj|].
    2: { intros ga. apply persistance_readBytes_all. intros n [=]. }
    rewrite Hsame. reflexivity.
  - erewrite node_readBytes_ok; [|exact Hobj|].
    2: { intros ga. apply persistance_readBytes_from; assumption. }
    rewrite Hsame. reflexivity.
Qed.

Lemma save_then_read_witness :
  0 <= 1 /\ okBound (Some 5) /\
  FileNode.readBytes (Some 1) (Some 5) (afterSave emptyFileCtx someBytes None)
  = (Ok (Some [ Byte.x65 ], Some 2), afterSave emptyFileCtx someBytes None).
Proof.
  assert (H1 : 0 <= 1) by lia.
  assert (H2 : okBound (Some 5)) by (intros n [= <-]; lia).
  split; [exact H1|]. split; [exact H2|].
  destruct (save_then_read emptyFileCtx someBytes None 1 (Some 5) H1 H2)
    as (_ & _ & _ & _ & _ & H).
  exact H.
Defined.

(** ** More on writing through a sink *)

Lemma writeSink_ok_params c truncate currentVersion changes w v c1 :
  FileNode.writeSink truncate currentVersion changes c = (Ok (w, v), c1) ->
  FileNode.w_attrs w
  = mkCommonAttrs (ctime (FileNode.attrs (FileNode.this c))) (FileNode.now c)
  /\
  FileNode.w_xattrs w
  = FileNode.applyXAttrsChanges (FileNode.xattrs (FileNode.this c)) changes.
Proof.
  unfold FileNode.writeSink, FileNode.doChange,
    FileNode.startMakingSinkInsideChange, FileNode.getParamsForUpdate.
  unfold_M.
  destruct (match currentVersion with
            | Some cv => bool_decide (FileNode.version (FileNode.this c) ≠ cv)
            | None => false
            end); [discriminate|].
  destruct (default false truncate
            || bool_decide (FileNode.version (FileNode.this c) = 0)).
  - intros [= <- <- <-]. simpl. split; reflexivity.
  - unfold FileNode.onStorage, Storage.getObj.
    destruct (Storage.objs (FileNode.storage c)
              !! FileNode.objId (FileNode.this c)); [|discriminate].
    destruct c as [f st n]. simpl.
    intros [= <- <- <-]. simpl. split; reflexivity.
Qed.

Lemma writeAll_keeps (writes : list FileNode.SinkWrite) w :
  FileNode.completion (writeAll writes w) = FileNode.completion w /\
  FileNode.newSize (writeAll writes w) = FileNode.newSize w /\
  NodePersistance.doneCalls (FileNode.sink (writeAll writes w))
  = NodePersistance.doneCalls (FileNode.sink w) /\
  FileNode.w_newVersion (writeAll writes w) = FileNode.w_newVersion w /\
  FileNode.w_attrs (writeAll writes w) = FileNode.w_attrs w /\
  FileNode.w_xattrs (writeAll writes w) = FileNode.w_xattrs w.
Proof.
  unfold writeAll. revert w.
  induction writes as [|wr writes IH]; intros w; simpl.
  - repeat split; reflexivity.
  - destruct (IH (FileNode.write wr w)) as (H1 & H2 & H3 & H4 & H5 & H6).
    rewrite H1, H2, H3, H4, H5, H6. destruct wr; repeat split; reflexivity.
Qed.

Lemma done_commits c w :
  FileNode.completion w = None ->
  FileNode.newSize w = None ->
  NodePersistance.doneCalls (FileNode.sink w) = [] ->
  exists w',
    FileNode.done None (w, c)
    = (Ok tt,
       (w',
        FileNode.mkCtx
          (FileNode.mk (FileNode.name (FileNode.this c))
             (FileNode.objId (FileNode.this c)) (FileNode.w_newVersion w)
             (FileNode.parentId (FileNode.this c)) (FileNode.w_attrs w)
             (FileNode.w_xattrs w)
             (Z.of_nat (length (NodePersistance.sinkBytes (FileNode.sink w))))
             (FileNode.events (FileNode.this c)
              ++ [ mkEvent (FileChange (FileNode.w_newVersion w))
                           (FileNode.name (FileNode.this c)) ]))
          (Storage.mk (Storage.type (FileNode.storage c))
             (<[ FileNode.objId (FileNode.this c) :=
                   mkObjSource (FileNode.w_newVersion w)
                     (mkPayload (FileNode.w_attrs w) (FileNode.w_xattrs w)
                        (NodePersistance.sinkBytes (FileNode.sink w))) ]>
                (Storage.objs (FileNode.storage c)))
             (Storage.rootObj (FileNode.storage c))
             (Storage.generated (FileNode.storage c))
             (Storage.closed (FileNode.storage c)))
          (FileNode.now c))) /\
    FileNode.completion w' = Some (Ok tt).
Proof.
  intros Hc Hn Hd.
  destruct w as [[sb dc] wa wx wv ns cp]. simpl in *. subst.
  destruct c as [f st t]. eexists. split; reflexivity.
Qed.

Lemma done_after_completion err c w :
  FileNode.completion w = Some (Ok tt) ->
  exists w', FileNode.done err (w, c) = (Ok tt, (w', c)) /\
             FileNode.completion w' = Some (Ok tt).
Proof.
  intros Hc.
  destruct w as [[sb dc] wa wx wv ns cp]. simpl in *. subst.
  destruct err as [e|]; eexists; split; reflexivity.
Qed.

(** X13. When the caller of [writeSink] ends the sink with [done()], after
    whatever writes, the node and the store are as after a [save] of the
    bytes that the sink holds then, with the same changes of the extended
    attributes: the version that [writeSink] returned is the version of the
    node and of the stored object, which is one more than before; until
    then [writeSink] has changed neither; and a further call of [done], with
    an error or without, changes nothing. *)
Theorem writeSink_done_commits
    (c c1 : FileNode.Ctx) (truncate : option bool)
    (currentVersion : option Z) (changes : option XAttrsChanges)
    (w : FileNode.Writing) (v : Z) (writes : list FileNode.SinkWrite) :
  FileNode.writeSink truncate currentVersion changes c = (Ok (w, v), c1) ->
  let w1 := writeAll writes w in
  let c2 := afterSave c (NodePersistance.sinkBytes (FileNode.sink w1))
                      changes in
  c1 = c /\
  v = FileNode.version (FileNode.this c) + 1 /\
  FileNode.version (FileNode.this c2) = v /\
  exists w2,
    FileNode.done None (w1, c1) = (Ok tt, (w2, c2)) /\
    forall err, exists w3, FileNode.done err (w2, c2) = (Ok tt, (w3, c2)).
Proof.
  intros H w1 c2.
  destruct (writeSink_ok_inv _ _ _ _ _ _ _ H)
    as (-> & Hc & Hn & Hd & -> & Hv).
  destruct (writeSink_ok_params _ _ _ _ _ _ _ H) as (Ha & Hx).
  destruct (writeAll_keeps writes w) as (K1 & K2 & K3 & K4 & K5 & K6).
  fold w1 in K1, K2, K3, K4, K5, K6.
  split; [reflexivity|]. split; [reflexivity|]. split; [reflexivity|].
  destruct (done_commits c w1) as (w2 & Hdone & Hcomp);
    [congruence|congruence|congruence|].
  exists w2. split.
  - rewrite Hdone. rewrite K4, K5, K6, Hv, Ha, Hx. reflexivity.
  - intros err. destruct (done_after_completion err c2 w2 Hcomp) as (w3 & E & _).
    exists w3. exact E.
Qed.

Lemma writeSink_done_commits_witness :
  FileNode.writeSink (Some true) (Some 1) None emptyFileCtx
  = (Ok (emptyFileWriting, 2), emptyFileCtx) /\
  exists w2,
    FileNode.done None
      (writeAll [ FileNode.Splice 0 0 someBytes ] emptyFileWriting,
       emptyFileCtx)
    = (Ok tt, (w2, afterSave emptyFileCtx someBytes None)).
Proof.
  assert (H : FileNode.writeSink (Some true) (Some 1) None emptyFileCtx
              = (Ok (emptyFileWriting, 2), emptyFileCtx)) by reflexivity.
  split; [exact H|].
  destruct (writeSink_done_commits
              emptyFileCtx emptyFileCtx (Some true) (Some 1) None
              emptyFileWriting 2 [ FileNode.Splice 0 0 someBytes ] H)
    as (_ & _ & _ & w2 & E & _).
  exists w2. exact E.
Defined.

Lemma writeSink_opens c objSrc currentVersion changes :
  holdsObj c objSrc ->
  (forall cv, currentVersion = Some cv ->
              cv = FileNode.version (FileNode.this c)) ->
  FileNode.version (FileNode.this c) <> 0 ->
  FileNode.writeSink None currentVersion changes c
  = (Ok (FileNode.mkWriting
           (NodePersistance.mkSink (p_content (os_payload objSrc)) [])
           (mkCommonAttrs (ctime (FileNode.attrs (FileNode.this c)))
                          (FileNode.now c))
           (FileNode.applyXAttrsChanges
              (FileNode.xattrs (FileNode.this c)) changes)
           (FileNode.version (FileNode.this c) + 1) None None,
         FileNode.version (FileNode.this c) + 1), c).
Proof.
  intros Hobj Hcv Hv0.
  unfold FileNode.writeSink, FileNode.doChange,
    FileNode.startMakingSinkInsideChange, FileNode.getParamsForUpdate.
  unfold_M.
  assert (E : match currentVersion with
              | Some cv =>
                  bool_decide (FileNode.version (FileNode.this c) ≠ cv)
              | None => false
              end = false).
  { destruct currentVersion as [cv|]; [|reflexivity].
    apply bool_decide_eq_false_2. rewrite (Hcv cv eq_refl). tauto. }
  rewrite E. simpl default.
  rewrite (bool_decide_eq_false_2 _ Hv0). simpl orb. cbv iota.
  unfold FileNode.onStorage, Storage.getObj.
  unfold holdsObj in Hobj.
  destruct c as [f st n]. simpl in *. rewrite Hobj. reflexivity.
Qed.

(** X14. A sink that is opened without [truncate] on a file that has a
    version starts from the bytes that the store holds for the file: a
    splice of no deletion at their end, and [done()], leave node and store
    as a [save] of the old bytes followed by the new ones does. *)
Theorem writeSink_appends
    (c : FileNode.Ctx) (objSrc : ObjSource) (currentVersion : option Z)
    (changes : option XAttrsChanges) (bytes : list byte) :
  holdsObj c objSrc ->
  (forall cv, currentVersion = Some cv ->
              cv = FileNode.version (FileNode.this c)) ->
  FileNode.version (FileNode.this c) <> 0 ->
  let old := p_content (os_payload objSrc) in
  exists w w',
    FileNode.writeSink None currentVersion changes c
    = (Ok (w, FileNode.version (FileNode.this c) + 1), c) /\
    NodePersistance.sinkBytes (FileNode.sink w) = old /\
    FileNode.done None
      (FileNode.write (FileNode.Splice (Z.of_nat (length old)) 0 bytes) w, c)
    = (Ok tt, (w', afterSave c (old ++ bytes) changes)).
Proof.
  intros Hobj Hcv Hv0 old.
  pose proof (writeSink_opens c objSrc currentVersion changes Hobj Hcv Hv0)
    as Hopen.
  eexists. eexists. split; [exact Hopen|]. split; [reflexivity|].
  unfold FileNode.done, FileNode.write, FileNode.onSink,
    NodePersistance.splice. simpl.
  fold old.
  rewrite Z.add_0_r, Nat2Z.id, firstn_all, drop_all, app_nil_r.
  destruct c as [f st n]. reflexivity.
Qed.

Lemma writeSink_appends_witness :
  holdsObj (afterSave emptyFileCtx someBytes None)
    (mkObjSource 2 (mkPayload (mkCommonAttrs 0 0) None someBytes)) /\
  (forall cv, Some 2 = Some cv ->
     cv = FileNode.version
            (FileNode.this (afterSave emptyFileCtx someBytes None))) /\
  FileNode.version (FileNode.this (afterSave emptyFileCtx someBytes None))
  <> 0 /\
  exists w w',
    FileNode.writeSink None (Some 2) None
      (afterSave emptyFileCtx someBytes None)
    = (Ok (w, 3), afterSave emptyFileCtx someBytes None) /\
    FileNode.done None (FileNode.write (FileNode.Splice 2 0 someBytes) w,
                        afterSave emptyFileCtx someBytes None)
    = (Ok tt,
       (w', afterSave (afterSave emptyFileCtx someBytes None)
              (someBytes ++ someBytes) None)).
Proof.
  assert (H1 : holdsObj (afterSave emptyFileCtx someBytes None)
                 (mkObjSource 2 (mkPayload (mkCommonAttrs 0 0) None
                                           someBytes))) by reflexivity.
  assert (H2 : forall cv, Some 2 = Some cv ->
     cv = FileNode.version
            (FileNode.this (afterSave emptyFileCtx someBytes None)))
    by (intros cv [= <-]; reflexivity).
  assert (H3 : FileNode.version
                 (FileNode.this (afterSave emptyFileCtx someBytes None))
               <> 0) by (simpl; lia).
  split; [exact H1|]. split; [exact H2|]. split; [exact H3|].
  destruct (writeSink_appends _ _ (Some 2) None someBytes H1 H2 H3)
    as (w & w' & E1 & _ & E2).
  exists w, w'. split; [exact E1|exact E2].
Defined.

(** ** More on the making of file nodes *)

Lemma idToHeaderNonce_nonempty (objId : string) :
  idToHeaderNonce objId = Ok tt -> objId <> "".
Proof. intros H ->. discriminate H. Qed.

(** X15. [makeForExisting] of an object that the store holds, with a
    parent and a name that are not empty and an object id that has the
    form of a header nonce, gives a node that is up to date with the store
    and leaves the store as it was: the node has the version of the object,
    the size of its content and its attributes, and a read through it
    changes nothing in it. *)
Theorem makeForExisting_is_up_to_date
    (st : Storage.t) (parentId : option string) (fileName objId : string)
    (objSrc : ObjSource) (now : Z) (start end_ : option Z) :
  falsy parentId = false -> fileName <> "" ->
  idToHeaderNonce objId = Ok tt ->
  Storage.objs st !! objId = Some objSrc ->
  okBound start -> okBound end_ ->
  exists f bytes,
    FileNode.makeForExisting parentId fileName objId st = (Ok f, st) /\
    FileNode.name f = fileName /\ FileNode.objId f = objId /\
    FileNode.parentId f = parentId /\
    FileNode.version f = os_version objSrc /\
    FileNode.size f = Z.of_nat (length (p_content (os_payload objSrc))) /\
    FileNode.attrs f = p_attrs (os_payload objSrc) /\
    FileNode.xattrs f = p_xattrs (os_payload objSrc) /\
    FileNode.readBytes start end_ (FileNode.mkCtx f st now)
    = (Ok (bytes, versionRead (FileNode.mkCtx f st now) objSrc),
       FileNode.mkCtx f st now).
Proof.
  intros Hp Hn Hi Hobj Hs He.
  pose proof (idToHeaderNonce_nonempty objId Hi) as Hne.
  destruct (persistance_readBytes_ok objSrc start end_ Hs He)
    as (bytes & Hread).
  unfold FileNode.makeForExisting. rewrite Hp.
  unfold FileNode.initWithAttrs, FileNode.construct, Storage.getObj.
  unfold_M. rewrite Hobj, Hi. unfold falsy.
  rewrite !bool_decide_eq_false_2 by assumption. cbn [orb].
  eexists. exists bytes.
  split; [reflexivity|]. cbn [FileNode.name FileNode.objId FileNode.parentId
    FileNode.version FileNode.size FileNode.fileSize FileNode.attrs
    FileNode.xattrs default].
  do 7 (split; [reflexivity|]).
  erewrite node_readBytes_ok; [|exact Hobj|exact Hread].
  unfold refreshed. cbn [FileNode.this FileNode.version FileNode.storage].
  rewrite (bool_decide_eq_false_2 (_ < _)) by lia.
  rewrite andb_false_r. reflexivity.
Qed.

Lemma makeForExisting_is_up_to_date_witness :
  let st := Storage.mk local {[ Storage.newId 1 := emptyObj ]} None 2 false in
  falsy (Some (Storage.newId 0)) = false /\ "f" <> "" /\
  idToHeaderNonce (Storage.newId 1) = Ok tt /\
  Storage.objs st !! Storage.newId 1 = Some emptyObj /\
  okBound None /\ okBound None /\
  exists f bytes,
    FileNode.makeForExisting (Some (Storage.newId 0)) "f" (Storage.newId 1) st
    = (Ok f, st) /\
    FileNode.readBytes None None (FileNode.mkCtx f st 7)
    = (Ok (bytes, Some (FileNode.version f)), FileNode.mkCtx f st 7).
Proof.
  intros st.
  assert (H1 : falsy (Some (Storage.newId 0)) = false) by reflexivity.
  assert (H2 : "f" <> "") by discriminate.
  assert (H3 : idToHeaderNonce (Storage.newId 1) = Ok tt) by reflexivity.
  assert (H4 : Storage.objs st !! Storage.newId 1 = Some emptyObj)
    by (vm_compute; reflexivity).
  assert (H5 : okBound None) by (intros n [=]).
  split; [exact H1|]. split; [exact H2|]. split; [exact H3|].
  split; [exact H4|]. split; [exact H5|]. split; [exact H5|].
  destruct (makeForExisting_is_up_to_date
              st (Some (Storage.newId 0)) "f" (Storage.newId 1)
              emptyObj 7 None None H1 H2 H3 H4 H5 H5)
    as (f & bytes & E1 & _ & _ & _ & Ev & _ & _ & _ & E2).
  exists f, bytes. split; [exact E1|].
  rewrite E2. unfold versionRead. cbn [FileNode.storage Storage.type st].
  rewrite Ev. reflexivity.
Defined.

(** ** More on the map of a watched tree *)

Lemma find_entries l id q :
  NoDup l.*2 -> In (id, q) l ->
  ObjIdToPathMap.findObjIdByPath_in (entriesOf l) q = Some id.
Proof.
  induction l as [|[id0 p0] rest IH]; simpl; intros Hnd Hin; [contradiction|].
  apply NoDup_cons in Hnd. destruct Hnd as [Hp Hnd].
  destruct Hin as [[= -> ->]|Hin].
  - rewrite decide_True by reflexivity. reflexivity.
  - rewrite decide_False; [apply IH; assumption|].
    intros [= ->]. apply Hp.
    apply list_elem_of_In in Hin.
    apply (list_elem_of_fmap_2 snd) in Hin. exact Hin.
Qed.

(** X16. When the folders of a tree have object ids that differ, the map
    filled from the tree has one entry for each folder, in the order of the
    walk, and no move pending: every folder of the tree is in the map at
    its path; and when the paths differ too, the search by path finds the
    folder of a path. *)
Theorem fillFromTree_of_distinct_folders (root : FolderTree) :
  NoDup (recursiveIdAndPathList root ".").*1 ->
  let self := ObjIdToPathMap.fillFromTree ObjIdToPathMap.empty root in
  self = ObjIdToPathMap.mk (entriesOf (recursiveIdAndPathList root ".")) ∅ /\
  (forall id q, folderAt root "." id q -> mapsTo self id q) /\
  (NoDup (recursiveIdAndPathList root ".").*2 ->
   forall id q, folderAt root "." id q ->
                ObjIdToPathMap.findObjIdByPath self q = Some id).
Proof.
  intros Hnd self.
  assert (E : self = ObjIdToPathMap.mk
                       (entriesOf (recursiveIdAndPathList root ".")) ∅).
  { unfold self, ObjIdToPathMap.fillFromTree. rewrite fill_entries.
    - reflexivity.
    - assumption.
    - intros id _. simpl. apply not_elem_of_nil. }
  split; [exact E|]. rewrite E. split.
  - intros id q H. apply recursiveIdAndPathList_folders in H.
    unfold mapsTo. simpl. apply map_get_entries; assumption.
  - intros Hp id q H. apply recursiveIdAndPathList_folders in H.
    unfold ObjIdToPathMap.findObjIdByPath. simpl.
    apply find_entries; assumption.
Qed.

Lemma fillFromTree_of_distinct_folders_witness :
  NoDup (recursiveIdAndPathList watchedTree ".").*1 /\
  mapsTo watchedMap (Some "id-2") "./x".
Proof.
  assert (H : NoDup (recursiveIdAndPathList watchedTree ".").*1).
  { apply (bool_decide_unpack _). vm_compute. exact I. }
  split; [exact H|].
  destruct (fillFromTree_of_distinct_folders watchedTree H) as (_ & Hm & _).
  apply Hm. unfold watchedTree.
  eapply folderAt_below; [right; left; reflexivity|].
  apply (folderAt_here
           (mkFolderTree (Some "id-2")
              [ FileItem "f" "id-3"; LinkItem "l" "id-4" ])).
Defined.

Lemma map_get_delete m k k' :
  ObjIdToPathMap.map_get (ObjIdToPathMap.map_delete m k) k'
  = if decide (k = k') then None else ObjIdToPathMap.map_get m k'.
Proof.
  unfold ObjIdToPathMap.map_delete.
  induction m as [|[k0 v0] rest IH]; simpl.
  - destruct (decide (k = k')); reflexivity.
  - destruct (decide (k0 = k)) as [->|Hne]; simpl.
    + rewrite bool_decide_eq_true_2 by reflexivity. simpl. rewrite IH.
      destruct (decide (k = k')); reflexivity.
    + rewrite bool_decide_eq_false_2 by assumption. simpl. rewrite IH.
      destruct (decide (k0 = k')) as [->|]; [|reflexivity].
      rewrite decide_False by congruence. reflexivity.
Qed.

Lemma truthyPath_mapsTo self objId path :
  mapsTo self objId path -> path <> "" ->
  ObjIdToPathMap.truthyPath
    (ObjIdToPathMap.map_get (ObjIdToPathMap.map self) (Some objId))
  = Some path.
Proof.
  unfold mapsTo. intros -> Hne. simpl.
  rewrite bool_decide_eq_false_2 by assumption. reflexivity.
Qed.

(** X17. The event [removed] of an object that the map has returns the
    path of the object and takes the entry of the object out of the map,
    and nothing else: every other entry, those of the nodes below a removed
    folder with them, and the pending moves stay; and the same event once
    more returns [undefined] and changes nothing. *)
Theorem removed_event_forgets_the_object
    (self : ObjIdToPathMap.t) (objId : ObjId) (path name : string)
    (parent : option ObjId) :
  mapsTo self objId path -> path <> "" ->
  let ev := mkNodeEvent (mkEvent Removed name) objId parent in
  let self' := (ObjIdToPathMap.getPathCorrectingTreeMap self ev).2 in
  (ObjIdToPathMap.getPathCorrectingTreeMap self ev).1 = Some path /\
  ObjIdToPathMap.map_get (ObjIdToPathMap.map self') (Some objId) = None /\
  (forall k, k <> Some objId ->
     ObjIdToPathMap.map_get (ObjIdToPathMap.map self') k
     = ObjIdToPathMap.map_get (ObjIdToPathMap.map self) k) /\
  ObjIdToPathMap.moves self' = ObjIdToPathMap.moves self /\
  ObjIdToPathMap.getPathCorrectingTreeMap self' ev = (None, self').
Proof.
  intros Hm Hne ev self'.
  assert (E : ObjIdToPathMap.getPathCorrectingTreeMap self ev
              = (Some path,
                 ObjIdToPathMap.mk
                   (ObjIdToPathMap.map_delete (ObjIdToPathMap.map self)
                                              (Some objId))
                   (ObjIdToPathMap.moves self))).
  { unfold ObjIdToPathMap.getPathCorrectingTreeMap. simpl.
    rewrite (truthyPath_mapsTo self objId path Hm Hne). reflexivity. }
  unfold self'. rewrite E. simpl.
  split; [reflexivity|]. split.
  { rewrite map_get_delete, decide_True by reflexivity. reflexivity. }
  split.
  { intros k Hk. rewrite map_get_delete, decide_False by congruence.
    reflexivity. }
  split; [reflexivity|].
  unfold ObjIdToPathMap.getPathCorrectingTreeMap. simpl.
  rewrite map_get_delete, decide_True by reflexivity. simpl.
  destruct (ObjIdToPathMap.truthyPath _); reflexivity.
Qed.

Lemma removed_event_forgets_the_object_witness :
  mapsTo watchedMap (Some "id-2") "./x" /\ "./x" <> "" /\
  (ObjIdToPathMap.getPathCorrectingTreeMap watchedMap
     (mkNodeEvent (mkEvent Removed "x") (Some "id-2") (Some None))).1
  = Some "./x".
Proof.
  assert (H1 : mapsTo watchedMap (Some "id-2") "./x") by reflexivity.
  assert (H2 : "./x" <> "") by discriminate.
  split; [exact H1|]. split; [exact H2|].
  exact (proj1 (removed_event_forgets_the_object
                  watchedMap (Some "id-2") "./x" "x" (Some None) H1 H2)).
Defined.

(** X18. The event [entry-renaming] of a folder that the map has, when the
    search finds an object at the old path of the entry, returns the path
    of the folder and puts that object at the new path of the entry, and
    nothing else: every other entry, those of the nodes below a renamed
    folder with them, keeps its path, and the pending moves stay. *)
Theorem entry_renaming_moves_the_child_only
    (self : ObjIdToPathMap.t) (objId : ObjId)
    (path oldName newName child name : string) (parent : option ObjId) :
  mapsTo self objId path -> path <> "" ->
  ObjIdToPathMap.findObjIdByPath self (path +:+ "/" +:+ oldName)
  = Some (Some child) ->
  child <> "" ->
  let ev := mkNodeEvent (mkEvent (EntryRenaming oldName newName) name)
                        objId parent in
  let self' := (ObjIdToPathMap.getPathCorrectingTreeMap self ev).2 in
  (ObjIdToPathMap.getPathCorrectingTreeMap self ev).1 = Some path /\
  mapsTo self' (Some child) (path +:+ "/" +:+ newName) /\
  (forall k, k <> Some (Some child) ->
     ObjIdToPathMap.map_get (ObjIdToPathMap.map self') k
     = ObjIdToPathMap.map_get (ObjIdToPathMap.map self) k) /\
  ObjIdToPathMap.moves self' = ObjIdToPathMap.moves self.
Proof.
  intros Hm Hne Hchild Hcne ev self'.
  assert (E : ObjIdToPathMap.getPathCorrectingTreeMap self ev
              = (Some path,
                 ObjIdToPathMap.setMap self (Some (Some child))
                   (Some (path +:+ "/" +:+ newName)))).
  { unfold ObjIdToPathMap.getPathCorrectingTreeMap. simpl.
    rewrite (truthyPath_mapsTo self objId path Hm Hne).
    rewrite Hchild. simpl.
    rewrite bool_decide_eq_false_2 by assumption. reflexivity. }
  unfold self'. rewrite E. simpl.
  split; [reflexivity|]. split.
  { unfold mapsTo. simpl. rewrite map_get_set, decide_True by reflexivity.
    reflexivity. }
  split; [|reflexivity].
  intros k Hk. rewrite map_get_set, decide_False by congruence. reflexivity.
Qed.

Lemma entry_renaming_moves_the_child_only_witness :
  mapsTo watchedMap None "." /\ "." <> "" /\
  ObjIdToPathMap.findObjIdByPath watchedMap ("." +:+ "/" +:+ "x")
  = Some (Some "id-2") /\
  "id-2" <> "" /\
  mapsTo (ObjIdToPathMap.getPathCorrectingTreeMap watchedMap
            (mkNodeEvent (mkEvent (EntryRenaming "x" "z") "") None None)).2
         (Some "id-2") "./z".
Proof.
  assert (H1 : mapsTo watchedMap None ".") by reflexivity.
  assert (H2 : "." <> "") by discriminate.
  assert (H3 : ObjIdToPathMap.findObjIdByPath watchedMap
                 ("." +:+ "/" +:+ "x") = Some (Some "id-2")) by reflexivity.
  assert (H4 : "id-2" <> "") by discriminate.
  split; [exact H1|]. split; [exact H2|]. split; [exact H3|].
  split; [exact H4|].
  destruct (entry_renaming_moves_the_child_only
              watchedMap None "." "x" "z" "id-2" "" None H1 H2 H3 H4)
    as (_ & H & _).
  exact H.
Defined.

(** X19. The first event of an object that the map does not have, when
    the map has the parent of the object: unless the event is [removed],
    the object is put into the map at the path of the parent followed by
    the path of the event, which is the path returned; the entries of other
    objects stay, and so do the pending moves, whatever the event tells of;
    and with [removed], or without the parent in the map, the event returns
    [undefined] and changes nothing. *)
Theorem event_of_an_unknown_object
    (self : ObjIdToPathMap.t) (ev : NodeEvent) :
  ObjIdToPathMap.truthyPath
    (ObjIdToPathMap.map_get (ObjIdToPathMap.map self) (Some (ne_objId ev)))
  = None ->
  let parentPath :=
    ObjIdToPathMap.truthyPath
      (ObjIdToPathMap.map_get (ObjIdToPathMap.map self) (parentObjId ev)) in
  let self' := (ObjIdToPathMap.getPathCorrectingTreeMap self ev).2 in
  (parentPath = None \/ isRemoved (body (event ev)) = true ->
   ObjIdToPathMap.getPathCorrectingTreeMap self ev = (None, self)) /\
  (forall pp, parentPath = Some pp -> isRemoved (body (event ev)) = false ->
     (ObjIdToPathMap.getPathCorrectingTreeMap self ev).1
     = Some (pp +:+ "/" +:+ e_path (event ev)) /\
     mapsTo self' (ne_objId ev) (pp +:+ "/" +:+ e_path (event ev)) /\
     (forall k, k <> Some (ne_objId ev) ->
        ObjIdToPathMap.map_get (ObjIdToPathMap.map self') k
        = ObjIdToPathMap.map_get (ObjIdToPathMap.map self) k) /\
     ObjIdToPathMap.moves self' = ObjIdToPathMap.moves self).
Proof.
  intros Hun parentPath self'. split.
  - intros H. unfold ObjIdToPathMap.getPathCorrectingTreeMap.
    rewrite Hun. fold parentPath.
    destruct H as [-> | ->]; [reflexivity|].
    destruct parentPath; reflexivity.
  - intros pp Hpp Hrm.
    assert (E : ObjIdToPathMap.getPathCorrectingTreeMap self ev
                = (Some (pp +:+ "/" +:+ e_path (event ev)),
                   ObjIdToPathMap.setMap self (Some (ne_objId ev))
                     (Some (pp +:+ "/" +:+ e_path (event ev))))).
    { unfold ObjIdToPathMap.getPathCorrectingTreeMap.
      rewrite Hun. fold parentPath. rewrite Hpp, Hrm. reflexivity. }
    unfold self'. rewrite E. simpl.
    split; [reflexivity|]. split.
    { unfold mapsTo. simpl. rewrite map_get_set, decide_True by reflexivity.
      reflexivity. }
    split; [|reflexivity].
    intros k Hk. rewrite map_get_set, decide_False by congruence.
    reflexivity.
Qed.

Lemma event_of_an_unknown_object_witness :
  ObjIdToPathMap.truthyPath
    (ObjIdToPathMap.map_get (ObjIdToPathMap.map watchedMap)
       (Some (ne_objId fileChanged))) = None /\
  (ObjIdToPathMap.getPathCorrectingTreeMap watchedMap fileChanged).1
  = Some "./x/f".
Proof.
  assert (H : ObjIdToPathMap.truthyPath
                (ObjIdToPathMap.map_get (ObjIdToPathMap.map watchedMap)
                   (Some (ne_objId fileChanged))) = None) by reflexivity.
  split; [exact H|].
  destruct (event_of_an_unknown_object watchedMap fileChanged H) as [_ H2].
  exact (proj1 (H2 "./x" eq_refl eq_refl)).
Defined.

Lemma quiet_event_changes_nothing self ev p :
  quietEvent (body (event ev)) = true ->
  mapsTo self (ne_objId ev) p -> p <> "" ->
  ObjIdToPathMap.getPathCorrectingTreeMap self ev = (Some p, self).
Proof.
  intros Hq Hm Hne.
  unfold ObjIdToPathMap.getPathCorrectingTreeMap.
  rewrite (truthyPath_mapsTo self _ p Hm Hne).
  destruct (body (event ev)) as [| | n l | e l | |]; simpl in Hq;
    try discriminate; try reflexivity.
  - apply bool_decide_eq_true in Hq. rewrite Hq. reflexivity.
  - apply bool_decide_eq_true in Hq. rewrite Hq. reflexivity.
Qed.

(** X20. Events that tell of no change in the tree, of objects that the
    map has, leave the map and the pending moves as they are, however many
    there are and in whatever order, and each returns the path of its
    object: changes of files, other events, and removals and additions of
    entries whose move label is [undefined] or 0. *)
Theorem quiet_events_change_nothing
    (self : ObjIdToPathMap.t) (evs : list NodeEvent) :
  Forall (fun ev => quietEvent (body (event ev)) = true
                    /\ knownObject self ev) evs ->
  afterEvents self evs = self /\
  Forall (fun ev =>
            exists p, mapsTo self (ne_objId ev) p /\
              ObjIdToPathMap.getPathCorrectingTreeMap self ev = (Some p, self))
         evs.
Proof.
  induction evs as [|ev evs IH]; intros H.
  - split; [reflexivity|constructor].
  - apply Forall_cons in H. destruct H as [[Hq (p & Hm & Hne)] H].
    destruct (IH H) as [IH1 IH2].
    pose proof (quiet_event_changes_nothing self ev p Hq Hm Hne) as E.
    split.
    + unfold afterEvents. simpl. rewrite E. simpl. exact IH1.
    + constructor; [|exact IH2]. exists p. split; assumption.
Qed.

Lemma quiet_events_change_nothing_witness :
  Forall (fun ev => quietEvent (body (event ev)) = true
                    /\ knownObject watchedMap ev)
         [ mkNodeEvent (mkEvent (EntryRemoval "f" (Some 0)) "x")
                       (Some "id-2") (Some None) ] /\
  afterEvents watchedMap
    [ mkNodeEvent (mkEvent (EntryRemoval "f" (Some 0)) "x")
                  (Some "id-2") (Some None) ]
  = watchedMap.
Proof.
  assert (H : Forall (fun ev => quietEvent (body (event ev)) = true
                                /\ knownObject watchedMap ev)
                [ mkNodeEvent (mkEvent (EntryRemoval "f" (Some 0)) "x")
                              (Some "id-2") (Some None) ]).
  { constructor; [|constructor]. split; [reflexivity|].
    exists "./x". split; [reflexivity|discriminate]. }
  split; [exact H|].
  exact (proj1 (quiet_events_change_nothing watchedMap _ H)).
Defined.

(** ** More on the methods of the filesystem *)

(** X21. Linking goes down the ranks of the types of storage, local
    before synced before share: on a filesystem that is not closed,
    [ensureLinkingAllowedTo] returns when the rank of the storage of the
    filesystem is not above that of the storage of the target, and throws a
    plain error otherwise; on a closed filesystem it throws the exception of
    the closed filesystem, with the name of the filesystem as the path,
    whatever the target; and it never changes anything. *)
Theorem linking_goes_down_the_ranks
    (params : LinkParameters) (s : XspFS.Sys) :
  let from := Storage.type (storage (XspFS.world s)) in
  match XspFS.store (XspFS.fs s) with
  | Some _ =>
      ensureLinkingAllowedTo params s
      = (if bool_decide (linkRank from <= linkRank (storageType params))%nat
         then Ok tt
         else Throw (JsError ("Cannot create link to "
                              +:+ FSType_name (storageType params)
                              +:+ " from " +:+ FSType_name from
                              +:+ " storage.")),
         s)
  | None =>
      ensureLinkingAllowedTo params s
      = (Throw (closedExc (XspFS.name (XspFS.fs s))), s)
  end.
Proof.
  intros from. unfold ensureLinkingAllowedTo, XspFS.storage_, closedExc.
  unfold_M. destruct (XspFS.store (XspFS.fs s)) as [u|]; [|reflexivity].
  fold from. destruct from, (storageType params); reflexivity.
Qed.

(** X22. A check of presence that is not told to throw never throws: it
    returns [false] for whatever [get] of the path has thrown, a plain error
    as well as a file exception, and else tells whether the node found has
    the type asked for; and a check that is told to throw never returns
    [false]. *)
Theorem checkPresence_throws_only_when_told
    (type : NodeType) (path : string) (s : XspFS.Sys) :
  (let '(r, s') := XspFS.onV (fun v => V.get v path) s in
   XspFS.checkPresence type path false s
   = (Ok (match r with
          | Ok node => bool_decide (ref_type node = type)
          | Throw _ => false
          end), s')) /\
  match XspFS.checkPresence type path true s with
  | (Ok b, _) => b = true
  | (Throw _, _) => True
  end.
Proof.
  unfold XspFS.checkPresence. unfold_M.
  destruct (XspFS.onV (fun v => V.get v path) s) as [[node|e] s'].
  - destruct (bool_decide (ref_type node = type)); split; reflexivity || exact I.
  - split; [reflexivity|exact I].
Qed.

Section RootOverFolderNode.

Context (removeChild : ObjId -> NodeRef -> M World unit).
Context (hasChild : ObjId -> string -> bool -> M World bool).
Context (moveChildTo : ObjId -> string -> ObjId -> string -> M World unit).

(** X23. The root of a filesystem can be neither deleted nor moved, nor
    can a node be moved onto it: for a path that has no parts, on a
    filesystem that is not closed, [deleteFolder] and [move] throw plain
    errors and change nothing, and no method of a folder that removes or
    moves a child is called. *)
Theorem root_is_neither_deleted_nor_moved
    (s : XspFS.Sys) (root : ObjId) (path other : string)
    (removeContent : option bool) :
  V.rootNode (XspFS.v (XspFS.fs s)) = Some root ->
  splitPathIntoParts path = [] ->
  XspFS.deleteFolder removeChild path removeContent s
  = (Throw (JsError "Cannot remove root folder"), s) /\
  XspFS.move hasChild moveChildTo path other s
  = (Throw (JsError "Bad initial path: it points to filesystem root"), s) /\
  (splitPathIntoParts other <> [] ->
   XspFS.move hasChild moveChildTo other path s
   = (Throw (JsError "Bad new path: it points to filesystem root"), s)).
Proof.
  intros Hroot Hpath. split; [|split].
  - unfold XspFS.deleteFolder, split. rewrite Hpath. simpl.
    unfold XspFS.rootIfNotClosed, V.getRootIfNotClosed, orSetExcPath,
      XspFS.onWorld.
    unfold_M. rewrite Hroot. destruct s as [self w]. reflexivity.
  - unfold XspFS.move. rewrite Hpath. reflexivity.
  - intros Hother. unfold XspFS.move. rewrite Hpath.
    destruct (last (splitPathIntoParts other)) eqn:L;
      [reflexivity|].
    apply last_None_nil in L. contradiction.
Qed.

End RootOverFolderNode.

Lemma root_is_neither_deleted_nor_moved_witness :
  V.rootNode (XspFS.v (XspFS.fs newSys)) = Some None /\
  splitPathIntoParts "a/.." = [] /\
  XspFS.deleteFolder (fun _ _ => mret tt) "a/.." (Some true) newSys
  = (Throw (JsError "Cannot remove root folder"), newSys).
Proof.
  assert (H1 : V.rootNode (XspFS.v (XspFS.fs newSys)) = Some None)
    by reflexivity.
  assert (H2 : splitPathIntoParts "a/.." = []) by reflexivity.
  split; [exact H1|]. split; [exact H2|].
  exact (proj1 (root_is_neither_deleted_nor_moved
                  (fun _ _ => mret tt) (fun _ _ _ => mret true)
                  (fun _ _ _ _ => mret tt)
                  newSys None "a/.." "b" (Some true) H1 H2)).
Defined.

(** ** The paths of the map and the paths of the filesystem *)

Lemma folderAt_reaches folder path id q :
  folderAt folder path id q ->
  exists parts, reaches folder parts id /\ q = pathBelow path parts.
Proof.
  induction 1 as [folder path | objId items name child path id q Hin H IH].
  - exists []. split; [constructor|reflexivity].
  - destruct IH as (parts & Hr & ->).
    exists (name :: parts). split; [|reflexivity].
    econstructor; eassumption.
Qed.

Lemma reaches_folderAt folder parts id :
  reaches folder parts id ->
  forall path, folderAt folder path id (pathBelow path parts).
Proof.
  induction 1 as [folder | objId items name child parts id Hin H IH];
    intros path.
  - apply folderAt_here.
  - simpl. eapply folderAt_below; [exact Hin|]. apply IH.
Qed.

Lemma splitPathIntoParts_pathBelow parts : forall path,
  Forall properPart parts ->
  splitPathIntoParts (pathBelow path parts)
  = splitPathIntoParts path ++ parts.
Proof.
  induction parts as [|name parts IH]; intros path Hp; simpl.
  - rewrite app_nil_r. reflexivity.
  - inversion Hp; subst. unfold pathBelow in IH. rewrite IH by assumption.
    rewrite splitPathIntoParts_child by assumption.
    rewrite <- app_assoc. reflexivity.
Qed.

(** X24. The paths of the list of a watched tree are paths of the
    filesystem: a pair of the list has the object id of a folder that is
    reached from the root by the names of some folder entries, and its path
    is ["."] followed by these names with a slash before each, and every
    folder that is reached so has such a pair; and when the names can be
    parts of a path, the parts of the path of the pair are these names, so
    that the path leads the methods of the filesystem to the folder. *)
Theorem paths_of_the_list_lead_to_the_folders
    (root : FolderTree) (id : ObjId) :
  (forall q, In (id, q) (recursiveIdAndPathList root ".") ->
     exists parts, reaches root parts id /\ q = pathBelow "." parts) /\
  (forall parts, reaches root parts id ->
     In (id, pathBelow "." parts) (recursiveIdAndPathList root ".") /\
     (Forall properPart parts ->
      splitPathIntoParts (pathBelow "." parts) = parts)).
Proof.
  split.
  - intros q H. apply recursiveIdAndPathList_folders in H.
    apply folderAt_reaches. assumption.
  - intros parts H. split.
    + apply recursiveIdAndPathList_folders. apply reaches_folderAt.
      assumption.
    + intros Hp. rewrite splitPathIntoParts_pathBelow by assumption.
      reflexivity.
Qed.

(** ** Links to files *)

(** X25. [getParamsForLink] of a file gives parameters with the type of
    the storage of the file, marked as those of a file, with the object id
    of the file and without a name, and changes nothing; for a file of a
    share storage it throws. So the parameters of a file are never those of
    a share storage, and [ensureLinkingAllowedTo] of a filesystem of a
    share storage refuses them all: on such a filesystem no link to a file
    gets through. *)
Theorem no_link_to_a_file_from_a_share_storage
    (c : FileNode.Ctx) (s : XspFS.Sys) :
  let ty := Storage.type (FileNode.storage c) in
  getParamsForLink c
  = (if bool_decide (ty = share)
     then Throw (JsError ("Creating link parameters to object in share"
                          +:+ " file system, is not implemented."))
     else Ok (mkLinkParameters ty None (Some true) None,
              mkFileLinkParams None (FileNode.objId (FileNode.this c))),
     c) /\
  match getParamsForLink c with
  | (Ok (params, _), _) =>
      storageType params <> share /\
      (Storage.type (storage (XspFS.world s)) = share ->
       exists e, ensureLinkingAllowedTo params s = (Throw e, s))
  | (Throw _, _) => ty = share
  end.
Proof.
  intros ty. unfold getParamsForLink. unfold_M. fold ty.
  destruct ty eqn:E; simpl.
  - split; [reflexivity|]. split; [discriminate|].
    intros Hs. unfold ensureLinkingAllowedTo, XspFS.storage_. unfold_M.
    destruct (XspFS.store (XspFS.fs s)); [|eexists; reflexivity].
    rewrite Hs. eexists. reflexivity.
  - split; [reflexivity|]. split; [discriminate|].
    intros Hs. unfold ensureLinkingAllowedTo, XspFS.storage_. unfold_M.
    destruct (XspFS.store (XspFS.fs s)); [|eexists; reflexivity].
    rewrite Hs. eexists. reflexivity.
  - split; reflexivity.
Qed.

(** ** More on the versioned interface *)

Lemma walk_existing parts : forall this cr w f,
  FolderOps.getFolderInThisSubTree this parts false false w = (Ok f, w) ->
  FolderOps.getFolderInThisSubTree this parts cr false w = (Ok f, w).
Proof.
  induction parts as [|name rest IH]; intros this cr w f; simpl.
  - auto.
  - unfold theFolder. unfold_M.
    destruct (folders w !! this) as [d|]; [|discriminate].
    destruct (FolderNode.lookupEntry d name) as [info|]; [|discriminate].
    destruct (bool_decide _); [|discriminate].
    rewrite andb_false_r. simpl. apply IH.
Qed.

Lemma walk_same_folders parts this w f w' :
  FolderOps.getFolderInThisSubTree this parts false false w = (Ok f, w) ->
  folders w' = folders w ->
  FolderOps.getFolderInThisSubTree this parts false false w' = (Ok f, w').
Proof.
  intros H E. eapply walk_nocreate_extends; [exact H|].
  intros id d Hd. exists d. rewrite E. split; [exact Hd|auto].
Qed.

Lemma getFile_found_any this name nullOnMissing w d f node :
  folders w !! this = Some d ->
  FolderNode.lookupEntry d name
  = Some (FolderNode.mkNodeInfo name f nt_file) ->
  files w !! f = Some node ->
  FolderOps.getFile this (Some name) nullOnMissing w = (Ok (Some f), w).
Proof.
  intros Hd Hl Hf. unfold FolderOps.getFile.
  rewrite (bind_ok _ _ _ _ _ (theFolder_ok _ _ _ Hd)).
  simpl. rewrite Hl. simpl.
  erewrite bind_ok; [reflexivity|].
  apply (loadFile_loaded this (FolderNode.mkNodeInfo name f nt_file) w node).
  exact Hf.
Qed.

Lemma getOrCreateFile_existing w path f node flags :
  fileAt w path f node ->
  V.getOrCreateFile (V.mk (Some None)) path flags w
  = (if truthyFlag (exclusive flags)
     then Throw (FileExn (makeFileException (Some (Code k_alreadyExists))
                                            path None))
     else Ok f, w).
Proof.
  intros (folderPath & name & folder & d & Hsplit & Hwalk & Hd & Hl & Hf).
  unfold V.getOrCreateFile. rewrite Hsplit.
  erewrite bind_ok; [|reflexivity].
  erewrite bind_ok.
  2: { apply orSetExcPath_ok. apply walk_existing. exact Hwalk. }
  erewrite bind_ok.
  2: { apply orSetExcPath_ok.
       eapply getFile_found_any; [exact Hd|exact Hl|exact Hf]. }
  destruct (truthyFlag (exclusive flags)); reflexivity.
Qed.

(** X26. For a path that leads to a file, [getOrCreateFile] with the flag
    [exclusive] throws the exception of the code already-exists with the
    path as it was given, and without the flag it returns the file,
    whatever the flag [create]; in both cases nothing is changed, and no
    folder and no file is made. *)
Theorem getOrCreateFile_of_a_file_that_exists
    (w : World) (path f : string) (node : FileNode.t) (flags : FileFlags) :
  fileAt w path f node ->
  V.getOrCreateFile (V.mk (Some None)) path flags w
  = (if truthyFlag (exclusive flags)
     then Throw (FileExn (makeFileException (Some (Code k_alreadyExists))
                                            path None))
     else Ok f, w).
Proof. apply getOrCreateFile_existing. Qed.

Lemma onFile_ok {A} w f node (m : M FileNode.Ctx A) a c :
  files w !! f = Some node ->
  m (FileNode.mkCtx node (storage w) (now w)) = (Ok a, c) ->
  onFile f m w = (Ok a, withFile w f c).
Proof.
  intros Hf Hm. unfold onFile. rewrite Hf, Hm. reflexivity.
Qed.

Lemma read_after_save c bytes changes :
  FileNode.readBytes None None (afterSave c bytes changes)
  = (Ok (bytesRead bytes,
         if FileNode.versioned (Storage.type (FileNode.storage c))
         then Some (FileNode.version (FileNode.this c) + 1) else None),
     afterSave c bytes changes).
Proof.
  pose proof (afterSave_holds c bytes changes) as Hobj.
  erewrite node_readBytes_ok; [|exact Hobj|].
  2: { intros ga. apply persistance_readBytes_all. intros n [=]. }
  unfold refreshed. simpl.
  rewrite (bool_decide_eq_false_2 (_ < _)) by lia.
  rewrite andb_false_r. reflexivity.
Qed.

Lemma fileAt_withFile w path f node c :
  fileAt w path f node -> fileAt (withFile w f c) path f (FileNode.this c).
Proof.
  intros (folderPath & name & folder & d & Hsplit & Hwalk & Hd & Hl & Hf).
  exists folderPath, name, folder, d.
  split; [exact Hsplit|].
  split; [eapply walk_same_folders; [exact Hwalk|reflexivity]|].
  split; [exact Hd|]. split; [exact Hl|].
  apply lookup_insert_eq.
Qed.

(** X27. A write of bytes to a path that leads to a file, with flags that
    are not exclusive, returns the version of the file plus one; after it
    the path leads to the same file, whose node and object in the store are
    as after a [save] of the bytes, and a read of the path returns the
    bytes, or [undefined] when there are none, with the new version, or
    [undefined] when the storage has no versions; no folder is changed. *)
Theorem write_to_a_file_that_exists
    (w : World) (path f : string) (node : FileNode.t) (bytes : list byte)
    (flags : option FileFlags) :
  fileAt w path f node ->
  truthyFlag (exclusive (default WRITE_NONEXCL_FLAGS flags)) = false ->
  let v := V.mk (Some None) in
  let c' := afterSave (FileNode.mkCtx node (storage w) (now w)) bytes None in
  let w' := withFile w f c' in
  V.writeBytes v path bytes flags w = (Ok (FileNode.version node + 1), w') /\
  fileAt w' path f (FileNode.this c') /\
  folders w' = folders w /\
  V.readBytes v path None None w'
  = (Ok (bytesRead bytes,
         if FileNode.versioned (Storage.type (storage w))
         then Some (FileNode.version node + 1) else None), w').
Proof.
  intros Hat Hex v c' w'. subst v.
  pose proof (fileAt_withFile w path f node c' Hat) as Hat'.
  fold w' in Hat'.
  assert (Hf : files w !! f = Some node).
  { destruct Hat as (? & ? & ? & ? & _ & _ & _ & _ & Hf). exact Hf. }
  split.
  { unfold V.writeBytes.
    erewrite bind_ok.
    2: { rewrite (getOrCreateFile_existing w path f node _ Hat), Hex.
         reflexivity. }
    apply (onFile_ok w f node); [exact Hf|]. apply save_effect. }
  split; [exact Hat'|]. split; [reflexivity|].
  unfold V.readBytes.
  erewrite bind_ok.
  2: { rewrite (getOrCreateFile_existing w' path f _ noFlags Hat').
       reflexivity. }
  erewrite (onFile_ok w' f (FileNode.this c')).
  2: { apply lookup_insert_eq. }
  2: { change (FileNode.mkCtx (FileNode.this c') (storage w') (now w'))
         with c'.
       apply read_after_save. }
  unfold withFile, w'. simpl. unfold withFile. simpl.
  rewrite insert_insert_eq. reflexivity.
Qed.

Lemma write_to_a_file_that_exists_witness :
  let v := XspFS.v (XspFS.fs newSys) in
  let w1 :=
    (V.writeBytes v "/a/b.txt" someBytes None (XspFS.world newSys)).2 in
  let node :=
    FileNode.mk "b.txt" (Storage.newId 1) 1 (Some (Storage.newId 0))
                (mkCommonAttrs 100 100) None 2
                [ mkEvent (FileChange 1) "b.txt" ] in
  fileAt w1 "/a/b.txt" (Storage.newId 1) node /\
  truthyFlag (exclusive (default WRITE_NONEXCL_FLAGS None)) = false /\
  (V.writeBytes v "/a/b.txt" [ Byte.x68 ] None w1).1 = Ok 2.
Proof.
  intros v w1 node.
  assert (H1 : fileAt w1 "/a/b.txt" (Storage.newId 1) node).
  { exists [ "a" ], "b.txt", (Some (Storage.newId 0)).
    eexists. split; [reflexivity|]. split; [vm_compute; reflexivity|].
    split; [vm_compute; reflexivity|].
    split; vm_compute; reflexivity. }
  assert (H2 : truthyFlag (exclusive (default WRITE_NONEXCL_FLAGS None))
               = false) by reflexivity.
  split; [exact H1|]. split; [exact H2|].
  destruct (write_to_a_file_that_exists w1 "/a/b.txt" (Storage.newId 1) node
              [ Byte.x68 ] None H1 H2) as (Hw & _).
  unfold v. simpl XspFS.v. rewrite Hw. reflexivity.
Defined.

Lemma getOrCreateFile_of_a_file_that_exists_witness :
  let v := XspFS.v (XspFS.fs newSys) in
  let w1 :=
    (V.writeBytes v "/a/b.txt" someBytes None (XspFS.world newSys)).2 in
  let node :=
    FileNode.mk "b.txt" (Storage.newId 1) 1 (Some (Storage.newId 0))
                (mkCommonAttrs 100 100) None 2
                [ mkEvent (FileChange 1) "b.txt" ] in
  fileAt w1 "/a/b.txt" (Storage.newId 1) node /\
  V.getOrCreateFile v "/a/b.txt" (mkFlags (Some true) (Some true) None None) w1
  = (Throw (FileExn (makeFileException (Some (Code k_alreadyExists))
                                       "/a/b.txt" None)), w1).
Proof.
  intros v w1 node.
  assert (H1 : fileAt w1 "/a/b.txt" (Storage.newId 1) node).
  { exists [ "a" ], "b.txt", (Some (Storage.newId 0)).
    eexists. split; [reflexivity|]. split; [vm_compute; reflexivity|].
    split; [vm_compute; reflexivity|].
    split; vm_compute; reflexivity. }
  split; [exact H1|].
  exact (getOrCreateFile_of_a_file_that_exists w1 "/a/b.txt" (Storage.newId 1)
           node
           (mkFlags (Some true) (Some true) None None) H1).
Defined.

Lemma new_root_walk st t name rest excl :
  FolderOps.getFolderInThisSubTree None (name :: rest) false excl
    (XspFS.world (XspFS.makeNewRoot st t))
  = (Throw (FolderOps.exc k_notFound name),
     XspFS.world (XspFS.makeNewRoot st t)).
Proof. reflexivity. Qed.

Lemma new_root_getFile st t name :
  FolderOps.getFile None name false (XspFS.world (XspFS.makeNewRoot st t))
  = (Throw (FolderOps.exc k_notFound (default "" name)),
     XspFS.world (XspFS.makeNewRoot st t)).
Proof. destruct name; reflexivity. Qed.

Lemma new_root_getNode st t name :
  FolderOps.getNode None name (XspFS.world (XspFS.makeNewRoot st t))
  = (Throw (FolderOps.exc k_notFound name),
     XspFS.world (XspFS.makeNewRoot st t)).
Proof. reflexivity. Qed.

(** X28. A new filesystem is empty: a read of whatever path throws the
    exception of the code not-found with the path as it was given, no check
    of the presence of a file finds one, and the listing of the root has no
    entry; and none of them changes anything. *)
Theorem new_filesystem_is_empty
    (st : Storage.t) (t : Z) (path : string) (start end_ : option Z) :
  let s := XspFS.makeNewRoot st t in
  V.readBytes (XspFS.v (XspFS.fs s)) path start end_ (XspFS.world s)
  = (Throw (FileExn (makeFileException (Some (Code k_notFound)) path None)),
     XspFS.world s) /\
  XspFS.checkFilePresence path None s = (Ok false, s) /\
  (splitPathIntoParts path = [] ->
   XspFS.listFolder path s = (Ok [], s)).
Proof.
  intros s. split; [|split].
  - unfold V.readBytes, V.getOrCreateFile.
    destruct (split path) as [folderPath fileName] eqn:Hsplit.
    apply bind_throw.
    erewrite bind_ok; [|reflexivity].
    destruct folderPath as [|name rest].
    + erewrite bind_ok; [|reflexivity].
      apply bind_throw. unfold orSetExcPath, catch. simpl truthyFlag.
      unfold s. rewrite new_root_getFile. reflexivity.
    + apply bind_throw. unfold orSetExcPath, catch. simpl truthyFlag.
      unfold s. rewrite new_root_walk. reflexivity.
  - unfold XspFS.checkFilePresence, XspFS.checkPresence. simpl default.
    unfold XspFS.onV, XspFS.onWorld, V.get.
    destruct (split path) as [folderPath fileName] eqn:Hsplit.
    unfold_M.
    destruct folderPath as [|name rest].
    + destruct fileName as [name|]; reflexivity.
    + reflexivity.
  - intros Hparts. unfold XspFS.listFolder, XspFS.onV, XspFS.onWorld,
      V.listFolder. unfold_M. simpl. rewrite Hparts. reflexivity.
Qed.
